(** * The per-event ingestion pipeline runner

    A shallow embedding of [EventPipelineRunnerV2]
    (plugin-server/src/ingestion/event-pipeline-runner/event-pipeline-runner.ts)
    and the properties its specification states about it.

    The runner is a class whose methods mutate private fields ([team],
    [promises], [event], [shouldProcessPerson], [timestamp], [person]) and
    signal drops by throwing [EventDroppedError].  It is embedded as a state
    and exception monad over a record of those fields.  Everything the runner
    does to the outside world (counters, producer calls, lookups, logging) is
    appended, in program order, to a [trace] kept next to the fields.

    Code the runner imports but does not contain (team manager, producer,
    normalizers, person state, ...) is gathered in the record [Deps.t].
    Collaborators that perform I/O and the ones the runner calls under
    [try]/[catch] may fail; pure helpers are total.  A collaborator is
    modelled by what it returns: it does not update the runner's event in
    place.  An [await] is a sequential call, and a promise the runner only
    collects is given by the way it settles; the handler of a [.catch] runs
    where the promise is created.

    Property bags are finite maps: the order of keys in a JavaScript object is
    not modelled, and [JSON.stringify] is a parameter. *)

From stdpp Require Import gmap strings list fin_maps pretty.
From Stdlib Require Import ZArith.

Set Warnings "-register-all".

(** ** JavaScript values *)

(** The dynamically typed values that appear in event property bags.  Numbers
    are integers here: the runner never computes with them.  Objects are
    finite maps from keys to values. *)
Inductive JsValue : Type :=
| JUndefined
| JNull
| JBool (b : bool)
| JNum (n : Z)
| JStr (s : string)
| JArr (l : list JsValue)
| JObj (o : gmap string JsValue).

Abbreviation Props := (gmap string JsValue).

(** [!!v]: the values JavaScript treats as true in a condition. *)
Definition truthy (v : JsValue) : bool :=
  match v with
  | JUndefined | JNull => false
  | JBool b => b
  | JNum n => negb (n =? 0)%Z
  | JStr s => negb (String.eqb s EmptyString)
  | JArr _ | JObj _ => true
  end.

(** [o[k]]: reading an absent key yields [undefined]. *)
Definition prop_read (o : Props) (k : string) : JsValue :=
  default JUndefined (o !! k).

(** [v || d] *)
Definition js_or (v d : JsValue) : JsValue :=
  if truthy v then v else d.

(** [v === false] *)
Definition is_false (v : JsValue) : bool :=
  match v with JBool false => true | _ => false end.

(** [v === undefined] *)
Definition is_undefined (v : JsValue) : bool :=
  match v with JUndefined => true | _ => false end.

(** [typeof v === 'boolean'] *)
Definition is_boolean (v : JsValue) : bool :=
  match v with JBool _ => true | _ => false end.

(** [typeof v === 'string'] *)
Definition is_string (v : JsValue) : bool :=
  match v with JStr _ => true | _ => false end.

Fixpoint string_chars (s : string) : list JsValue :=
  match s with
  | EmptyString => []
  | String c s' => JStr (String c EmptyString) :: string_chars s'
  end.

Definition indexed (l : list JsValue) : Props :=
  list_to_map (imap (λ (i : nat) v, (pretty i, v)) l).

(** The own enumerable properties of a value: what [{...v}] copies and what
    [Object.entries(v)] lists.  Arrays and strings enumerate their indices,
    the other primitives nothing. *)
Definition own_enumerable (v : JsValue) : Props :=
  match v with
  | JObj o => o
  | JArr l => indexed l
  | JStr s => indexed (string_chars s)
  | _ => ∅
  end.

(** [{...a, ...b}]: on a common key the later spread wins. *)
Definition spread (a b : Props) : Props := b ∪ a.

(** ** Data model *)

(** A luxon [DateTime], as milliseconds since the epoch. *)
Definition DateTime : Type := Z.

Inductive TimestampFormat := ClickHouseSecondPrecision | ClickHouse | ISO.

Inductive PersonMode := full | propertyless | force_upgrade.

Definition PersonMode_to_string (m : PersonMode) : string :=
  match m with
  | full => "full"
  | propertyless => "propertyless"
  | force_upgrade => "force_upgrade"
  end.

Module Team.
Record t := mk {
  id : Z;
  project_id : Z;
  anonymize_ips : bool;
  heatmaps_opt_in : option bool;          (* boolean | null *)
  person_processing_opt_out : option bool (* boolean | null *)
}.
End Team.
Abbreviation Team := Team.t.

Module Person.
Record t := mk {
  uuid : string;
  created_at : DateTime;
  properties : Props;
  force_upgrade : bool                    (* force_upgrade?: boolean *)
}.
End Person.
Abbreviation Person := Person.t.

(** The raw event as it comes off the bus. *)
Module PipelineEvent.
Record t := mk {
  token : option string;
  team_id : option Z;                     (* number | null | undefined *)
  uuid : JsValue;
  event : string;
  distinct_id : string;
  timestamp : option string;
  sent_at : option string;
  offset : option Z;
  properties : option Props
}.
End PipelineEvent.
Abbreviation PipelineEvent := PipelineEvent.t.

(** The event the runner works on. *)
Module PluginEvent.
Record t := mk {
  token : option string;
  team_id : Z;
  uuid : JsValue;
  event : string;
  distinct_id : string;
  timestamp : option string;
  sent_at : option string;
  offset : option Z;
  properties : Props
}.

Definition with_team_id (e : t) (n : Z) : t :=
  mk (token e) n (uuid e) (event e) (distinct_id e) (timestamp e)
     (sent_at e) (offset e) (properties e).

Definition with_event (e : t) (s : string) : t :=
  mk (token e) (team_id e) (uuid e) s (distinct_id e) (timestamp e)
     (sent_at e) (offset e) (properties e).

Definition with_properties (e : t) (p : Props) : t :=
  mk (token e) (team_id e) (uuid e) (event e) (distinct_id e) (timestamp e)
     (sent_at e) (offset e) p.
End PluginEvent.
Abbreviation PluginEvent := PluginEvent.t.

(** The enriched record written downstream. *)
Module RawKafkaEvent.
Record t := mk {
  uuid : JsValue;
  event : string;
  properties : string;
  timestamp : string;
  team_id : Z;
  project_id : Z;
  distinct_id : string;
  elements_chain : string;
  created_at : string;
  person_id : string;
  person_properties : string;
  person_created_at : string;
  person_mode : PersonMode
}.

(** The object [JSON.stringify] receives when the record is produced. *)
Definition to_js (r : t) : JsValue :=
  JObj (list_to_map
    [ ("uuid", uuid r);
      ("event", JStr (event r));
      ("properties", JStr (properties r));
      ("timestamp", JStr (timestamp r));
      ("team_id", JNum (team_id r));
      ("project_id", JNum (project_id r));
      ("distinct_id", JStr (distinct_id r));
      ("elements_chain", JStr (elements_chain r));
      ("created_at", JStr (created_at r));
      ("person_id", JStr (person_id r));
      ("person_properties", JStr (person_properties r));
      ("person_created_at", JStr (person_created_at r));
      ("person_mode", JStr (PersonMode_to_string (person_mode r))) ]).
End RawKafkaEvent.
Abbreviation RawKafkaEvent := RawKafkaEvent.t.

(** ** Errors, promises and the outside world *)

Inductive JsError :=
| EventDroppedError (ingestionWarning : string) (message : string)
    (doNotSendToDLQ : bool) (ingestionWarningDetails : option Props)
| MessageSizeTooLarge
| TypeError (message : string)
| OtherError (message : string).

(** [new EventDroppedError(ingestionWarning, options)] *)
Definition new_EventDroppedError (ingestionWarning : string)
    (message : option string) (doNotSendToDLQ : option bool)
    (ingestionWarningDetails : option Props) : JsError :=
  EventDroppedError ingestionWarning
    (default ingestionWarning message)
    (default false doNotSendToDLQ)
    ingestionWarningDetails.

Inductive Result (A : Type) :=
| Ok (a : A)
| Throw (e : JsError).
Arguments Ok {A} a.
Arguments Throw {A} e.

(** ** Built-ins applied to event data

    Event data is parsed JSON, so no value in it can be called.  An object
    with an own key [toString] or [hasOwnProperty] shadows the method it
    would inherit from [Object.prototype] with a value that is not a
    function: converting such an object to a string, or calling the method on
    it, throws a [TypeError].  The text of the error is the engine's. *)

(** [String(v)] and [`${v}`].  An object without an own [toString] converts
    through the inherited one; an array joins the conversions of its
    elements with commas, [null] and [undefined] giving the empty string. *)
Fixpoint ToString (v : JsValue) : Result string :=
  match v with
  | JUndefined => Ok "undefined"
  | JNull => Ok "null"
  | JBool b => Ok (if b then "true" else "false")
  | JNum n => Ok (pretty n)
  | JStr s => Ok s
  | JArr l =>
      (fix join (l : list JsValue) : Result string :=
         match l with
         | [] => Ok EmptyString
         | x :: l' =>
             match
               match x with
               | JUndefined | JNull => Ok EmptyString
               | _ => ToString x
               end
             with
             | Throw e => Throw e
             | Ok s =>
                 match l' with
                 | [] => Ok s
                 | _ =>
                     match join l' with
                     | Throw e => Throw e
                     | Ok rest => Ok (s +:+ "," +:+ rest)
                     end
                 end
             end
         end) l
  | JObj o =>
      match o !! "toString" with
      | Some _ => Throw (TypeError "Cannot convert object to primitive value")
      | None => Ok "[object Object]"
      end
  end.

(** [v.toString()], the method called on the value itself. *)
Definition toString (v : JsValue) : Result string :=
  match v with
  | JUndefined | JNull =>
      Throw (TypeError "Cannot read properties of undefined")
  | JObj o =>
      match o !! "toString" with
      | Some _ => Throw (TypeError "toString is not a function")
      | None => Ok "[object Object]"
      end
  | _ => ToString v
  end.

(** [o.hasOwnProperty(k)], the method called on the bag itself.  When it can
    be called, a key bound to [undefined] is still present. *)
Definition hasOwnProperty (o : Props) (k : string) : Result bool :=
  match o !! "hasOwnProperty" with
  | Some _ => Throw (TypeError "hasOwnProperty is not a function")
  | None => Ok (bool_decide (is_Some (o !! k)))
  end.

(** A promise, by the way it settles. *)
Inductive Promise :=
| Resolved
| Rejected (e : JsError).

(** The topics the runner writes to, named by the constant or hub setting
    that holds the topic's name. *)
Inductive Topic :=
| KAFKA_INGESTION_WARNINGS
| CLICKHOUSE_HEATMAPS_KAFKA_TOPIC
| CLICKHOUSE_JSON_EVENTS_KAFKA_TOPIC
| EXCEPTIONS_SYMBOLIFICATION_KAFKA_TOPIC.

Global Instance Topic_eq_dec : EqDecision Topic.
Proof. solve_decision. Defined.

(** What the runner does to the outside world. *)
Inductive Effect :=
| FetchTeam (team_id : Z)
| GetTeamByToken (token : string)
| EventDroppedCounterInc (event_type drop_cause : string)
| DroppedEventFromTransformationsCounterInc
| QueueMessages (topic : Topic) (value : string)
| Produce (topic : Topic) (key : JsValue) (value : string)
| CookielessProcessEvent (e : PluginEvent)
| TransformEvent (e : PluginEvent)
| PersonStateUpdate (e : PluginEvent) (processPerson : bool)
| FetchGroupTypeIndex (team_id project_id : Z) (groupType : JsValue)
| UpsertGroup (team_id project_id groupTypeIndex : Z) (groupKey : string)
    (groupPropertiesToSet : JsValue)
| SetTeamIngestedEvent (team : Team) (properties : Props)
| CaptureIngestionWarning (team_id : Z) (type : string) (details : Props)
| CaptureException (e : JsError)
| StatusWarn (message : string)
| StatusError (e : JsError).


(** ** Collaborators *)

(** The code and settings the runner imports.  The team manager, the
    cookieless manager, the transformer, the person state and the group
    helpers do I/O and are awaited: they may fail.  [processAiEvent],
    [extractHeatmapData] and [getElementsChain] are called under
    [try]/[catch]: they may fail too.  The producer returns promises, given by
    the way they settle.  The shared [captureIngestionWarning] of
    utils/ingestion-warnings is awaited where the runner calls it. *)
Module Deps.
Record t := mk {
  (* hub.teamManager *)
  fetchTeam : Z → Result (option Team);
  getTeamByToken : string → Result (option Team);
  setTeamIngestedEvent : Team → Props → Promise;
  (* hub.eventsToSkipPersonsProcessingByToken *)
  eventsToSkipPersonsProcessingByToken : gmap string (list string);
  (* hub.kafkaProducer *)
  produce : Topic → JsValue → string → Promise;
  queueMessages : Topic → string → Promise;
  (* hub.cookielessManager.processEvent, hogTransformer *)
  cookielessProcessEvent : PluginEvent → Result (option PluginEvent);
  transformEventAndProduceMessages : PluginEvent → Result (option PluginEvent);
  (* new PersonState(hub, db, event, team_id, distinct_id, timestamp,
     processPerson).update() *)
  PersonState_update :
    PluginEvent → Z → string → option DateTime → bool →
    Result (Person * Promise);
  (* services/group-type-manager, utils/groups-updater *)
  MAX_GROUP_TYPES_PER_TEAM : nat;
  fetchGroupTypeIndex : Z → Z → JsValue → Result (option Z);
  upsertGroup :
    Z → Z → Z → string → JsValue → option DateTime → Result unit;
  (* utils/ingestion-warnings: captureIngestionWarning(hub.kafkaProducer,
     team_id, type, details) *)
  captureIngestionWarning : Z → string → Props → Result unit;
  (* utils *)
  sanitizeString : string → string;
  sanitizeEventName : string → string;
  safeClickhouseString : string → string;
  UUID_validateString : JsValue → bool;
  castTimestampOrNow : option DateTime → TimestampFormat → string;
  normalizeEvent : PluginEvent → PluginEvent;
  normalizeProcessPerson : PluginEvent → bool → PluginEvent;
  parseEventTimestamp : PluginEvent → DateTime;
  processAiEvent : PluginEvent → Result PluginEvent;
  extractHeatmapData : PluginEvent → Result (option (list JsValue));
  getElementsChain : Props → Result string;
  (* built-in: JSON.stringify on a defined value *)
  JSON_stringify : JsValue → string
}.
End Deps.

(** ** The runner's state *)

Record Runner := mkRunner {
  originalEvent : PipelineEvent;
  team : option Team;
  promises : list Promise;
  event : PluginEvent;
  shouldProcessPerson : bool;
  timestamp : option DateTime;
  person : option Person;
  trace : list Effect
}.

Definition set_team (v : option Team) (r : Runner) : Runner :=
  mkRunner (originalEvent r) v (promises r) (event r)
    (shouldProcessPerson r) (timestamp r) (person r) (trace r).

Definition set_promises (v : list Promise) (r : Runner) : Runner :=
  mkRunner (originalEvent r) (team r) v (event r)
    (shouldProcessPerson r) (timestamp r) (person r) (trace r).

Definition set_event (v : PluginEvent) (r : Runner) : Runner :=
  mkRunner (originalEvent r) (team r) (promises r) v
    (shouldProcessPerson r) (timestamp r) (person r) (trace r).

Definition set_shouldProcessPerson (v : bool) (r : Runner) : Runner :=
  mkRunner (originalEvent r) (team r) (promises r) (event r)
    v (timestamp r) (person r) (trace r).

Definition set_timestamp (v : option DateTime) (r : Runner) : Runner :=
  mkRunner (originalEvent r) (team r) (promises r) (event r)
    (shouldProcessPerson r) v (person r) (trace r).

Definition set_person (v : option Person) (r : Runner) : Runner :=
  mkRunner (originalEvent r) (team r) (promises r) (event r)
    (shouldProcessPerson r) (timestamp r) v (trace r).

Definition set_trace (v : list Effect) (r : Runner) : Runner :=
  mkRunner (originalEvent r) (team r) (promises r) (event r)
    (shouldProcessPerson r) (timestamp r) (person r) v.

(** [this.event.properties = p], for the in-place updates of the bag. *)
Definition set_properties (p : Props) (r : Runner) : Runner :=
  set_event (PluginEvent.with_properties (event r) p) r.

(** The constructor. *)
Definition new_EventPipelineRunnerV2 (originalEvent : PipelineEvent) : Runner :=
  {| originalEvent := originalEvent;
     team := None;
     promises := [];
     event :=
       PluginEvent.mk
         (PipelineEvent.token originalEvent)
         (default (-1)%Z (PipelineEvent.team_id originalEvent))
         (PipelineEvent.uuid originalEvent)
         (PipelineEvent.event originalEvent)
         (PipelineEvent.distinct_id originalEvent)
         (PipelineEvent.timestamp originalEvent)
         (PipelineEvent.sent_at originalEvent)
         (PipelineEvent.offset originalEvent)
         (spread ∅ (default ∅ (PipelineEvent.properties originalEvent)));
     shouldProcessPerson := true;
     timestamp := None;
     person := None;
     trace := [] |}.

(** ** The monad of runner methods *)

Definition M (A : Type) : Type := Runner → Result A * Runner.

Global Instance M_ret : MRet M := λ A a st, (Ok a, st).

Global Instance M_bind : MBind M := λ A B f m st,
  match m st with
  | (Ok a, st') => f a st'
  | (Throw e, st') => (Throw e, st')
  end.

Definition throw {A} (e : JsError) : M A := λ st, (Throw e, st).

Definition get : M Runner := λ st, (Ok st, st).

Definition modify (f : Runner → Runner) : M unit := λ st, (Ok (), f st).

(** [try { m } catch (e) { h e }] *)
Definition try_catch {A} (m : M A) (h : JsError → M A) : M A := λ st,
  match m st with
  | (Ok a, st') => (Ok a, st')
  | (Throw e, st') => h e st'
  end.

(** An effect on the outside world, recorded in program order. *)
Definition perform (e : Effect) : M unit :=
  modify (λ st, set_trace (trace st ++ [e]) st).

(** [this.promises.push(p)] *)
Definition push_promise (p : Promise) : M unit :=
  modify (λ st, set_promises (promises st ++ [p]) st).

(** A call that returns normally or throws (a rejected [await] included). *)
Definition call {A} (r : Result A) : M A :=
  match r with
  | Ok a => mret a
  | Throw e => throw e
  end.

(** [o!.field] on a field that may be undefined. *)
Definition nonnull {A} (o : option A) : M A :=
  match o with
  | Some a => mret a
  | None => throw (TypeError "Cannot read properties of undefined")
  end.

Fixpoint for_each {A} (l : list A) (body : A → M unit) : M unit :=
  match l with
  | [] => mret ()
  | x :: l' => body x;; for_each l' body
  end.

(** [p.catch(h)]: a resolved promise stays resolved; on rejection the handler
    runs, and the new promise resolves unless the handler throws. *)
Definition promise_catch (p : Promise) (h : JsError → M unit) : M Promise :=
  match p with
  | Resolved => mret Resolved
  | Rejected error =>
      try_catch (h error;; mret Resolved) (λ e, mret (Rejected e))
  end.

Definition perform_all (l : list Effect) : M unit :=
  modify (λ st, set_trace (trace st ++ l) st).

(** [this.promises.push(...ps)] *)
Definition push_promises (ps : list Promise) : M unit :=
  modify (λ st, set_promises (promises st ++ ps) st).

(** ** The methods of [EventPipelineRunnerV2] *)

Section EventPipelineRunnerV2.

Context (c : Deps.t).

(** [JSON.stringify(v)] on a value that may be [undefined]. *)
Definition JSON_stringify_value (v : JsValue) : JsValue :=
  match v with
  | JUndefined => JUndefined
  | _ => JStr (Deps.JSON_stringify c v)
  end.

(** The message value of an ingestion warning. *)
Definition ingestion_warning_value
    (team_id : JsValue) (warning : string) (details : Props) : string :=
  Deps.JSON_stringify c (JObj (list_to_map
    [ ("team_id", team_id);
      ("type", JStr warning);
      ("source", JStr "plugin-server");
      ("details", JStr (Deps.JSON_stringify c (JObj details)));
      ("timestamp", JStr (Deps.castTimestampOrNow c None ClickHouse)) ])).

(** The details every warning of the runner carries, before the caller's
    own are spread over them. *)
Definition warning_base_details (e : PluginEvent) : Props :=
  list_to_map
    [ ("eventUuid",
        if is_string (PluginEvent.uuid e) then PluginEvent.uuid e
        else JSON_stringify_value (PluginEvent.uuid e));
      ("event", JStr (PluginEvent.event e));
      ("distinctId", JStr (PluginEvent.distinct_id e)) ].

(** [this.team?.id] *)
Definition team_id_or_undefined (t : option Team) : JsValue :=
  match t with
  | Some t => JNum (Team.id t)
  | None => JUndefined
  end.

Definition captureIngestionWarning (warning : string) (_details : Props)
  : M unit :=
  st ← get;
  let details := spread (warning_base_details (event st)) _details in
  let value :=
    ingestion_warning_value (team_id_or_undefined (team st)) warning details in
  perform (QueueMessages KAFKA_INGESTION_WARNINGS value);;
  p ← promise_catch (Deps.queueMessages c KAFKA_INGESTION_WARNINGS value)
        (λ error, perform (StatusWarn "Failed to produce ingestion warning"));
  push_promise p.

Definition dropEvent (dropCause : string) : M unit :=
  perform (EventDroppedCounterInc "analytics" dropCause).

(** [if (x)] on an optional number and an optional string. *)
Definition truthy_number (n : option Z) : bool :=
  match n with
  | Some n => negb (n =? 0)%Z
  | None => false
  end.

Definition truthy_string (s : option string) : bool :=
  match s with
  | Some s => negb (String.eqb s EmptyString)
  | None => false
  end.

Definition getTeam : M (option Team) :=
  st ← get;
  let token := PipelineEvent.token (originalEvent st) in
  let team_id := PipelineEvent.team_id (originalEvent st) in
  if truthy_number team_id then
    let team_id := default 0%Z team_id in
    perform (FetchTeam team_id);;
    call (Deps.fetchTeam c team_id)
  else if truthy_string token then
    let token := Deps.sanitizeString c (default EmptyString token) in
    perform (GetTeamByToken token);;
    call (Deps.getTeamByToken c token)
  else mret None.

Definition dquote : string := String (Ascii.ascii_of_nat 34) EmptyString.

Definition validateUuid : M unit :=
  st ← get;
  if negb (Deps.UUID_validateString c (PluginEvent.uuid (event st))) then
    uuid ← call (ToString (PluginEvent.uuid (event st)));
    throw (new_EventDroppedError "invalid_event_uuid"
      (Some ("Not a valid UUID: " +:+ dquote +:+ uuid +:+ dquote))
      None None)
  else mret ().

(** [this.event.properties!.$process_person_profile = false] *)
Definition disable_process_person_profile : M unit :=
  modify (λ st,
    set_properties
      (<["$process_person_profile" := JBool false]>
         (PluginEvent.properties (event st))) st).

Definition person_events : list string :=
  ["$identify"; "$create_alias"; "$merge_dangerously"; "$groupidentify"].

Definition validatePersonProcessing : M unit :=
  st ← get;
  team ← nonnull (team st);
  (if bool_decide (Team.person_processing_opt_out team = Some true)
   then disable_process_person_profile else mret ());;
  let skipPersonsProcessingForDistinctIds :=
    PipelineEvent.token (originalEvent st) ≫=
      (λ token, Deps.eventsToSkipPersonsProcessingByToken c !! token) in
  (match skipPersonsProcessingForDistinctIds with
   | Some ids =>
       if bool_decide (PluginEvent.distinct_id (event st) ∈ ids)
       then disable_process_person_profile else mret ()
   | None => mret ()
   end);;
  st ← get;
  let processPersonProfile :=
    prop_read (PluginEvent.properties (event st)) "$process_person_profile" in
  if is_false processPersonProfile then
    if bool_decide (PluginEvent.event (event st) ∈ person_events) then
      throw (new_EventDroppedError
        "invalid_event_when_process_person_profile_is_false"
        (Some ("Invalid event when process_person_profile is false: " +:+
               dquote +:+ PluginEvent.event (event st) +:+ dquote))
        (Some true) None)
    else
      modify (set_event (Deps.normalizeProcessPerson c (event st) false));;
      modify (set_shouldProcessPerson false)
  else if negb (is_undefined processPersonProfile)
          && negb (is_boolean processPersonProfile) then
    captureIngestionWarning "invalid_process_person_profile"
      {[ "$process_person_profile" := processPersonProfile ]}
  else mret ().

Definition normalizeEvent : M unit :=
  modify (λ st,
    set_event
      (PluginEvent.with_event (event st)
         (Deps.sanitizeEventName c (PluginEvent.event (event st)))) st);;
  modify (λ st, set_event (Deps.normalizeEvent c (event st)) st);;
  modify (λ st,
    set_event
      (Deps.normalizeProcessPerson c (event st) (shouldProcessPerson st)) st);;
  modify (λ st,
    set_timestamp (Some (Deps.parseEventTimestamp c (event st))) st).

Definition processAiEvent : M unit :=
  st ← get;
  if bool_decide (PluginEvent.event (event st) = "$ai_generation")
     || bool_decide (PluginEvent.event (event st) = "$ai_embedding")
  then
    try_catch
      (e ← call (Deps.processAiEvent c (event st));
       modify (set_event e))
      (λ error, perform (CaptureException error);;
                perform (StatusError error))
  else mret ().

Definition trackFirstEventIngestion : M unit :=
  st ← get;
  team ← nonnull (team st);
  let properties := PluginEvent.properties (event st) in
  perform (SetTeamIngestedEvent team properties);;
  push_promise (Deps.setTeamIngestedEvent c team properties).

Definition processPerson : M unit :=
  st ← get;
  perform (PersonStateUpdate (event st) (shouldProcessPerson st));;
  r ← call (Deps.PersonState_update c
              (event st)
              (PluginEvent.team_id (event st))
              (PluginEvent.distinct_id (event st))
              (timestamp st)
              (shouldProcessPerson st));
  let '(person, kafkaAck) := r in
  modify (set_person (Some person));;
  push_promise kafkaAck.

(** [`$group_${i}`] *)
Definition group_key (i : Z) : string := "$group_" +:+ pretty i.

Definition processGroups : M unit :=
  st ← get;
  if negb (shouldProcessPerson st) then mret ()
  else
    team ← nonnull (team st);
    (* Adds group_0 etc values to properties *)
    for_each
      (map_to_list (own_enumerable
         (js_or (prop_read (PluginEvent.properties (event st)) "$groups")
                (JObj ∅))))
      (λ '(groupType, groupIdentifier),
         perform (FetchGroupTypeIndex (Team.id team) (Team.project_id team)
                    (JStr groupType));;
         columnIndex ← call (Deps.fetchGroupTypeIndex c
                               (Team.id team) (Team.project_id team)
                               (JStr groupType));
         match columnIndex with
         | Some columnIndex =>
             modify (λ st,
               set_properties
                 (<[group_key columnIndex := groupIdentifier]>
                    (PluginEvent.properties (event st))) st)
         | None => mret ()
         end);;
    st ← get;
    if bool_decide (PluginEvent.event (event st) = "$groupidentify") then
      let properties := PluginEvent.properties (event st) in
      if negb (truthy (prop_read properties "$group_type"))
         || negb (truthy (prop_read properties "$group_key"))
      then mret ()
      else
        let groupType := prop_read properties "$group_type" in
        let groupKey := prop_read properties "$group_key" in
        let groupPropertiesToSet := prop_read properties "$group_set" in
        perform (FetchGroupTypeIndex (Team.id team) (Team.project_id team)
                   groupType);;
        groupTypeIndex ← call (Deps.fetchGroupTypeIndex c
                                 (Team.id team) (Team.project_id team)
                                 groupType);
        match groupTypeIndex with
        | Some groupTypeIndex =>
            key ← call (toString groupKey);
            perform (UpsertGroup (Team.id team) (Team.project_id team)
                       groupTypeIndex key
                       (js_or groupPropertiesToSet (JObj ∅)));;
            call (Deps.upsertGroup c
                    (Team.id team) (Team.project_id team) groupTypeIndex
                    key
                    (js_or groupPropertiesToSet (JObj ∅))
                    (timestamp st))
        | None => mret ()
        end
    else mret ().

(** [this.team?.heatmaps_opt_in !== false] *)
Definition heatmaps_enabled (t : option Team) : bool :=
  match t with
  | Some t => negb (bool_decide (Team.heatmaps_opt_in t = Some false))
  | None => true
  end.

Definition processHeatmaps : M unit :=
  try_catch
    (st ← get;
     if heatmaps_enabled (team st) then
       extracted ← call (Deps.extractHeatmapData c (event st));
       let heatmapEvents := default [] extracted in
       let key := PluginEvent.uuid (event st) in
       perform_all
         (map (λ rawEvent,
                 Produce CLICKHOUSE_HEATMAPS_KAFKA_TOPIC key
                   (Deps.JSON_stringify c rawEvent))
              heatmapEvents);;
       push_promises
         (map (λ rawEvent,
                 Deps.produce c CLICKHOUSE_HEATMAPS_KAFKA_TOPIC key
                   (Deps.JSON_stringify c rawEvent))
              heatmapEvents)
     else mret ())
    (λ e,
       st ← get;
       captureIngestionWarning "invalid_heatmap_data"
         {[ "eventUuid" := PluginEvent.uuid (event st) ]});;
  (* We don't want to ingest this data to the events table *)
  modify (λ st,
    set_properties
      (delete "$heatmap_data" (PluginEvent.properties (event st))) st).

(** The loop of [createKafkaEvent] over the group type indices:
    [for (i = 0; i < MAX_GROUP_TYPES_PER_TEAM; ++i)
       delete this.event.properties![`$group_${i}`]] *)
Definition deleteGroupKeys : M unit :=
  for_each (seq 0 (Deps.MAX_GROUP_TYPES_PER_TEAM c))
    (λ groupTypeIndex,
       modify (λ st,
         set_properties
           (delete (group_key (Z.of_nat groupTypeIndex))
              (PluginEvent.properties (event st))) st)).

Definition createKafkaEvent : M RawKafkaEvent :=
  st ← get;
  (* Just before we write we can now remove the IP if we need to *)
  (if truthy (prop_read (PluginEvent.properties (event st)) "$ip") then
     team ← nonnull (team st);
     if Team.anonymize_ips team then
       modify (set_properties
                 (delete "$ip" (PluginEvent.properties (event st))))
     else mret ()
   else mret ());;
  st ← get;
  let properties := PluginEvent.properties (event st) in
  elementsChain ←
    try_catch (call (Deps.getElementsChain c properties))
      (λ error,
         team ← nonnull (team st);
         perform (CaptureException error);;
         perform (StatusWarn "Failed to process elements");;
         mret EmptyString);
  eventPersonProperties ←
    (if shouldProcessPerson st then
       person ← nonnull (person st);
       mret (Deps.JSON_stringify c (JObj
               (spread (Person.properties person)
                  (own_enumerable
                     (js_or (prop_read properties "$set") (JObj ∅))))))
     else
       (* TODO: Move this into `normalizeEventStep` where it belongs, but
          the code structure and tests demand this for now. *)
       deleteGroupKeys;;
       mret "{}");
  person ← nonnull (person st);
  let personMode :=
    if Person.force_upgrade person then force_upgrade
    else if negb (shouldProcessPerson st) then propertyless
    else full in
  st ← get;
  team ← nonnull (team st);
  mret
    {| RawKafkaEvent.uuid := PluginEvent.uuid (event st);
       RawKafkaEvent.event :=
         Deps.safeClickhouseString c (PluginEvent.event (event st));
       RawKafkaEvent.properties :=
         Deps.JSON_stringify c (JObj (PluginEvent.properties (event st)));
       RawKafkaEvent.timestamp :=
         Deps.castTimestampOrNow c (timestamp st) ClickHouse;
       RawKafkaEvent.team_id := Team.id team;
       RawKafkaEvent.project_id := Team.project_id team;
       RawKafkaEvent.distinct_id :=
         Deps.safeClickhouseString c (PluginEvent.distinct_id (event st));
       RawKafkaEvent.elements_chain :=
         Deps.safeClickhouseString c elementsChain;
       RawKafkaEvent.created_at := Deps.castTimestampOrNow c None ClickHouse;
       RawKafkaEvent.person_id := Person.uuid person;
       RawKafkaEvent.person_properties := eventPersonProperties;
       RawKafkaEvent.person_created_at :=
         Deps.castTimestampOrNow c (Some (Person.created_at person))
           ClickHouseSecondPrecision;
       RawKafkaEvent.person_mode := personMode |}.

Definition produceExceptionSymbolificationEventStep (event : RawKafkaEvent)
  : M unit :=
  let key := RawKafkaEvent.uuid event in
  let value := Deps.JSON_stringify c (RawKafkaEvent.to_js event) in
  perform (Produce EXCEPTIONS_SYMBOLIFICATION_KAFKA_TOPIC key value);;
  p ← promise_catch
        (Deps.produce c EXCEPTIONS_SYMBOLIFICATION_KAFKA_TOPIC key value)
        (λ error,
           perform (StatusWarn
             "Failed to produce exception event for symbolification");;
           throw error);
  push_promise p.

Definition produceEventToKafka (event : RawKafkaEvent) : M unit :=
  let key := RawKafkaEvent.uuid event in
  let value := Deps.JSON_stringify c (RawKafkaEvent.to_js event) in
  perform (Produce CLICKHOUSE_JSON_EVENTS_KAFKA_TOPIC key value);;
  p ← promise_catch
        (Deps.produce c CLICKHOUSE_JSON_EVENTS_KAFKA_TOPIC key value)
        (λ error,
           (* Some messages end up significantly larger than the original
              after plugin processing, person & group enrichment, etc. *)
           match error with
           | MessageSizeTooLarge =>
               let details : Props :=
                 list_to_map
                   [ ("eventUuid", RawKafkaEvent.uuid event);
                     ("distinctId",
                       JStr (RawKafkaEvent.distinct_id event)) ] in
               perform (CaptureIngestionWarning (RawKafkaEvent.team_id event)
                          "message_size_too_large" details);;
               call (Deps.captureIngestionWarning c
                       (RawKafkaEvent.team_id event)
                       "message_size_too_large" details)
           | _ => throw error
           end);
  push_promise p.

(** The last lines of [_run]: assemble the record and route it. *)
Definition assembleAndProduce : M unit :=
  kafkaEvent ← createKafkaEvent;
  st ← get;
  (* [a && !b]: the method is called only on an [$exception] *)
  toSymbolification ←
    ((if bool_decide (PluginEvent.event (event st) = "$exception") then
        sentry ← call (hasOwnProperty (PluginEvent.properties (event st))
                         "$sentry_event_id");
        mret (negb sentry)
      else mret false) : M bool);
  if (toSymbolification : bool)
  then produceExceptionSymbolificationEventStep kafkaEvent
  else produceEventToKafka kafkaEvent.

(** [_run] from the point the source marks "this is where we cut off for
    heatmaps": the event has a team and has passed both validations. *)
Definition processValidatedEvent : M unit :=
  st ← get;
  if bool_decide (PluginEvent.event (event st) = "$$heatmap") then
    (* Heatmaps are not typical events so we bypass alot of the usual
       processing *)
    normalizeEvent;;
    processHeatmaps
  else
    perform (CookielessProcessEvent (event st));;
    postCookielessEvent ← call (Deps.cookielessProcessEvent c (event st));
    match postCookielessEvent with
    | None =>
        (* NOTE: In this case we just return as it is expected, not an
           ingestion error *)
        perform DroppedEventFromTransformationsCounterInc
    | Some _ =>
      perform (TransformEvent (event st));;
      result ← call (Deps.transformEventAndProduceMessages c (event st));
      match result with
      | None => perform DroppedEventFromTransformationsCounterInc
      | Some _ =>
        processAiEvent;;
        normalizeEvent;;
        processPerson;;
        processGroups;;
        trackFirstEventIngestion;;
        processHeatmaps;;
        assembleAndProduce
      end
    end.

Definition _run : M unit :=
  (* First of all lets get the team *)
  t ← getTeam;
  modify (set_team t);;
  match t with
  | None => dropEvent "invalid_token"
  | Some t =>
    modify (λ st,
      set_event (PluginEvent.with_team_id (event st) (Team.id t)) st);;
    st ← get;
    (* Early exit for client ingestion warnings *)
    if bool_decide (PluginEvent.event (event st) = "$$client_ingestion_warning")
    then
      captureIngestionWarning "client_ingestion_warning"
        {[ "message" :=
             prop_read (PluginEvent.properties (event st))
               "$$client_ingestion_warning_message" ]}
    else
      validateUuid;;
      validatePersonProcessing;;
      processValidatedEvent
  end.

(** The [catch] block of [run]. *)
Definition run_catch (error : JsError) : M unit :=
  (* We capture ingestion warnings but allow the parent to decide on DLQ,
     retries etc. *)
  match error with
  | EventDroppedError ingestionWarning _ _ ingestionWarningDetails =>
      captureIngestionWarning ingestionWarning
        (default ∅ ingestionWarningDetails)
  | _ => mret ()
  end;;
  throw error.

Definition run : M unit := try_catch _run run_catch.

End EventPipelineRunnerV2.

(** ** What a run is observed by *)

(** The lookup [getTeam] performs for an event, if any, and its result. *)
Definition team_lookups (c : Deps.t) (e : PipelineEvent) : list Effect :=
  if truthy_number (PipelineEvent.team_id e) then
    [FetchTeam (default 0%Z (PipelineEvent.team_id e))]
  else if truthy_string (PipelineEvent.token e) then
    [GetTeamByToken
       (Deps.sanitizeString c (default EmptyString (PipelineEvent.token e)))]
  else [].

Definition team_resolution (c : Deps.t) (e : PipelineEvent)
  : Result (option Team) :=
  if truthy_number (PipelineEvent.team_id e) then
    Deps.fetchTeam c (default 0%Z (PipelineEvent.team_id e))
  else if truthy_string (PipelineEvent.token e) then
    Deps.getTeamByToken c
      (Deps.sanitizeString c (default EmptyString (PipelineEvent.token e)))
  else Ok None.

(** The event's team id, when it has one the runner looks up, finds no
    team; likewise for its token, looked up the way the runner does. *)
Definition team_id_unresolved (c : Deps.t) (e : PipelineEvent) : Prop :=
  truthy_number (PipelineEvent.team_id e) = true →
  Deps.fetchTeam c (default 0%Z (PipelineEvent.team_id e)) = Ok None.

Definition token_unresolved (c : Deps.t) (e : PipelineEvent) : Prop :=
  truthy_string (PipelineEvent.token e) = true →
  Deps.getTeamByToken c
    (Deps.sanitizeString c (default EmptyString (PipelineEvent.token e)))
  = Ok None.

(** The messages a trace produces to a topic, oldest first. *)
Definition produced_to (topic : Topic) (tr : list Effect)
  : list (JsValue * string) :=
  omap (λ e,
    match e with
    | Produce t k v => if decide (t = topic) then Some (k, v) else None
    | _ => None
    end) tr.

(** The values a trace queues on a topic, oldest first. *)
Definition queued_on (topic : Topic) (tr : list Effect) : list string :=
  omap (λ e,
    match e with
    | QueueMessages t v => if decide (t = topic) then Some v else None
    | _ => None
    end) tr.

(** The drop causes a trace counts, oldest first. *)
Definition drop_causes (tr : list Effect) : list string :=
  omap (λ e,
    match e with
    | EventDroppedCounterInc _ cause => Some cause
    | _ => None
    end) tr.

(** Calls into transformation, person and group processing. *)
Definition is_identity_processing (e : Effect) : bool :=
  match e with
  | CookielessProcessEvent _ | TransformEvent _
  | PersonStateUpdate _ _
  | FetchGroupTypeIndex _ _ _ | UpsertGroup _ _ _ _ _
  | SetTeamIngestedEvent _ _ => true
  | _ => false
  end.

(** The log line a failed ingestion-warning produce leaves. *)
Definition warning_failure_log (p : Promise) : list Effect :=
  match p with
  | Resolved => []
  | Rejected _ => [StatusWarn "Failed to produce ingestion warning"]
  end.

(** The heatmap sub-events [processHeatmaps] emits for an event. *)
Definition extracted_heatmaps (c : Deps.t) (t : option Team) (e : PluginEvent)
  : list JsValue :=
  if heatmaps_enabled t then
    match Deps.extractHeatmapData c e with
    | Ok extracted => default [] extracted
    | Throw _ => []
    end
  else [].

(** [this.event.properties!.$process_person_profile = false] on an event. *)
Definition with_process_person_profile_false (e : PluginEvent) : PluginEvent :=
  PluginEvent.with_properties e
    (<["$process_person_profile" := JBool false]> (PluginEvent.properties e)).

(** The distinct id is on the skip list of the event's token. *)
Definition on_skip_list (c : Deps.t) (st : Runner) : bool :=
  match PipelineEvent.token (originalEvent st) ≫=
          (λ token, Deps.eventsToSkipPersonsProcessingByToken c !! token) with
  | Some ids => bool_decide (PluginEvent.distinct_id (event st) ∈ ids)
  | None => false
  end.

(** The message the runner queues for a warning, the effects of queueing
    it, and the runner afterwards. *)
Definition warning_message (c : Deps.t) (st : Runner)
    (warning : string) (details : Props) : string :=
  ingestion_warning_value c (team_id_or_undefined (team st)) warning
    (spread (warning_base_details c (event st)) details).

Definition warning_effects (c : Deps.t) (st : Runner)
    (warning : string) (details : Props) : list Effect :=
  QueueMessages KAFKA_INGESTION_WARNINGS (warning_message c st warning details)
  :: warning_failure_log
       (Deps.queueMessages c KAFKA_INGESTION_WARNINGS
          (warning_message c st warning details)).

Definition after_warning (c : Deps.t) (warning : string) (details : Props)
    (st : Runner) : Runner :=
  set_promises (promises st ++ [Resolved])
    (set_trace (trace st ++ warning_effects c st warning details) st).

(** The runner once the team [t] is resolved for the event [e]. *)
Definition with_resolved_team (c : Deps.t) (e : PipelineEvent) (t : Team)
  : Runner :=
  let st := new_EventPipelineRunnerV2 e in
  set_event (PluginEvent.with_team_id (event st) (Team.id t))
    (set_team (Some t) (set_trace (team_lookups c e) st)).

(** A normalizer leaves the event's name, or its uuid, alone. *)
Definition keeps_name (f : PluginEvent → PluginEvent) : Prop :=
  ∀ e, PluginEvent.event (f e) = PluginEvent.event e.

Definition keeps_uuid (f : PluginEvent → PluginEvent) : Prop :=
  ∀ e, PluginEvent.uuid (f e) = PluginEvent.uuid e.

(** A stretch of trace that produces no message, counts no drop and calls
    no transformation, person or group processing. *)
Definition quiet (l : list Effect) : Prop :=
  (∀ topic, produced_to topic l = [])
  ∧ drop_causes l = []
  ∧ forallb (λ x, negb (is_identity_processing x)) l = true.

(** The event [normalizeEvent] leaves in [this.event], and the runner
    afterwards. *)
Definition normalized_event (c : Deps.t) (e : PluginEvent)
    (processPerson : bool) : PluginEvent :=
  Deps.normalizeProcessPerson c
    (Deps.normalizeEvent c
       (PluginEvent.with_event e
          (Deps.sanitizeEventName c (PluginEvent.event e))))
    processPerson.

Definition after_normalizeEvent (c : Deps.t) (st : Runner) : Runner :=
  let e := normalized_event c (event st) (shouldProcessPerson st) in
  set_timestamp (Some (Deps.parseEventTimestamp c e)) (set_event e st).

(** What [processHeatmaps] adds to the trace, and the runner afterwards. *)
Definition heatmap_effects (c : Deps.t) (st : Runner) : list Effect :=
  if heatmaps_enabled (team st) then
    match Deps.extractHeatmapData c (event st) with
    | Ok extracted =>
        map (λ rawEvent,
               Produce CLICKHOUSE_HEATMAPS_KAFKA_TOPIC
                 (PluginEvent.uuid (event st))
                 (Deps.JSON_stringify c rawEvent))
            (default [] extracted)
    | Throw _ =>
        warning_effects c st "invalid_heatmap_data"
          {[ "eventUuid" := PluginEvent.uuid (event st) ]}
    end
  else [].

Definition heatmap_promises (c : Deps.t) (st : Runner) : list Promise :=
  if heatmaps_enabled (team st) then
    match Deps.extractHeatmapData c (event st) with
    | Ok extracted =>
        map (λ rawEvent,
               Deps.produce c CLICKHOUSE_HEATMAPS_KAFKA_TOPIC
                 (PluginEvent.uuid (event st))
                 (Deps.JSON_stringify c rawEvent))
            (default [] extracted)
    | Throw _ => [Resolved]
    end
  else [].

Definition after_heatmaps (c : Deps.t) (st : Runner) : Runner :=
  set_properties (delete "$heatmap_data" (PluginEvent.properties (event st)))
    (set_promises (promises st ++ heatmap_promises c st)
       (set_trace (trace st ++ heatmap_effects c st) st)).

(** Person processing is switched off from outside the event: by the team's
    opt-out or by the skip list. *)
Definition person_processing_overridden (c : Deps.t) (st : Runner) (t : Team)
  : bool :=
  bool_decide (Team.person_processing_opt_out t = Some true)
  || on_skip_list c st.

(** The event [validatePersonProcessing] decides on, and the value of
    [$process_person_profile] it reads from it. *)
Definition validated_event (c : Deps.t) (st : Runner) (t : Team) : PluginEvent :=
  if person_processing_overridden c st t
  then with_process_person_profile_false (event st)
  else event st.

Definition effective_process_person_profile
    (c : Deps.t) (st : Runner) (t : Team) : JsValue :=
  prop_read (PluginEvent.properties (validated_event c st t))
    "$process_person_profile".

(** The error [validatePersonProcessing] throws for an event name. *)
Definition invalid_person_event_error (name : string) : JsError :=
  EventDroppedError "invalid_event_when_process_person_profile_is_false"
    ("Invalid event when process_person_profile is false: " +:+
     dquote +:+ name +:+ dquote)
    true None.

(** A step leaves the decision on person processing as it found it. *)
Definition same_flag (st st' : Runner) : Prop :=
  shouldProcessPerson st' = shouldProcessPerson st.

(** A step produces nothing to the events topic or the exceptions topic,
    the two topics enriched records go to. *)
Definition enriched_unchanged (st st' : Runner) : Prop :=
  produced_to CLICKHOUSE_JSON_EVENTS_KAFKA_TOPIC (trace st')
  = produced_to CLICKHOUSE_JSON_EVENTS_KAFKA_TOPIC (trace st)
  ∧ produced_to EXCEPTIONS_SYMBOLIFICATION_KAFKA_TOPIC (trace st')
    = produced_to EXCEPTIONS_SYMBOLIFICATION_KAFKA_TOPIC (trace st).

(** What every step between validation and assembly guarantees. *)
Definition before_assembly (st st' : Runner) : Prop :=
  same_flag st st' ∧ enriched_unchanged st st'.

(** A computation either ends before assembly or hands over to
    [assembleAndProduce], which then ends it. *)
Definition ends_in_assembly (c : Deps.t) (k : M unit) : Prop :=
  ∀ st r st', k st = (r, st') →
    before_assembly st st'
    ∨ ∃ st_a, before_assembly st st_a ∧ assembleAndProduce c st_a = (r, st').

(** A computation relates every state it starts in to the state it ends in,
    however it ends. *)
Definition preserves (R : relation Runner) {A} (m : M A) : Prop :=
  ∀ st r st', m st = (r, st') → R st st'.

(** The property bag after the group keys of all indices below [n] are
    deleted. *)
Definition strip_group_keys (n : nat) (p : Props) : Props :=
  foldl (λ p i, delete (group_key (Z.of_nat i)) p) p (seq 0 n).

(** The property bag [createKafkaEvent] serializes. *)
(** The property bag [getElementsChain] is called on. *)
Definition anonymized_properties (st : Runner) (t : Team) : Props :=
  let properties := PluginEvent.properties (event st) in
  if truthy (prop_read properties "$ip") && Team.anonymize_ips t
  then delete "$ip" properties else properties.

(** The property bag [createKafkaEvent] serializes. *)
Definition assembled_properties (c : Deps.t) (st : Runner) (t : Team) : Props :=
  if shouldProcessPerson st then anonymized_properties st t
  else strip_group_keys (Deps.MAX_GROUP_TYPES_PER_TEAM c)
         (anonymized_properties st t).

Definition elements_chain_of (c : Deps.t) (p : Props) : string :=
  match Deps.getElementsChain c p with
  | Ok chain => chain
  | Throw _ => EmptyString
  end.

Definition elements_chain_log (c : Deps.t) (p : Props) : list Effect :=
  match Deps.getElementsChain c p with
  | Ok _ => []
  | Throw error =>
      [CaptureException error; StatusWarn "Failed to process elements"]
  end.

(** The [$set] of the event as [createKafkaEvent] spreads it. *)
Definition event_set (p : Props) : Props :=
  own_enumerable (js_or (prop_read p "$set") (JObj ∅)).

(** The record [createKafkaEvent] returns for a runner with team [t] and
    person [p], and the runner afterwards. *)
Definition assembled_record (c : Deps.t) (st : Runner) (t : Team) (p : Person)
  : RawKafkaEvent :=
  {| RawKafkaEvent.uuid := PluginEvent.uuid (event st);
     RawKafkaEvent.event :=
       Deps.safeClickhouseString c (PluginEvent.event (event st));
     RawKafkaEvent.properties :=
       Deps.JSON_stringify c (JObj (assembled_properties c st t));
     RawKafkaEvent.timestamp :=
       Deps.castTimestampOrNow c (timestamp st) ClickHouse;
     RawKafkaEvent.team_id := Team.id t;
     RawKafkaEvent.project_id := Team.project_id t;
     RawKafkaEvent.distinct_id :=
       Deps.safeClickhouseString c (PluginEvent.distinct_id (event st));
     RawKafkaEvent.elements_chain :=
       Deps.safeClickhouseString c
         (elements_chain_of c (anonymized_properties st t));
     RawKafkaEvent.created_at := Deps.castTimestampOrNow c None ClickHouse;
     RawKafkaEvent.person_id := Person.uuid p;
     RawKafkaEvent.person_properties :=
       if shouldProcessPerson st then
         Deps.JSON_stringify c (JObj
           (spread (Person.properties p)
              (event_set (anonymized_properties st t))))
       else "{}";
     RawKafkaEvent.person_created_at :=
       Deps.castTimestampOrNow c (Some (Person.created_at p))
         ClickHouseSecondPrecision;
     RawKafkaEvent.person_mode :=
       if Person.force_upgrade p then force_upgrade
       else if negb (shouldProcessPerson st) then propertyless
       else full |}.

Definition after_createKafkaEvent (c : Deps.t) (st : Runner) (t : Team)
  : Runner :=
  set_trace
    (trace st ++ elements_chain_log c (anonymized_properties st t))
    (set_properties (assembled_properties c st t) st).

(** The calls a trace makes to the shared warning helper, oldest first:
    team id, warning type and details of each. *)
Definition warnings_captured (tr : list Effect) : list (Z * string * Props) :=
  omap (λ e,
    match e with
    | CaptureIngestionWarning team_id type details =>
        Some (team_id, type, details)
    | _ => None
    end) tr.

(** What the handler of a rejected produce of [produceEventToKafka] adds to
    the trace, and the way the promise the runner collects settles. *)
Definition oversize_details (r : RawKafkaEvent) : Props :=
  list_to_map
    [ ("eventUuid", RawKafkaEvent.uuid r);
      ("distinctId", JStr (RawKafkaEvent.distinct_id r)) ].

Definition rejected_produce_effects (r : RawKafkaEvent) (error : JsError)
  : list Effect :=
  match error with
  | MessageSizeTooLarge =>
      [CaptureIngestionWarning (RawKafkaEvent.team_id r)
         "message_size_too_large" (oversize_details r)]
  | _ => []
  end.

Definition rejected_produce_outcome (c : Deps.t) (r : RawKafkaEvent)
    (error : JsError) : Promise :=
  match error with
  | MessageSizeTooLarge =>
      match Deps.captureIngestionWarning c (RawKafkaEvent.team_id r)
              "message_size_too_large" (oversize_details r) with
      | Ok _ => Resolved
      | Throw e => Rejected e
      end
  | _ => Rejected error
  end.

(** The key and value a record is produced with. *)
Definition record_message (c : Deps.t) (r : RawKafkaEvent)
  : JsValue * string :=
  (RawKafkaEvent.uuid r, Deps.JSON_stringify c (RawKafkaEvent.to_js r)).

(** ** A concrete deployment

    One instance of the collaborators, small enough to evaluate runs on:
    two teams, a producer with a size limit, a person store that knows one
    returning user.  The examples below run the pipeline on it. *)
Module Fixture.

Definition team_open : Team :=
  Team.mk 2 1 false None (Some false).

Definition team_opted_out : Team :=
  Team.mk 3 1 false (Some true) (Some true).

Definition fetchTeam (id : Z) : Result (option Team) :=
  if (id =? 2)%Z then Ok (Some team_open)
  else if (id =? 3)%Z then Ok (Some team_opted_out)
  else Ok None.

Definition getTeamByToken (token : string) : Result (option Team) :=
  if String.eqb token "phc_open" then Ok (Some team_open)
  else if String.eqb token "phc_optout" then Ok (Some team_opted_out)
  else Ok None.

(** Null bytes become the replacement character U+FFFD (in UTF-8). *)
Fixpoint sanitizeString (s : string) : string :=
  match s with
  | EmptyString => EmptyString
  | String a s' =>
      if Ascii.eqb a (Ascii.ascii_of_nat 0) then
        String (Ascii.ascii_of_nat 239)
          (String (Ascii.ascii_of_nat 191)
             (String (Ascii.ascii_of_nat 189) (sanitizeString s')))
      else String a (sanitizeString s')
  end.

Definition is_hex (a : Ascii.ascii) : bool :=
  let n := Ascii.nat_of_ascii a in
  ((48 <=? n) && (n <=? 57)) || ((97 <=? n) && (n <=? 102))
  || ((65 <=? n) && (n <=? 70)).

Fixpoint uuid_shape (i : nat) (s : string) : bool :=
  match s with
  | EmptyString => i =? 36
  | String a s' =>
      (if bool_decide (i ∈ [8; 13; 18; 23])
       then Ascii.eqb a (Ascii.ascii_of_nat 45)
       else is_hex a)
      && uuid_shape (S i) s'
  end.

Definition UUID_validateString (v : JsValue) : bool :=
  match v with
  | JStr s => uuid_shape 0 s
  | _ => false
  end.

Definition show (v : JsValue) : string :=
  match v with
  | JUndefined => "undefined"
  | JNull => "null"
  | JBool true => "true"
  | JBool false => "false"
  | JNum n => pretty n
  | JStr s => s
  | JArr _ => "[..]"
  | JObj _ => "{..}"
  end.

(** A stand-in for [JSON.stringify]: one level deep, unquoted. *)
Definition JSON_stringify (v : JsValue) : string :=
  match v with
  | JObj o =>
      "{" +:+
      fold_right (λ '(k, x) acc, k +:+ ":" +:+ show x +:+ ";" +:+ acc)
        EmptyString (map_to_list o)
      +:+ "}"
  | _ => show v
  end.

(** The broker refuses values above 400 bytes on the events topic. *)
Definition produce (topic : Topic) (key : JsValue) (value : string) : Promise :=
  if bool_decide (topic = CLICKHOUSE_JSON_EVENTS_KAFKA_TOPIC)
     && (400 <? String.length value)
  then Rejected MessageSizeTooLarge
  else Resolved.

Definition person_anonymous : Person :=
  Person.mk "018f0000-0000-7000-8000-00000000000a" 0%Z ∅ false.

Definition person_known : Person :=
  Person.mk "018f0000-0000-7000-8000-00000000000b" 0%Z
    (<["plan" := JStr "free"]> (<["email" := JStr "a@example.com"]> ∅)) false.

(** With person processing off, a distinct id seen before comes back as the
    existing person, stripped of properties and flagged for upgrade. *)
Definition PersonState_update (e : PluginEvent) (team_id : Z)
    (distinct_id : string) (ts : option DateTime) (processPerson : bool)
  : Result (Person * Promise) :=
  if processPerson then Ok (person_known, Resolved)
  else if String.eqb distinct_id "returning-user" then
    Ok (Person.mk (Person.uuid person_known) 0%Z ∅ true, Resolved)
  else Ok (person_anonymous, Resolved).

Definition normalizeProcessPerson (e : PluginEvent) (processPerson : bool)
  : PluginEvent :=
  if processPerson then e
  else
    PluginEvent.with_properties e
      (delete "$set" (delete "$set_once" (delete "$unset"
         (PluginEvent.properties e)))).

Definition extractHeatmapData (e : PluginEvent)
  : Result (option (list JsValue)) :=
  match PluginEvent.properties e !! "$heatmap_data" with
  | None => Ok None
  | Some (JArr l) => Ok (Some l)
  | Some _ => Throw (OtherError "invalid heatmap data")
  end.

Definition deps : Deps.t :=
  {| Deps.fetchTeam := fetchTeam;
     Deps.getTeamByToken := getTeamByToken;
     Deps.setTeamIngestedEvent := λ _ _, Resolved;
     Deps.eventsToSkipPersonsProcessingByToken :=
       {[ "phc_open" := ["skipped-user"] ]};
     Deps.produce := produce;
     Deps.queueMessages := λ _ _, Resolved;
     Deps.cookielessProcessEvent := λ e, Ok (Some e);
     Deps.transformEventAndProduceMessages := λ e, Ok (Some e);
     Deps.PersonState_update := PersonState_update;
     Deps.MAX_GROUP_TYPES_PER_TEAM := 5;
     Deps.fetchGroupTypeIndex := λ _ _ _, Ok None;
     Deps.upsertGroup := λ _ _ _ _ _ _, Ok ();
     Deps.captureIngestionWarning := λ _ _ _, Ok ();
     Deps.sanitizeString := sanitizeString;
     Deps.sanitizeEventName := λ s, s;
     Deps.safeClickhouseString := λ s, s;
     Deps.UUID_validateString := UUID_validateString;
     Deps.castTimestampOrNow := λ t _,
       match t with Some t => pretty t | None => "now" end;
     Deps.normalizeEvent := λ e, e;
     Deps.normalizeProcessPerson := normalizeProcessPerson;
     Deps.parseEventTimestamp := λ _, 1700000000000%Z;
     Deps.processAiEvent := λ e, Ok e;
     Deps.extractHeatmapData := extractHeatmapData;
     Deps.getElementsChain := λ _, Ok EmptyString;
     Deps.JSON_stringify := JSON_stringify |}.

Definition valid_uuid : JsValue :=
  JStr "018f0000-0000-7000-8000-000000000001".

(** An event of the given name, distinct id, uuid and properties, sent with
    the token of the given team. *)
Definition event_for (token : string) (name distinct_id : string)
    (uuid : JsValue) (properties : Props) : PipelineEvent :=
  PipelineEvent.mk (Some token) None uuid name distinct_id None None None
    (Some properties).

(** The events the examples run. *)

Definition null_token_event : PipelineEvent :=
  event_for ("phc_" +:+ String (Ascii.ascii_of_nat 0) "open")
    "$pageview" "d1" valid_uuid ∅.

Definition client_warning_event : PipelineEvent :=
  event_for "phc_open" "$$client_ingestion_warning" "d1" (JStr "not-a-uuid")
    {[ "$$client_ingestion_warning_message" := JStr "sdk misconfigured" ]}.

Definition client_warning_bad_uuid_event : PipelineEvent :=
  event_for "phc_open" "$$client_ingestion_warning" "d2" (JNum 7)
    {[ "$$client_ingestion_warning_message" := JStr "sdk misconfigured" ]}.

Definition bad_uuid_event : PipelineEvent :=
  event_for "phc_open" "$pageview" "d1" (JStr "not-a-uuid") ∅.

Definition opted_out_identify_event : PipelineEvent :=
  event_for "phc_optout" "$identify" "d1" valid_uuid
    {[ "$process_person_profile" := JBool true ]}.

Definition opted_out_identify_bad_uuid_event : PipelineEvent :=
  event_for "phc_optout" "$identify" "d1" (JStr "not-a-uuid") ∅.

Definition odd_profile_event : PipelineEvent :=
  event_for "phc_open" "$pageview" "d1" valid_uuid
    {[ "$process_person_profile" := JStr "yes" ]}.

Definition odd_profile_event_2 : PipelineEvent :=
  event_for "phc_open" "$pageview" "d3" valid_uuid
    {[ "$process_person_profile" := JNum 1 ]}.

Definition heatmap_event : PipelineEvent :=
  event_for "phc_open" "$$heatmap" "d1" valid_uuid
    {[ "$heatmap_data" := JArr [JStr "click@10,20"; JStr "click@30,40"] ]}.

Definition returning_user_event : PipelineEvent :=
  event_for "phc_open" "$pageview" "returning-user" valid_uuid
    (<["$process_person_profile" := JBool false]>
       (<["$group_0" := JStr "acme"]> ∅)).

(** A runner about to assemble its record: team and person are known. *)
Definition at_assembly (name distinct_id : string) (properties : Props)
    (processPerson : bool) (p : Person) : Runner :=
  {| originalEvent := event_for "phc_open" name distinct_id valid_uuid properties;
     team := Some team_open;
     promises := [];
     event :=
       PluginEvent.mk (Some "phc_open") 2 valid_uuid name distinct_id
         None None None properties;
     shouldProcessPerson := processPerson;
     timestamp := Some 1700000000000%Z;
     person := Some p;
     trace := [] |}.

Definition propertyless_state : Runner :=
  at_assembly "$pageview" "d1"
    (<["$group_0" := JStr "acme"]> (<["$browser" := JStr "firefox"]> ∅))
    false person_anonymous.

Definition force_upgrade_state : Runner :=
  at_assembly "$pageview" "returning-user"
    (<["$group_0" := JStr "acme"]> ∅)
    false (Person.mk (Person.uuid person_known) 0%Z ∅ true).

Definition set_state : Runner :=
  at_assembly "$pageview" "d1"
    {[ "$set" := JObj {[ "plan" := JStr "pro" ]} ]}
    true person_known.

Definition exception_state : Runner :=
  at_assembly "$exception" "d1"
    {[ "$exception_message" := JStr "boom" ]} true person_known.

(** An [$exception] whose properties carry a key named [hasOwnProperty]. *)
Definition shadowed_exception_state : Runner :=
  at_assembly "$exception" "d1"
    {[ "hasOwnProperty" := JNum 1 ]} true person_known.

Definition shadowed_exception_event : PipelineEvent :=
  event_for "phc_open" "$exception" "d1" valid_uuid
    {[ "hasOwnProperty" := JNum 1 ]}.

(** A client ingestion warning for the team that opted out. *)
Definition opted_out_client_warning_event : PipelineEvent :=
  event_for "phc_optout" "$$client_ingestion_warning" "d1" valid_uuid
    {[ "$process_person_profile" := JBool true ]}.

(** An event whose uuid is an object that cannot be converted to a string. *)
Definition unprintable_uuid_event : PipelineEvent :=
  event_for "phc_open" "$pageview" "d1" (JObj {[ "toString" := JNum 1 ]}) ∅.

(** A pageview whose enriched record is above the broker's limit. *)
Definition oversized_event : PipelineEvent :=
  event_for "phc_open" "$pageview" "d1" valid_uuid
    {[ "padding" :=
         JStr (String.concat EmptyString (replicate 60 "padding;")) ]}.

(** A record whose serialization is above the broker's limit. *)
Definition oversized_record : RawKafkaEvent :=
  RawKafkaEvent.mk valid_uuid "$pageview"
    ("{" +:+ String.concat EmptyString (replicate 60 "padding;") +:+ "}")
    "1700000000000" 2 1 "d1" EmptyString "now"
    (Person.uuid person_known) "{}" "0" full.

End Fixture.

(** ** Further observations of a run *)

(** [error instanceof EventDroppedError] *)
Definition instanceof_EventDroppedError (error : JsError) : bool :=
  match error with
  | EventDroppedError _ _ _ _ => true
  | _ => false
  end.

(** [event === '$ai_generation' || event === '$ai_embedding'] *)
Definition is_ai_event (name : string) : bool :=
  bool_decide (name = "$ai_generation") || bool_decide (name = "$ai_embedding").

(** The calls a trace makes into group processing, oldest first, and the
    group upserts among them. *)
Definition group_calls (tr : list Effect) : list Effect :=
  omap (λ e,
    match e with
    | FetchGroupTypeIndex _ _ _ | UpsertGroup _ _ _ _ _ => Some e
    | _ => None
    end) tr.

Definition group_upserts (tr : list Effect) : list Effect :=
  omap (λ e,
    match e with
    | UpsertGroup _ _ _ _ _ => Some e
    | _ => None
    end) tr.

(** The groups of an event as [processGroups] walks them:
    [Object.entries(properties.$groups || {})]. *)
Definition event_groups (p : Props) : Props :=
  own_enumerable (js_or (prop_read p "$groups") (JObj ∅)).

(** The column index the group type manager gives a group type, when the
    lookup succeeds and the type has one. *)
Definition group_type_index (c : Deps.t) (t : Team) (groupType : JsValue)
  : option Z :=
  match Deps.fetchGroupTypeIndex c (Team.id t) (Team.project_id t) groupType with
  | Ok columnIndex => columnIndex
  | Throw _ => None
  end.

(** The property bag once the loop of [processGroups] has written the
    [$group_<index>] keys of the given groups, and the lookups the loop
    makes. *)
Definition assign_groups (c : Deps.t) (t : Team)
    (groups : list (string * JsValue)) (p : Props) : Props :=
  foldl (λ p '(groupType, groupIdentifier),
           match group_type_index c t (JStr groupType) with
           | Some columnIndex => <[group_key columnIndex := groupIdentifier]> p
           | None => p
           end) p groups.

Definition group_lookups (t : Team) (groups : list (string * JsValue))
  : list Effect :=
  map (λ '(groupType, _),
         FetchGroupTypeIndex (Team.id t) (Team.project_id t) (JStr groupType))
      groups.

(** The runner after the loop of [processGroups]. *)
Definition after_group_columns (c : Deps.t) (t : Team) (st : Runner) : Runner :=
  let groups :=
    map_to_list (event_groups (PluginEvent.properties (event st))) in
  set_properties
    (assign_groups c t groups (PluginEvent.properties (event st)))
    (set_trace (trace st ++ group_lookups t groups) st).

(** Every lookup the loop of [processGroups] makes for an event returns. *)
Definition group_lookups_return (c : Deps.t) (t : Team) (p : Props) : Prop :=
  ∀ groupType, is_Some (event_groups p !! groupType) →
    ∃ columnIndex,
      Deps.fetchGroupTypeIndex c (Team.id t) (Team.project_id t)
        (JStr groupType) = Ok columnIndex.

(** The upsert [processGroups] makes for a [$groupidentify] with the given
    properties, if it makes one. *)
Definition groupidentify_upsert (c : Deps.t) (t : Team) (p : Props)
  : list Effect :=
  if truthy (prop_read p "$group_type") && truthy (prop_read p "$group_key")
  then
    match group_type_index c t (prop_read p "$group_type"),
          toString (prop_read p "$group_key") with
    | Some groupTypeIndex, Ok key =>
        [UpsertGroup (Team.id t) (Team.project_id t) groupTypeIndex key
           (js_or (prop_read p "$group_set") (JObj ∅))]
    | _, _ => []
    end
  else [].

(** A step that, when it starts with person processing disabled, leaves it
    disabled and makes no call into group processing. *)
Definition stays_without_groups (st st' : Runner) : Prop :=
  shouldProcessPerson st = false →
  shouldProcessPerson st' = false
  ∧ group_calls (trace st') = group_calls (trace st).

(** The effects that are neither a produced record, nor an update of the
    person store, nor a report of a first ingestion. *)
Definition no_record_update_or_report (x : Effect) : Prop :=
  match x with
  | Produce _ _ _ | PersonStateUpdate _ _ | SetTeamIngestedEvent _ _ => False
  | _ => True
  end.

(** The error is the one the awaited call the trace ends with threw: a call
    of the team manager, the cookieless manager, the transformer, the person
    state or the group helpers, with the arguments the trace records. *)
Definition thrown_by_collaborator (c : Deps.t) (error : JsError) (st : Runner)
  : Prop :=
  match last (trace st) with
  | Some (FetchTeam team_id) => Deps.fetchTeam c team_id = Throw error
  | Some (GetTeamByToken token) => Deps.getTeamByToken c token = Throw error
  | Some (CookielessProcessEvent e) =>
      Deps.cookielessProcessEvent c e = Throw error
  | Some (TransformEvent e) =>
      Deps.transformEventAndProduceMessages c e = Throw error
  | Some (PersonStateUpdate e processPerson) =>
      Deps.PersonState_update c e (PluginEvent.team_id e)
        (PluginEvent.distinct_id e) (timestamp st) processPerson
      = Throw error
  | Some (FetchGroupTypeIndex team_id project_id groupType) =>
      Deps.fetchGroupTypeIndex c team_id project_id groupType = Throw error
  | Some (UpsertGroup team_id project_id groupTypeIndex groupKey
            groupPropertiesToSet) =>
      Deps.upsertGroup c team_id project_id groupTypeIndex groupKey
        groupPropertiesToSet (timestamp st)
      = Throw error
  | _ => False
  end.

(** The errors the two validations raise for an event: its uuid does not
    parse, or it is a person event while person processing is disabled. *)
Definition validation_error (c : Deps.t) (e : PipelineEvent) (error : JsError)
  : Prop :=
  (Deps.UUID_validateString c (PipelineEvent.uuid e) = false
   ∧ ∃ uuid,
       ToString (PipelineEvent.uuid e) = Ok uuid
       ∧ error = EventDroppedError "invalid_event_uuid"
                   ("Not a valid UUID: " +:+ dquote +:+ uuid +:+ dquote)
                   false None)
  ∨ (PipelineEvent.event e ∈ person_events
     ∧ error = invalid_person_event_error (PipelineEvent.event e)).

(** The errors of the built-ins the runner applies to event data: the
    conversion of a uuid that does not parse, [toString] called on the
    [$group_key] of a [$groupidentify], [hasOwnProperty] called on the
    properties of an [$exception]. *)
Definition thrown_by_uuid (c : Deps.t) (e : PipelineEvent) (error : JsError)
  : Prop :=
  Deps.UUID_validateString c (PipelineEvent.uuid e) = false
  ∧ ToString (PipelineEvent.uuid e) = Throw error.

Definition thrown_by_group_key (error : JsError) (st : Runner) : Prop :=
  PluginEvent.event (event st) = "$groupidentify"
  ∧ toString (prop_read (PluginEvent.properties (event st)) "$group_key")
    = Throw error.

Definition thrown_by_hasOwnProperty (error : JsError) (st : Runner) : Prop :=
  PluginEvent.event (event st) = "$exception"
  ∧ hasOwnProperty (PluginEvent.properties (event st)) "$sentry_event_id"
    = Throw error.

(** The errors [_run] may end with for an event, given the runner it
    leaves. *)
Definition expected_error (c : Deps.t) (e : PipelineEvent) (error : JsError)
    (st : Runner) : Prop :=
  validation_error c e error
  ∨ thrown_by_uuid c e error
  ∨ thrown_by_collaborator c error st
  ∨ thrown_by_group_key error st
  ∨ thrown_by_hasOwnProperty error st.

(** No enriched record was produced yet. *)
Definition nothing_enriched (st : Runner) : Prop :=
  produced_to CLICKHOUSE_JSON_EVENTS_KAFKA_TOPIC (trace st) = []
  ∧ produced_to EXCEPTIONS_SYMBOLIFICATION_KAFKA_TOPIC (trace st) = [].

(** The updates of the person store a trace makes, oldest first. *)
Definition person_updates (tr : list Effect) : list Effect :=
  omap (λ e,
    match e with
    | PersonStateUpdate _ _ => Some e
    | _ => None
    end) tr.

(** The person store was updated at most once, and then with the runner's
    decision on person processing. *)
Definition person_updated_once (st : Runner) : Prop :=
  person_updates (trace st) = []
  ∨ ∃ e, person_updates (trace st)
         = [PersonStateUpdate e (shouldProcessPerson st)].

(** The reports of a team's first ingested event a trace makes, oldest
    first. *)
Definition ingestion_reports (tr : list Effect) : list Effect :=
  omap (λ e,
    match e with
    | SetTeamIngestedEvent _ _ => Some e
    | _ => None
    end) tr.

(** The first ingestion of the team [t] was reported exactly when an
    enriched record was produced: either there is neither a report nor a
    record, or there is one report, for [t], and one record. *)
Definition reported_with_record (t : Team) (st : Runner) : Prop :=
  (ingestion_reports (trace st) = [] ∧ nothing_enriched st)
  ∨ (∃ properties,
       ingestion_reports (trace st) = [SetTeamIngestedEvent t properties])
    ∧ length
        (produced_to CLICKHOUSE_JSON_EVENTS_KAFKA_TOPIC (trace st)
         ++ produced_to EXCEPTIONS_SYMBOLIFICATION_KAFKA_TOPIC (trace st))
      = 1.

(** The first ingestion of the team [t] was reported and no enriched
    record followed, because routing the record threw. *)
Definition reported_without_record (t : Team) (r : Result unit) (st : Runner)
  : Prop :=
  (∃ properties,
     ingestion_reports (trace st) = [SetTeamIngestedEvent t properties])
  ∧ nothing_enriched st
  ∧ ∃ error, r = Throw error ∧ thrown_by_hasOwnProperty error st.

(** The runner between team resolution and assembly.  From validation on the
    team is the resolved one, no enriched record was produced, the person
    store was not updated and no first ingestion was reported.  From
    [processPerson] on the person is known and the store was updated once;
    from [trackFirstEventIngestion] on the first ingestion is reported.
    Team and person are the fields the runner reads with a non-null
    assertion ([this.team!], [this.person!]). *)
Definition resolved (t : Team) (st : Runner) : Prop :=
  team st = Some t
  ∧ nothing_enriched st
  ∧ person_updates (trace st) = []
  ∧ ingestion_reports (trace st) = [].

Definition enrichable (t : Team) (st : Runner) : Prop :=
  team st = Some t
  ∧ nothing_enriched st
  ∧ is_Some (person st)
  ∧ (∃ e, person_updates (trace st)
          = [PersonStateUpdate e (shouldProcessPerson st)])
  ∧ ingestion_reports (trace st) = [].

Definition tracked (t : Team) (st : Runner) : Prop :=
  team st = Some t
  ∧ nothing_enriched st
  ∧ is_Some (person st)
  ∧ (∃ e, person_updates (trace st)
          = [PersonStateUpdate e (shouldProcessPerson st)])
  ∧ ∃ properties,
      ingestion_reports (trace st) = [SetTeamIngestedEvent t properties].

(** Every enriched record in the trace is a record of the team [t]. *)
Definition carries_team (c : Deps.t) (t : Team) (st : Runner) : Prop :=
  ∀ m,
    m ∈ produced_to CLICKHOUSE_JSON_EVENTS_KAFKA_TOPIC (trace st)
        ++ produced_to EXCEPTIONS_SYMBOLIFICATION_KAFKA_TOPIC (trace st) →
    ∃ r, m = record_message c r
         ∧ RawKafkaEvent.team_id r = Team.id t
         ∧ RawKafkaEvent.project_id r = Team.project_id t.

(** The way the processing of a validated event may end: normally; with
    the error of a collaborator or of [$group_key.toString()], before any
    enriched record is produced and any first ingestion reported; or with
    the error of [hasOwnProperty], after the first ingestion is reported and
    before the record is produced. *)
Definition settled (c : Deps.t) (t : Team) (st : Runner) : Prop :=
  carries_team c t st
  ∧ person_updated_once st
  ∧ reported_with_record t st.

Definition fails_early (c : Deps.t) (error : JsError) (st : Runner) : Prop :=
  (thrown_by_collaborator c error st ∨ thrown_by_group_key error st)
  ∧ nothing_enriched st
  ∧ person_updated_once st
  ∧ ingestion_reports (trace st) = [].

Definition fails_at_routing (t : Team) (error : JsError) (st : Runner)
  : Prop :=
  thrown_by_hasOwnProperty error st
  ∧ nothing_enriched st
  ∧ person_updated_once st
  ∧ ∃ properties,
      ingestion_reports (trace st) = [SetTeamIngestedEvent t properties].

Definition fails (c : Deps.t) (t : Team) (error : JsError) (st : Runner)
  : Prop :=
  fails_early c error st ∨ fails_at_routing t error st.

(** A computation started in a state that satisfies [P]: if it returns, the
    result and the state satisfy [Q]; if it throws, the error and the state
    satisfy [E]. *)
Definition triple {A} (P : Runner → Prop) (m : M A)
    (Q : A → Runner → Prop) (E : JsError → Runner → Prop) : Prop :=
  ∀ st, P st →
    match m st with
    | (Ok a, st') => Q a st'
    | (Throw e, st') => E e st'
    end.

(** ** A deployment under stress

    A second instance of the collaborators, where things go wrong: the team
    store is unreachable for one id, the broker refuses ingestion warnings
    and exception records, the cookieless manager and the transformer drop
    some events, and element chains may be malformed. *)
Module Outage.

(** A team that anonymizes IPs and has opted out of heatmaps. *)
Definition team_private : Team :=
  Team.mk 4 1 true (Some false) (Some false).

Definition fetchTeam (id : Z) : Result (option Team) :=
  if (id =? 4)%Z then Ok (Some team_private)
  else if (id =? 500)%Z then Throw (OtherError "connection refused")
  else Fixture.fetchTeam id.

Definition getTeamByToken (token : string) : Result (option Team) :=
  if String.eqb token "phc_private" then Ok (Some team_private)
  else Fixture.getTeamByToken token.

Definition produce (topic : Topic) (key : JsValue) (value : string) : Promise :=
  match topic with
  | EXCEPTIONS_SYMBOLIFICATION_KAFKA_TOPIC => Rejected MessageSizeTooLarge
  | _ => Resolved
  end.

Definition cookielessProcessEvent (e : PluginEvent)
  : Result (option PluginEvent) :=
  if String.eqb (PluginEvent.distinct_id e) "cookieless-blocked" then Ok None
  else Ok (Some e).

Definition transformEventAndProduceMessages (e : PluginEvent)
  : Result (option PluginEvent) :=
  if String.eqb (PluginEvent.event e) "$filtered_out" then Ok None
  else Ok (Some e).

Definition getElementsChain (p : Props) : Result string :=
  match p !! "$elements" with
  | None | Some (JArr _) => Ok EmptyString
  | Some _ => Throw (TypeError "elements is not iterable")
  end.

Definition fetchGroupTypeIndex (team_id project_id : Z) (groupType : JsValue)
  : Result (option Z) :=
  match groupType with
  | JStr s =>
      if String.eqb s "organization" then Ok (Some 0%Z)
      else if String.eqb s "project" then Ok (Some 1%Z)
      else Ok None
  | _ => Ok None
  end.

Definition deps : Deps.t :=
  {| Deps.fetchTeam := fetchTeam;
     Deps.getTeamByToken := getTeamByToken;
     Deps.setTeamIngestedEvent := λ _ _, Resolved;
     Deps.eventsToSkipPersonsProcessingByToken :=
       {[ "phc_open" := ["skipped-user"] ]};
     Deps.produce := produce;
     Deps.queueMessages := λ _ _, Rejected (OtherError "broker unavailable");
     Deps.cookielessProcessEvent := cookielessProcessEvent;
     Deps.transformEventAndProduceMessages := transformEventAndProduceMessages;
     Deps.PersonState_update := Fixture.PersonState_update;
     Deps.MAX_GROUP_TYPES_PER_TEAM := 5;
     Deps.fetchGroupTypeIndex := fetchGroupTypeIndex;
     Deps.upsertGroup := λ _ _ _ _ _ _, Ok ();
     Deps.captureIngestionWarning := λ _ _ _, Ok ();
     Deps.sanitizeString := Fixture.sanitizeString;
     Deps.sanitizeEventName := λ s, s;
     Deps.safeClickhouseString := λ s, s;
     Deps.UUID_validateString := Fixture.UUID_validateString;
     Deps.castTimestampOrNow := λ t _,
       match t with Some t => pretty t | None => "now" end;
     Deps.normalizeEvent := λ e, e;
     Deps.normalizeProcessPerson := Fixture.normalizeProcessPerson;
     Deps.parseEventTimestamp := λ _, 1700000000000%Z;
     Deps.processAiEvent := λ e, Ok e;
     Deps.extractHeatmapData := Fixture.extractHeatmapData;
     Deps.getElementsChain := getElementsChain;
     Deps.JSON_stringify := Fixture.JSON_stringify |}.

(** An event that names a team id the store does not know and carries the
    token of a team it does know. *)
Definition unknown_id_known_token_event : PipelineEvent :=
  PipelineEvent.mk (Some "phc_open") (Some 99%Z) Fixture.valid_uuid
    "$pageview" "d1" None None None (Some ∅).

(** An event for the team id the store cannot be reached for. *)
Definition unreachable_team_event : PipelineEvent :=
  PipelineEvent.mk (Some "phc_open") (Some 500%Z) Fixture.valid_uuid
    "$pageview" "d1" None None None (Some ∅).

Definition skipped_user_event : PipelineEvent :=
  Fixture.event_for "phc_open" "$pageview" "skipped-user" Fixture.valid_uuid
    {[ "$process_person_profile" := JBool true ]}.

Definition cookieless_blocked_event : PipelineEvent :=
  Fixture.event_for "phc_open" "$pageview" "cookieless-blocked"
    Fixture.valid_uuid ∅.

Definition filtered_out_event : PipelineEvent :=
  Fixture.event_for "phc_open" "$filtered_out" "d1" Fixture.valid_uuid ∅.

(** An event with groups whose sender asked for no person processing. *)
Definition anonymous_group_event : PipelineEvent :=
  Fixture.event_for "phc_open" "$pageview" "d1" Fixture.valid_uuid
    (<["$process_person_profile" := JBool false]>
       {[ "$groups" := JObj {[ "organization" := JStr "acme" ]} ]}).

(** A runner in the middle of a run for the given team. *)
Definition in_flight (t : Team) (name : string) (uuid : JsValue)
    (properties : Props) (processPerson : bool) (p : option Person) : Runner :=
  {| originalEvent :=
       Fixture.event_for "phc_private" name "d1" uuid properties;
     team := Some t;
     promises := [];
     event :=
       PluginEvent.mk (Some "phc_private") (Team.id t) uuid name "d1"
         None None None properties;
     shouldProcessPerson := processPerson;
     timestamp := Some 1700000000000%Z;
     person := p;
     trace := [] |}.

Definition ip_state : Runner :=
  in_flight team_private "$pageview" Fixture.valid_uuid
    (<["$ip" := JStr "203.0.113.7"]> {[ "$browser" := JStr "firefox" ]})
    true (Some Fixture.person_known).

Definition high_group_state : Runner :=
  in_flight team_private "$pageview" Fixture.valid_uuid
    (<["$group_7" := JStr "acme"]> {[ "$group_1" := JStr "apollo" ]})
    false (Some Fixture.person_anonymous).

Definition bad_elements_state : Runner :=
  in_flight team_private "$autocapture" Fixture.valid_uuid
    {[ "$elements" := JStr "<div>" ]} true (Some Fixture.person_known).

Definition opted_out_heatmap_state : Runner :=
  in_flight team_private "$pageview" Fixture.valid_uuid
    {[ "$heatmap_data" := JStr "garbage" ]} true None.

Definition bad_heatmap_state : Runner :=
  in_flight Fixture.team_open "$pageview" (JNum 7)
    {[ "$heatmap_data" := JStr "garbage" ]} true None.

Definition rejected_exception_state : Runner :=
  in_flight team_private "$exception" Fixture.valid_uuid
    {[ "$exception_message" := JStr "boom" ]} true (Some Fixture.person_known).

Definition sentry_pageview_state : Runner :=
  in_flight team_private "$pageview" Fixture.valid_uuid
    {[ "$sentry_event_id" := JStr "3f2a" ]} true (Some Fixture.person_known).

Definition groups_state : Runner :=
  in_flight team_private "$pageview" Fixture.valid_uuid
    {[ "$groups" :=
         JObj (<["organization" := JStr "acme"]>
                 {[ "department" := JStr "sales" ]}) ]}
    true (Some Fixture.person_known).

Definition groupidentify_state : Runner :=
  in_flight team_private "$groupidentify" Fixture.valid_uuid
    (<["$group_type" := JStr "organization"]>
       (<["$group_key" := JNum 42]> ∅))
    true (Some Fixture.person_known).

(** A [$groupidentify] whose key is an object that has no callable
    [toString]. *)
Definition unprintable_key_state : Runner :=
  in_flight team_private "$groupidentify" Fixture.valid_uuid
    (<["$group_type" := JStr "organization"]>
       (<["$group_key" := JObj {[ "toString" := JNum 1 ]}]> ∅))
    true (Some Fixture.person_known).

End Outage.

(** * Properties *)

(** ** Running the monad *)

(** Unfolds the monad's plumbing and the field updates, and nothing of the
    property bags. *)
Ltac exec :=
  cbv beta iota zeta delta
    [mbind M_bind mret M_ret throw get modify try_catch perform perform_all
     push_promise push_promises call nonnull promise_catch];
  cbn beta iota zeta delta
    [set_team set_promises set_event set_shouldProcessPerson set_timestamp
     set_person set_trace set_properties
     originalEvent team promises event shouldProcessPerson timestamp person
     trace fst snd].

Lemma bind_run {A B} (m : M A) (f : A → M B) (st : Runner) :
  (m ≫= f) st =
    match m st with
    | (Ok a, st') => f a st'
    | (Throw e, st') => (Throw e, st')
    end.
Proof. reflexivity. Qed.

Lemma getTeam_run (c : Deps.t) (st : Runner) :
  getTeam c st =
    (team_resolution c (originalEvent st),
     set_trace (trace st ++ team_lookups c (originalEvent st)) st).
Proof.
  unfold getTeam, team_resolution, team_lookups.
  destruct st as [oe t ps e spp ts p tr]. exec.
  destruct (truthy_number (PipelineEvent.team_id oe)).
  - destruct (Deps.fetchTeam c _); reflexivity.
  - destruct (truthy_string (PipelineEvent.token oe)).
    + destruct (Deps.getTeamByToken c _); reflexivity.
    + rewrite app_nil_r. reflexivity.
Qed.

Lemma captureIngestionWarning_run (c : Deps.t) (w : string) (d : Props)
    (st : Runner) :
  captureIngestionWarning c w d st = (Ok (), after_warning c w d st).
Proof.
  unfold captureIngestionWarning, after_warning, warning_effects,
    warning_message.
  destruct st as [oe t ps e spp ts p tr]. exec.
  destruct (Deps.queueMessages c _ _); exec; unfold warning_failure_log;
    rewrite <- ?app_assoc; reflexivity.
Qed.

(** The message of a warning, written out: the record of lines 92-98 with
    the details of lines 79-84 in it. *)
Lemma warning_message_explicit (c : Deps.t) (st : Runner) (w : string)
    (d : Props) :
  warning_message c st w d
  = Deps.JSON_stringify c (JObj (list_to_map
      [ ("team_id",
          match team st with
          | Some t => JNum (Team.id t)
          | None => JUndefined
          end);
        ("type", JStr w);
        ("source", JStr "plugin-server");
        ("details",
          JStr (Deps.JSON_stringify c (JObj
            (d ∪ <["eventUuid" :=
                     match PluginEvent.uuid (event st) with
                     | JStr s => JStr s
                     | JUndefined => JUndefined
                     | other => JStr (Deps.JSON_stringify c other)
                     end]>
                   (<["event" := JStr (PluginEvent.event (event st))]>
                      (<["distinctId" :=
                           JStr (PluginEvent.distinct_id (event st))]> ∅))))));
        ("timestamp", JStr (Deps.castTimestampOrNow c None ClickHouse)) ])).
Proof.
  unfold warning_message, ingestion_warning_value, spread,
    warning_base_details, team_id_or_undefined.
  destruct (team st), (PluginEvent.uuid (event st)); reflexivity.
Qed.

Lemma team_resolution_unresolved (c : Deps.t) (e : PipelineEvent) :
  team_id_unresolved c e → token_unresolved c e →
  team_resolution c e = Ok None.
Proof.
  unfold team_id_unresolved, token_unresolved, team_resolution.
  intros Hid Htok.
  destruct (truthy_number _); [auto |].
  destruct (truthy_string _); auto.
Qed.

(** ** Observations of the traces the runner leaves *)

Lemma produced_to_app topic tr1 tr2 :
  produced_to topic (tr1 ++ tr2) = produced_to topic tr1 ++ produced_to topic tr2.
Proof. apply omap_app. Qed.

Lemma produced_to_cons topic x tr :
  produced_to topic (x :: tr) = produced_to topic [x] ++ produced_to topic tr.
Proof. exact (produced_to_app topic [x] tr). Qed.

Lemma queued_on_app topic tr1 tr2 :
  queued_on topic (tr1 ++ tr2) = queued_on topic tr1 ++ queued_on topic tr2.
Proof. apply omap_app. Qed.

Lemma drop_causes_app tr1 tr2 :
  drop_causes (tr1 ++ tr2) = drop_causes tr1 ++ drop_causes tr2.
Proof. apply omap_app. Qed.

Lemma team_lookups_cases (c : Deps.t) (e : PipelineEvent) :
  team_lookups c e = []
  ∨ (∃ id, team_lookups c e = [FetchTeam id])
  ∨ (∃ raw, PipelineEvent.token e = Some raw
            ∧ team_lookups c e = [GetTeamByToken (Deps.sanitizeString c raw)]).
Proof.
  unfold team_lookups.
  destruct (truthy_number _); [right; left; eauto |].
  destruct (PipelineEvent.token e) as [raw |] eqn:Htok; simpl.
  - destruct (negb _); [right; right; eauto | left; reflexivity].
  - left; reflexivity.
Qed.

Lemma team_lookups_quiet (c : Deps.t) (e : PipelineEvent) :
  (∀ topic, produced_to topic (team_lookups c e) = [])
  ∧ (∀ topic, queued_on topic (team_lookups c e) = [])
  ∧ drop_causes (team_lookups c e) = []
  ∧ forallb (λ x, negb (is_identity_processing x)) (team_lookups c e) = true.
Proof.
  destruct (team_lookups_cases c e) as [-> | [[id ->] | (raw & _ & ->)]];
    repeat split; reflexivity.
Qed.

Lemma warning_effects_quiet (c : Deps.t) st w d :
  (∀ topic, produced_to topic (warning_effects c st w d) = [])
  ∧ queued_on KAFKA_INGESTION_WARNINGS (warning_effects c st w d)
    = [warning_message c st w d]
  ∧ drop_causes (warning_effects c st w d) = []
  ∧ forallb (λ x, negb (is_identity_processing x)) (warning_effects c st w d)
    = true.
Proof.
  unfold warning_effects.
  destruct (Deps.queueMessages c _ _); repeat split; reflexivity.
Qed.

(** ** Team resolution *)

(** C4. An event for which neither the team id nor the token finds a team
    (both absent included) is dropped with counter cause [invalid_token]: the
    run returns normally, counts that one drop and does nothing else (no
    promise is collected, no field of the runner changes).  The only token the
    team manager is ever asked about is the sanitized one. *)
Theorem C4_unresolved_team_is_dropped (c : Deps.t) (e : PipelineEvent) :
  team_id_unresolved c e → token_unresolved c e →
  let st := new_EventPipelineRunnerV2 e in
  run c st =
    (Ok (),
     set_trace
       (team_lookups c e ++ [EventDroppedCounterInc "analytics" "invalid_token"])
       st)
  ∧ drop_causes (trace (snd (run c st))) = ["invalid_token"]
  ∧ promises (snd (run c st)) = []
  ∧ (∀ token, GetTeamByToken token ∈ trace (snd (run c st)) →
       ∃ raw, PipelineEvent.token e = Some raw
              ∧ token = Deps.sanitizeString c raw).
Proof.
  intros Hid Htok st.
  assert (Hrun : run c st =
    (Ok (),
     set_trace
       (team_lookups c e ++ [EventDroppedCounterInc "analytics" "invalid_token"])
       st)).
  { unfold run, try_catch, _run. rewrite bind_run, getTeam_run.
    change (originalEvent st) with e.
    rewrite (team_resolution_unresolved c e Hid Htok).
    unfold dropEvent. exec. reflexivity. }
  rewrite Hrun. split; [reflexivity |]. simpl.
  destruct (team_lookups_quiet c e) as (_ & _ & Hdrop & _).
  split; [| split].
  - rewrite drop_causes_app, Hdrop. reflexivity.
  - reflexivity.
  - intros token Hin. apply elem_of_app in Hin as [Hin | Hin].
    + destruct (team_lookups_cases c e) as [H | [[id H] | (raw & Hraw & H)]];
        rewrite H in Hin.
      * inversion Hin.
      * apply list_elem_of_singleton in Hin. discriminate.
      * apply list_elem_of_singleton in Hin. injection Hin as ->. eauto.
    + apply list_elem_of_singleton in Hin. discriminate.
Qed.

Lemma with_resolved_team_trace (c : Deps.t) (e : PipelineEvent) (t : Team) :
  trace (with_resolved_team c e t) = team_lookups c e.
Proof. reflexivity. Qed.

Lemma after_warning_observed (c : Deps.t) (e : PipelineEvent) (t : Team)
    (st : Runner) w d :
  trace st = team_lookups c e →
  promises st = [] →
  let st' := after_warning c w d st in
  queued_on KAFKA_INGESTION_WARNINGS (trace st') = [warning_message c st w d]
  ∧ (∀ topic, produced_to topic (trace st') = [])
  ∧ drop_causes (trace st') = []
  ∧ forallb (λ x, negb (is_identity_processing x)) (trace st') = true
  ∧ promises st' = [Resolved].
Proof.
  intros Htr Hps st'. unfold st', after_warning. simpl. rewrite Htr, Hps.
  destruct (team_lookups_quiet c e) as (Hp & Hq & Hd & Hi).
  destruct (warning_effects_quiet c st w d) as (Hp' & Hq' & Hd' & Hi').
  repeat split.
  - rewrite queued_on_app, Hq, Hq'. reflexivity.
  - intros topic. rewrite produced_to_app, Hp, Hp'. reflexivity.
  - rewrite drop_causes_app, Hd, Hd'. reflexivity.
  - rewrite forallb_app, Hi, Hi'. reflexivity.
Qed.

Lemma with_resolved_team_event (c : Deps.t) (e : PipelineEvent) (t : Team) :
  PluginEvent.event (event (with_resolved_team c e t)) = PipelineEvent.event e
  ∧ PluginEvent.uuid (event (with_resolved_team c e t)) = PipelineEvent.uuid e
  ∧ PluginEvent.distinct_id (event (with_resolved_team c e t))
    = PipelineEvent.distinct_id e
  ∧ PluginEvent.properties (event (with_resolved_team c e t))
    = default ∅ (PipelineEvent.properties e).
Proof.
  repeat split. simpl. unfold spread. apply (right_id_L ∅ (∪)).
Qed.

(** The run up to the point where the team is known. *)
Lemma _run_resolved (c : Deps.t) (e : PipelineEvent) (t : Team)
    (k : M unit) :
  team_resolution c e = Ok (Some t) →
  (t' ← getTeam c;
   modify (set_team t');;
   match t' with
   | None => dropEvent "invalid_token"
   | Some t =>
       modify (λ st,
         set_event (PluginEvent.with_team_id (event st) (Team.id t)) st);;
       k
   end) (new_EventPipelineRunnerV2 e)
  = k (with_resolved_team c e t).
Proof.
  intros Hres. rewrite bind_run, getTeam_run.
  change (originalEvent (new_EventPipelineRunnerV2 e)) with e.
  rewrite Hres. reflexivity.
Qed.

(** ** Client ingestion warnings *)

(** C10. An event named [$$client_ingestion_warning] whose team resolves makes
    [run] queue exactly one message on the ingestion warnings topic and
    return normally.  The message is the [client_ingestion_warning] record of
    the resolved team: its details are the event's uuid (passed through
    [JSON.stringify] unless it is a string), name and distinct id, and under
    [message] the event's [$$client_ingestion_warning_message].  Nothing is
    produced, no drop is counted, no transformation, person or group
    processing is called, and the uuid is never validated: the statement
    holds whatever the uuid is. *)
Theorem C10_client_ingestion_warning_is_queued
    (c : Deps.t) (e : PipelineEvent) (t : Team) :
  team_resolution c e = Ok (Some t) →
  PipelineEvent.event e = "$$client_ingestion_warning" →
  let st' := snd (run c (new_EventPipelineRunnerV2 e)) in
  let details : Props :=
    <["message" :=
        prop_read (default ∅ (PipelineEvent.properties e))
          "$$client_ingestion_warning_message"]>
      (<["eventUuid" :=
           match PipelineEvent.uuid e with
           | JStr s => JStr s
           | JUndefined => JUndefined
           | other => JStr (Deps.JSON_stringify c other)
           end]>
         (<["event" := JStr "$$client_ingestion_warning"]>
            (<["distinctId" := JStr (PipelineEvent.distinct_id e)]> ∅))) in
  fst (run c (new_EventPipelineRunnerV2 e)) = Ok ()
  ∧ queued_on KAFKA_INGESTION_WARNINGS (trace st')
    = [Deps.JSON_stringify c (JObj (list_to_map
         [ ("team_id", JNum (Team.id t));
           ("type", JStr "client_ingestion_warning");
           ("source", JStr "plugin-server");
           ("details", JStr (Deps.JSON_stringify c (JObj details)));
           ("timestamp",
             JStr (Deps.castTimestampOrNow c None ClickHouse)) ]))]
  ∧ (∀ topic, produced_to topic (trace st') = [])
  ∧ drop_causes (trace st') = []
  ∧ forallb (λ x, negb (is_identity_processing x)) (trace st') = true
  ∧ promises st' = [Resolved]
  ∧ st' = after_warning c "client_ingestion_warning"
            {[ "message" :=
                 prop_read (default ∅ (PipelineEvent.properties e))
                   "$$client_ingestion_warning_message" ]}
            (with_resolved_team c e t).
Proof.
  intros Hres Hname st' details.
  set (st := with_resolved_team c e t).
  set (d := {[ "message" :=
                 prop_read (default ∅ (PipelineEvent.properties e))
                   "$$client_ingestion_warning_message" ]} : Props).
  assert (Hrun : run c (new_EventPipelineRunnerV2 e)
                 = (Ok (), after_warning c "client_ingestion_warning" d st)).
  { unfold run, try_catch, _run. rewrite (_run_resolved c e t _ Hres).
    destruct (with_resolved_team_event c e t) as (Hn & _ & _ & Hp).
    rewrite bind_run. exec. rewrite Hn, Hp, Hname.
    rewrite bool_decide_eq_true_2 by reflexivity.
    rewrite captureIngestionWarning_run. reflexivity. }
  subst st'. rewrite Hrun. cbn [fst snd].
  destruct (after_warning_observed c e t st "client_ingestion_warning" d
              eq_refl eq_refl) as (Hq & Hp & Hd & Hi & Hps).
  split; [reflexivity |]. split; [| repeat split; assumption].
  rewrite Hq, warning_message_explicit.
  destruct (with_resolved_team_event c e t) as (Hn & Hu & Hdid & _).
  fold st in Hn, Hu, Hdid. rewrite Hn, Hu, Hdid, Hname.
  unfold d. rewrite <- insert_union_singleton_l. reflexivity.
Qed.

(** ** UUID validation *)

(** C5, as the code has it.  An event with a resolved team whose name is not
    [$$client_ingestion_warning], whose uuid fails UUID parsing and can be
    converted to a string is dropped with cause [invalid_event_uuid]: [run]
    raises [EventDroppedError] with that warning code, the uuid in its
    message and [doNotSendToDLQ] unset, after queueing one message on the
    ingestion warnings topic.  The message is the [invalid_event_uuid] record
    of the resolved team: its details are the event's uuid (passed through
    [JSON.stringify] unless it is a string), name and distinct id.  Nothing
    else happens. *)
Theorem C5_invalid_uuid_is_dropped
    (c : Deps.t) (e : PipelineEvent) (t : Team) (uuid : string) :
  team_resolution c e = Ok (Some t) →
  PipelineEvent.event e ≠ "$$client_ingestion_warning" →
  Deps.UUID_validateString c (PipelineEvent.uuid e) = false →
  ToString (PipelineEvent.uuid e) = Ok uuid →
  let error :=
    EventDroppedError "invalid_event_uuid"
      ("Not a valid UUID: " +:+ dquote +:+ uuid +:+ dquote) false None in
  let st' := snd (run c (new_EventPipelineRunnerV2 e)) in
  let details : Props :=
    <["eventUuid" :=
        match PipelineEvent.uuid e with
        | JStr s => JStr s
        | JUndefined => JUndefined
        | other => JStr (Deps.JSON_stringify c other)
        end]>
      (<["event" := JStr (PipelineEvent.event e)]>
         (<["distinctId" := JStr (PipelineEvent.distinct_id e)]> ∅)) in
  fst (run c (new_EventPipelineRunnerV2 e)) = Throw error
  ∧ queued_on KAFKA_INGESTION_WARNINGS (trace st')
    = [Deps.JSON_stringify c (JObj (list_to_map
         [ ("team_id", JNum (Team.id t));
           ("type", JStr "invalid_event_uuid");
           ("source", JStr "plugin-server");
           ("details", JStr (Deps.JSON_stringify c (JObj details)));
           ("timestamp",
             JStr (Deps.castTimestampOrNow c None ClickHouse)) ]))]
  ∧ (∀ topic, produced_to topic (trace st') = [])
  ∧ drop_causes (trace st') = []
  ∧ forallb (λ x, negb (is_identity_processing x)) (trace st') = true
  ∧ promises st' = [Resolved]
  ∧ st' = after_warning c "invalid_event_uuid" ∅ (with_resolved_team c e t).
Proof.
  intros Hres Hname Huuid Hstr error st' details.
  set (st := with_resolved_team c e t).
  assert (Hrun : run c (new_EventPipelineRunnerV2 e)
                 = (Throw error, after_warning c "invalid_event_uuid" ∅ st)).
  { unfold run, try_catch, _run. rewrite (_run_resolved c e t _ Hres).
    destruct (with_resolved_team_event c e t) as (Hn & Hu & _ & _).
    rewrite bind_run. exec. rewrite Hn.
    rewrite bool_decide_eq_false_2 by exact Hname.
    unfold validateUuid, new_EventDroppedError, run_catch. exec.
    rewrite Hu, Huuid, Hstr.
    cbn [negb default from_option]. cbv beta iota.
    rewrite captureIngestionWarning_run. reflexivity. }
  subst st'. rewrite Hrun. cbn [fst snd].
  destruct (after_warning_observed c e t st "invalid_event_uuid" ∅
              eq_refl eq_refl) as (Hq & Hp & Hd & Hi & Hps).
  split; [reflexivity |]. split; [| repeat split; assumption].
  rewrite Hq, warning_message_explicit.
  destruct (with_resolved_team_event c e t) as (Hn & Hu & Hdid & _).
  fold st in Hn, Hu, Hdid. rewrite Hn, Hu, Hdid.
  rewrite (left_id_L ∅ (∪)). reflexivity.
Qed.

(** ** Person processing validation *)

Lemma validatePersonProcessing_run (c : Deps.t) (st : Runner) (t : Team) :
  team st = Some t →
  let e := validated_event c st t in
  let v := effective_process_person_profile c st t in
  validatePersonProcessing c st =
    if is_false v then
      if bool_decide (PluginEvent.event (event st) ∈ person_events) then
        (Throw (invalid_person_event_error (PluginEvent.event (event st))),
         set_event e st)
      else
        (Ok (),
         set_shouldProcessPerson false
           (set_event (Deps.normalizeProcessPerson c e false) st))
    else if negb (is_undefined v) && negb (is_boolean v) then
      (Ok (),
       after_warning c "invalid_process_person_profile"
         {[ "$process_person_profile" := v ]} (set_event e st))
    else (Ok (), set_event e st).
Proof.
  intros Ht e v. subst e v.
  unfold effective_process_person_profile, validated_event,
    person_processing_overridden, on_skip_list, validatePersonProcessing,
    disable_process_person_profile, with_process_person_profile_false,
    new_EventDroppedError, invalid_person_event_error.
  destruct st as [oe t0 ps e spp ts p tr]. simpl in Ht. subst t0. exec.
  destruct (bool_decide (Team.person_processing_opt_out t = Some true)); exec;
    (destruct (option_bind _ _ _ (PipelineEvent.token oe)) as [ids |]; exec;
     [destruct (bool_decide (PluginEvent.distinct_id e ∈ ids)); exec |]);
    cbn [orb PluginEvent.with_properties PluginEvent.properties
         PluginEvent.event PluginEvent.distinct_id];
    rewrite ?insert_insert_eq.
  all: match goal with
       | |- context [is_false ?x] => destruct (is_false x)
       end.
  all: try (destruct (bool_decide (PluginEvent.event e ∈ person_events));
            reflexivity).
  all: match goal with
       | |- context [negb (is_undefined ?x) && negb (is_boolean ?x)] =>
           destruct (negb (is_undefined x) && negb (is_boolean x))
       end.
  all: rewrite ?captureIngestionWarning_run; try reflexivity.
  all: destruct e; reflexivity.
Qed.

(** ** Steps that preserve a relation on runner states *)

Section Preservation.

Context (R : relation Runner) `{!Reflexive R} `{!Transitive R}.

Lemma preserves_ret {A} (a : A) : preserves R (mret a).
Proof. intros st r st' [= _ <-]. reflexivity. Qed.

Lemma preserves_throw {A} (e : JsError) : preserves R (@throw A e).
Proof. intros st r st' [= _ <-]. reflexivity. Qed.

Lemma preserves_get : preserves R get.
Proof. intros st r st' [= _ <-]. reflexivity. Qed.

Lemma preserves_call {A} (x : Result A) : preserves R (call x).
Proof. destruct x; [apply preserves_ret | apply preserves_throw]. Qed.

Lemma preserves_nonnull {A} (o : option A) : preserves R (nonnull o).
Proof. destruct o; [apply preserves_ret | apply preserves_throw]. Qed.

Lemma preserves_modify (f : Runner → Runner) :
  (∀ st, R st (f st)) → preserves R (modify f).
Proof. intros Hf st r st' [= _ <-]. apply Hf. Qed.

Lemma preserves_bind {A B} (m : M A) (f : A → M B) :
  preserves R m → (∀ a, preserves R (f a)) → preserves R (m ≫= f).
Proof.
  intros Hm Hf st r st'. rewrite bind_run.
  destruct (m st) as [[a | e] st1] eqn:Hst.
  - intros Hk. etransitivity; [eapply Hm, Hst | eapply Hf, Hk].
  - intros [= _ <-]. eapply Hm, Hst.
Qed.

Lemma preserves_try_catch {A} (m : M A) (h : JsError → M A) :
  preserves R m → (∀ e, preserves R (h e)) → preserves R (try_catch m h).
Proof.
  intros Hm Hh st r st'. unfold try_catch.
  destruct (m st) as [[a | e] st1] eqn:Hst.
  - intros [= _ <-]. eapply Hm, Hst.
  - intros Hk. etransitivity; [eapply Hm, Hst | eapply Hh, Hk].
Qed.

Lemma preserves_for_each {A} (l : list A) (body : A → M unit) :
  (∀ x, preserves R (body x)) → preserves R (for_each l body).
Proof.
  intros Hbody. induction l as [| x l IH]; simpl.
  - apply preserves_ret.
  - apply preserves_bind; [apply Hbody | intros _; exact IH].
Qed.

Lemma preserves_promise_catch (p : Promise) (h : JsError → M unit) :
  (∀ e, preserves R (h e)) → preserves R (promise_catch p h).
Proof.
  intros Hh. destruct p as [| e]; simpl.
  - apply preserves_ret.
  - apply preserves_try_catch.
    + apply preserves_bind; [apply Hh | intros _; apply preserves_ret].
    + intros e'. apply preserves_ret.
Qed.

End Preservation.

Global Instance same_flag_refl : Reflexive same_flag.
Proof. intros st. reflexivity. Qed.

Global Instance same_flag_trans : Transitive same_flag.
Proof. intros a b d Hab Hbd. unfold same_flag in *. congruence. Qed.

(** Breaks a computation into its steps, down to the field updates. *)
Ltac preserve_steps :=
  repeat first
    [ apply preserves_bind; try typeclasses eauto; [| intros ?]
    | apply preserves_ret; typeclasses eauto
    | apply preserves_throw; typeclasses eauto
    | apply preserves_get; typeclasses eauto
    | apply preserves_call; typeclasses eauto
    | apply preserves_nonnull; typeclasses eauto
    | apply preserves_try_catch; try typeclasses eauto; [| intros ?]
    | apply preserves_for_each; try typeclasses eauto; intros ?
    | apply preserves_promise_catch; try typeclasses eauto; intros ?
    | progress cbv zeta
    | match goal with
      | |- preserves _ (if ?b then _ else _) => destruct b
      | |- preserves _ (match ?x with _ => _ end) => destruct x
      end ].

(** Every field update but the one of [shouldProcessPerson] keeps the flag. *)
Ltac keep_flag :=
  preserve_steps;
  try (unfold perform, perform_all, push_promise, push_promises;
       apply preserves_modify; intros ?; reflexivity).

Lemma captureIngestionWarning_flag (c : Deps.t) w d :
  preserves same_flag (captureIngestionWarning c w d).
Proof. unfold captureIngestionWarning. keep_flag. Qed.

Lemma processValidatedEvent_flag (c : Deps.t) :
  preserves same_flag (processValidatedEvent c).
Proof. unfold processValidatedEvent. keep_flag. Qed.

Lemma get_run (st : Runner) : get st = (Ok st, st).
Proof. reflexivity. Qed.

Lemma validateUuid_run (c : Deps.t) (st : Runner) :
  validateUuid c st
  = if Deps.UUID_validateString c (PluginEvent.uuid (event st)) then
      (Ok (), st)
    else
      match ToString (PluginEvent.uuid (event st)) with
      | Ok uuid =>
          (Throw (EventDroppedError "invalid_event_uuid"
                    ("Not a valid UUID: " +:+ dquote +:+ uuid +:+ dquote)
                    false None),
           st)
      | Throw error => (Throw error, st)
      end.
Proof.
  unfold validateUuid, new_EventDroppedError. exec.
  destruct (Deps.UUID_validateString c _); [reflexivity |].
  destruct (ToString _); reflexivity.
Qed.

(** [validateUuid] changes nothing, and returns only for a uuid that
    parses. *)
Lemma validateUuid_inv (c : Deps.t) (st st' : Runner) (r : Result unit) :
  validateUuid c st = (r, st') →
  st' = st
  ∧ (r = Ok () →
     Deps.UUID_validateString c (PluginEvent.uuid (event st)) = true).
Proof.
  rewrite validateUuid_run.
  destruct (Deps.UUID_validateString c _).
  - intros [= <- <-]. split; reflexivity.
  - destruct (ToString _); intros [= <- <-]; split;
      (reflexivity || discriminate).
Qed.

Lemma validateUuid_valid (c : Deps.t) (st : Runner) :
  Deps.UUID_validateString c (PluginEvent.uuid (event st)) = true →
  validateUuid c st = (Ok (), st).
Proof. intros H. unfold validateUuid. exec. rewrite H. reflexivity. Qed.

(** The run of an event that passes team resolution and UUID validation, up
    to the validation of person processing. *)
Lemma _run_validated (c : Deps.t) (e : PipelineEvent) (t : Team) :
  team_resolution c e = Ok (Some t) →
  PipelineEvent.event e ≠ "$$client_ingestion_warning" →
  Deps.UUID_validateString c (PipelineEvent.uuid e) = true →
  _run c (new_EventPipelineRunnerV2 e)
  = (validatePersonProcessing c;; processValidatedEvent c)
      (with_resolved_team c e t).
Proof.
  intros Hres Hname Huuid. unfold _run. rewrite (_run_resolved c e t _ Hres).
  destruct (with_resolved_team_event c e t) as (Hn & Hu & _ & _).
  rewrite bind_run, get_run. cbv beta iota. rewrite Hn.
  rewrite bool_decide_eq_false_2 by exact Hname.
  rewrite bind_run, validateUuid_valid by (rewrite Hu; exact Huuid).
  reflexivity.
Qed.

Lemma run_catch_preserves (R : relation Runner)
    `{!Reflexive R} `{!Transitive R} (c : Deps.t) (error : JsError) :
  (∀ w d, preserves R (captureIngestionWarning c w d)) →
  preserves R (run_catch c error).
Proof.
  intros Hw. unfold run_catch.
  apply preserves_bind;
    [typeclasses eauto | | intros ?; apply preserves_throw; typeclasses eauto].
  destruct error; first [apply Hw | apply preserves_ret; typeclasses eauto].
Qed.

(** Once person processing is validated, a relation every later step
    preserves holds between the state then and the state the run ends in. *)
Lemma run_from_validation (R : relation Runner)
    `{!Reflexive R} `{!Transitive R}
    (c : Deps.t) (e : PipelineEvent) (t : Team) (st : Runner) :
  team_resolution c e = Ok (Some t) →
  PipelineEvent.event e ≠ "$$client_ingestion_warning" →
  Deps.UUID_validateString c (PipelineEvent.uuid e) = true →
  validatePersonProcessing c (with_resolved_team c e t) = (Ok (), st) →
  preserves R (processValidatedEvent c) →
  (∀ w d, preserves R (captureIngestionWarning c w d)) →
  R st (snd (run c (new_EventPipelineRunnerV2 e))).
Proof.
  intros Hres Hname Huuid Hval Hk Hw.
  unfold run, try_catch. rewrite (_run_validated c e t Hres Hname Huuid).
  rewrite bind_run, Hval.
  destruct (processValidatedEvent c st) as [[[] | error] st1] eqn:Hrun;
    apply Hk in Hrun; [exact Hrun |].
  destruct (run_catch c error st1) as [r st2] eqn:Hcatch.
  apply (run_catch_preserves R c error Hw) in Hcatch.
  simpl. etransitivity; eassumption.
Qed.

(** Whatever follows the validation of person processing keeps its
    decision. *)
Lemma run_flag (c : Deps.t) (e : PipelineEvent) (t : Team) :
  team_resolution c e = Ok (Some t) →
  PipelineEvent.event e ≠ "$$client_ingestion_warning" →
  Deps.UUID_validateString c (PipelineEvent.uuid e) = true →
  let st := with_resolved_team c e t in
  let v := effective_process_person_profile c st t in
  (is_false v = true → PipelineEvent.event e ∉ person_events) →
  shouldProcessPerson (snd (run c (new_EventPipelineRunnerV2 e)))
  = negb (is_false v).
Proof.
  intros Hres Hname Huuid st v Hev. subst st.
  destruct (with_resolved_team_event c e t) as (Hn & _ & _ & _).
  pose proof (validatePersonProcessing_run c _ t
                (eq_refl : team (with_resolved_team c e t) = Some t)) as Hval.
  cbv zeta in Hval. fold v in Hval. rewrite Hn in Hval.
  pose proof (λ st1 H, run_from_validation same_flag c e t st1
    Hres Hname Huuid H (processValidatedEvent_flag c)
    (captureIngestionWarning_flag c)) as Hrun.
  unfold same_flag in Hrun.
  destruct (is_false v) eqn:Hv.
  - rewrite bool_decide_eq_false_2 in Hval by (apply Hev; reflexivity).
    rewrite (Hrun _ Hval). reflexivity.
  - destruct (negb (is_undefined v) && negb (is_boolean v));
      rewrite (Hrun _ Hval); reflexivity.
Qed.

(** ** The team's opt-out *)

(** C3, as the code has it.  Take an event other than a client ingestion
    warning, with a valid uuid, whose resolved team has
    [person_processing_opt_out = true].  The validation of person processing
    sets the event's [$process_person_profile] to [false], whatever the
    event carried.  If the event is an [$identify], [$create_alias],
    [$merge_dangerously] or [$groupidentify], the validation throws with the
    event so changed, and [run] raises that [EventDroppedError], with warning
    code [invalid_event_when_process_person_profile_is_false] and
    [doNotSendToDLQ = true], after queueing the warning record of that code
    for the resolved team; nothing is produced and no drop is counted.  For
    any other event the validation returns with person processing switched
    off, and the run ends with it switched off. *)
Theorem C3_team_opt_out_wins (c : Deps.t) (e : PipelineEvent) (t : Team) :
  team_resolution c e = Ok (Some t) →
  Team.person_processing_opt_out t = Some true →
  Deps.UUID_validateString c (PipelineEvent.uuid e) = true →
  PipelineEvent.event e ≠ "$$client_ingestion_warning" →
  let st := with_resolved_team c e t in
  let forced :=
    PluginEvent.with_properties (event st)
      (<["$process_person_profile" := JBool false]>
         (PluginEvent.properties (event st))) in
  let st' := snd (run c (new_EventPipelineRunnerV2 e)) in
  (PipelineEvent.event e ∈ person_events →
     let error :=
       EventDroppedError
         "invalid_event_when_process_person_profile_is_false"
         ("Invalid event when process_person_profile is false: " +:+
          dquote +:+ PipelineEvent.event e +:+ dquote)
         true None in
     let details : Props :=
       <["eventUuid" :=
           match PipelineEvent.uuid e with
           | JStr s => JStr s
           | JUndefined => JUndefined
           | other => JStr (Deps.JSON_stringify c other)
           end]>
         (<["event" := JStr (PipelineEvent.event e)]>
            (<["distinctId" := JStr (PipelineEvent.distinct_id e)]> ∅)) in
     validatePersonProcessing c st = (Throw error, set_event forced st)
     ∧ fst (run c (new_EventPipelineRunnerV2 e)) = Throw error
     ∧ queued_on KAFKA_INGESTION_WARNINGS (trace st')
       = [Deps.JSON_stringify c (JObj (list_to_map
            [ ("team_id", JNum (Team.id t));
              ("type",
                JStr "invalid_event_when_process_person_profile_is_false");
              ("source", JStr "plugin-server");
              ("details", JStr (Deps.JSON_stringify c (JObj details)));
              ("timestamp",
                JStr (Deps.castTimestampOrNow c None ClickHouse)) ]))]
     ∧ (∀ topic, produced_to topic (trace st') = [])
     ∧ drop_causes (trace st') = []
     ∧ forallb (λ x, negb (is_identity_processing x)) (trace st') = true
     ∧ promises st' = [Resolved])
  ∧ (PipelineEvent.event e ∉ person_events →
     validatePersonProcessing c st
     = (Ok (),
        set_shouldProcessPerson false
          (set_event (Deps.normalizeProcessPerson c forced false) st))
     ∧ shouldProcessPerson st' = false).
Proof.
  intros Hres Hout Huuid Hname st forced st'.
  assert (Hover : person_processing_overridden c st t = true).
  { unfold person_processing_overridden.
    rewrite bool_decide_eq_true_2 by exact Hout. reflexivity. }
  assert (Hv : effective_process_person_profile c st t = JBool false).
  { unfold effective_process_person_profile, validated_event.
    rewrite Hover. simpl. unfold prop_read. rewrite lookup_insert_eq.
    reflexivity. }
  destruct (with_resolved_team_event c e t) as (Hn & Hu & Hdid & _).
  fold st in Hn, Hu, Hdid.
  pose proof (validatePersonProcessing_run c st t eq_refl) as Hval.
  cbv zeta in Hval. rewrite Hv, Hn in Hval. cbn [is_false] in Hval.
  unfold validated_event in Hval. rewrite Hover in Hval.
  change (with_process_person_profile_false (event st)) with forced in Hval.
  split.
  - intros Hin error details.
    rewrite bool_decide_eq_true_2 in Hval by exact Hin.
    assert (Hrun : run c (new_EventPipelineRunnerV2 e)
              = (Throw error,
                 after_warning c
                   "invalid_event_when_process_person_profile_is_false" ∅
                   (set_event forced st))).
    { unfold run, try_catch.
      rewrite (_run_validated c e t Hres Hname Huuid).
      rewrite bind_run. fold st. rewrite Hval.
      unfold invalid_person_event_error, run_catch.
      rewrite bind_run, captureIngestionWarning_run. reflexivity. }
    split; [exact Hval |]. subst st'. rewrite Hrun. cbn [fst snd].
    destruct (after_warning_observed c e t (set_event forced st)
                "invalid_event_when_process_person_profile_is_false" ∅
                eq_refl eq_refl) as (Hq & Hp & Hd & Hi & Hps).
    split; [reflexivity |]. split; [| repeat split; assumption].
    rewrite Hq, warning_message_explicit.
    change (PluginEvent.uuid (event (set_event forced st)))
      with (PluginEvent.uuid (event st)).
    change (PluginEvent.event (event (set_event forced st)))
      with (PluginEvent.event (event st)).
    change (PluginEvent.distinct_id (event (set_event forced st)))
      with (PluginEvent.distinct_id (event st)).
    rewrite Hn, Hu, Hdid, (left_id_L ∅ (∪)). reflexivity.
  - intros Hnotin.
    rewrite bool_decide_eq_false_2 in Hval by exact Hnotin.
    split; [exact Hval |]. subst st'.
    rewrite (run_flag c e t Hres Hname Huuid).
    + fold st. rewrite Hv. reflexivity.
    + intros _. exact Hnotin.
Qed.

(** ** A [$process_person_profile] that is not a boolean *)

(** C9, as the code has it.  Take an event that reaches the validation of
    person processing (resolved team, not a client ingestion warning, valid
    uuid) and whose person processing is not switched off by the team or the
    skip list.  If its [$process_person_profile] is present and neither a
    boolean nor [undefined], validation queues one message on the ingestion
    warnings topic and returns normally: the event is unchanged, person
    processing stays on, and the run goes on with the rest of the pipeline
    from there.  The message is the [invalid_process_person_profile] record
    of the resolved team: its details are the event's uuid, name and
    distinct id, and under [$process_person_profile] the offending value.
    The event is not dropped by this check. *)
Theorem C9_invalid_process_person_profile_only_warns
    (c : Deps.t) (e : PipelineEvent) (t : Team) (v : JsValue) :
  team_resolution c e = Ok (Some t) →
  PipelineEvent.event e ≠ "$$client_ingestion_warning" →
  Deps.UUID_validateString c (PipelineEvent.uuid e) = true →
  let st := with_resolved_team c e t in
  person_processing_overridden c st t = false →
  default ∅ (PipelineEvent.properties e) !! "$process_person_profile" = Some v →
  is_boolean v = false →
  is_undefined v = false →
  let details : Props :=
    <["$process_person_profile" := v]>
      (<["eventUuid" :=
           match PipelineEvent.uuid e with
           | JStr s => JStr s
           | JUndefined => JUndefined
           | other => JStr (Deps.JSON_stringify c other)
           end]>
         (<["event" := JStr (PipelineEvent.event e)]>
            (<["distinctId" := JStr (PipelineEvent.distinct_id e)]> ∅))) in
  ∃ st_w,
    validatePersonProcessing c st = (Ok (), st_w)
    ∧ event st_w = event st
    ∧ shouldProcessPerson st_w = true
    ∧ queued_on KAFKA_INGESTION_WARNINGS (trace st_w)
      = [Deps.JSON_stringify c (JObj (list_to_map
           [ ("team_id", JNum (Team.id t));
             ("type", JStr "invalid_process_person_profile");
             ("source", JStr "plugin-server");
             ("details", JStr (Deps.JSON_stringify c (JObj details)));
             ("timestamp",
               JStr (Deps.castTimestampOrNow c None ClickHouse)) ]))]
    ∧ drop_causes (trace st_w) = []
    ∧ promises st_w = [Resolved]
    ∧ run c (new_EventPipelineRunnerV2 e)
      = try_catch (processValidatedEvent c) (run_catch c) st_w
    ∧ shouldProcessPerson (snd (run c (new_EventPipelineRunnerV2 e))) = true.
Proof.
  intros Hres Hname Huuid st Hover Hv Hbool Hundef details.
  set (d := {[ "$process_person_profile" := v ]} : Props).
  set (st_w := after_warning c "invalid_process_person_profile" d st).
  destruct (with_resolved_team_event c e t) as (Hn & Hu & Hdid & Hp).
  fold st in Hn, Hu, Hdid, Hp.
  assert (Heff : effective_process_person_profile c st t = v).
  { unfold effective_process_person_profile, validated_event.
    rewrite Hover, Hp. unfold prop_read. rewrite Hv. reflexivity. }
  assert (Hfalse : is_false v = false) by (destruct v as [| | [] | | | |]; done).
  assert (Hval : validatePersonProcessing c st = (Ok (), st_w)).
  { rewrite (validatePersonProcessing_run c st t) by reflexivity.
    rewrite Heff, Hfalse, Hundef, Hbool. simpl.
    unfold validated_event. rewrite Hover. reflexivity. }
  destruct (after_warning_observed c e t st "invalid_process_person_profile" d
              eq_refl eq_refl) as (Hq & _ & Hd & _ & Hps).
  exists st_w. split; [exact Hval |]. split; [reflexivity |].
  split; [reflexivity |]. split; [| split; [exact Hd |]; split; [exact Hps |]].
  - fold st_w in Hq. rewrite Hq, warning_message_explicit.
    rewrite Hn, Hu, Hdid. unfold d. rewrite <- insert_union_singleton_l.
    reflexivity.
  - split.
    + unfold run, try_catch. rewrite (_run_validated c e t Hres Hname Huuid).
      rewrite bind_run. fold st. rewrite Hval. reflexivity.
    + rewrite (run_flag c e t Hres Hname Huuid).
      * fold st. rewrite Heff, Hfalse. reflexivity.
      * fold st. rewrite Heff, Hfalse. discriminate.
Qed.

(** ** The heatmap fast path *)

Lemma quiet_nil : quiet [].
Proof. repeat split. Qed.

Lemma quiet_app (l1 l2 : list Effect) : quiet l1 → quiet l2 → quiet (l1 ++ l2).
Proof.
  intros (Hp1 & Hd1 & Hi1) (Hp2 & Hd2 & Hi2). repeat split.
  - intros topic. rewrite produced_to_app, Hp1, Hp2. reflexivity.
  - rewrite drop_causes_app, Hd1, Hd2. reflexivity.
  - rewrite forallb_app, Hi1, Hi2. reflexivity.
Qed.

Lemma team_lookups_are_quiet (c : Deps.t) (e : PipelineEvent) :
  quiet (team_lookups c e).
Proof. destruct (team_lookups_quiet c e) as (? & ? & ? & ?). by repeat split. Qed.

Lemma warning_effects_are_quiet (c : Deps.t) st w d :
  quiet (warning_effects c st w d).
Proof.
  destruct (warning_effects_quiet c st w d) as (? & ? & ? & ?).
  by repeat split.
Qed.

Lemma normalizeEvent_run (c : Deps.t) (st : Runner) :
  normalizeEvent c st = (Ok (), after_normalizeEvent c st).
Proof. reflexivity. Qed.

Lemma processHeatmaps_run (c : Deps.t) (st : Runner) :
  processHeatmaps c st = (Ok (), after_heatmaps c st).
Proof.
  unfold processHeatmaps, after_heatmaps, heatmap_effects, heatmap_promises.
  destruct st as [oe t ps e spp ts p tr]. exec.
  destruct (heatmaps_enabled t); exec.
  - destruct (Deps.extractHeatmapData c e) as [extracted | error]; exec.
    + reflexivity.
    + rewrite captureIngestionWarning_run. reflexivity.
  - rewrite !app_nil_r. reflexivity.
Qed.

Lemma heatmap_effects_observed (c : Deps.t) (st : Runner) :
  produced_to CLICKHOUSE_HEATMAPS_KAFKA_TOPIC (heatmap_effects c st)
  = map (λ rawEvent,
           (PluginEvent.uuid (event st), Deps.JSON_stringify c rawEvent))
        (extracted_heatmaps c (team st) (event st))
  ∧ (∀ topic, topic ≠ CLICKHOUSE_HEATMAPS_KAFKA_TOPIC →
       produced_to topic (heatmap_effects c st) = [])
  ∧ drop_causes (heatmap_effects c st) = []
  ∧ forallb (λ x, negb (is_identity_processing x)) (heatmap_effects c st)
    = true.
Proof.
  unfold heatmap_effects, extracted_heatmaps.
  destruct (heatmaps_enabled (team st)); [| by repeat split].
  destruct (Deps.extractHeatmapData c (event st)) as [extracted | error].
  - generalize (default [] extracted). intros l. repeat split.
    + induction l as [| x l IH]; [reflexivity |].
      unfold produced_to in *. simpl. f_equal. exact IH.
    + intros topic Hne. induction l as [| x l IH]; [reflexivity |].
      unfold produced_to in *. simpl.
      destruct (decide (CLICKHOUSE_HEATMAPS_KAFKA_TOPIC = topic));
        [congruence | exact IH].
    + induction l as [| x l IH]; [reflexivity | exact IH].
    + induction l as [| x l IH]; [reflexivity | exact IH].
  - destruct (warning_effects_are_quiet c st "invalid_heatmap_data"
                {[ "eventUuid" := PluginEvent.uuid (event st) ]})
      as (Hp & Hd & Hi).
    repeat split; auto.
Qed.

(** What the validation of person processing leaves behind when it lets the
    event through. *)
Lemma validatePersonProcessing_passes
    (c : Deps.t) (st st_v : Runner) (t : Team) :
  team st = Some t →
  (∀ b, keeps_name (λ ev, Deps.normalizeProcessPerson c ev b)) →
  (∀ b, keeps_uuid (λ ev, Deps.normalizeProcessPerson c ev b)) →
  validatePersonProcessing c st = (Ok (), st_v) →
  team st_v = Some t
  ∧ PluginEvent.event (event st_v) = PluginEvent.event (event st)
  ∧ PluginEvent.uuid (event st_v) = PluginEvent.uuid (event st)
  ∧ ∃ l, trace st_v = trace st ++ l ∧ quiet l.
Proof.
  intros Ht Hname Huuid.
  rewrite (validatePersonProcessing_run c st t Ht).
  assert (Hve : PluginEvent.event (validated_event c st t)
                = PluginEvent.event (event st)
              ∧ PluginEvent.uuid (validated_event c st t)
                = PluginEvent.uuid (event st)).
  { unfold validated_event.
    destruct (person_processing_overridden c st t); split; reflexivity. }
  destruct Hve as [Hve1 Hve2].
  destruct (is_false _).
  - destruct (bool_decide _); [discriminate |]. intros [= <-]. simpl.
    rewrite (Hname false), (Huuid false), Hve1, Hve2.
    repeat split; [exact Ht |]. exists []. rewrite app_nil_r.
    split; [reflexivity | apply quiet_nil].
  - destruct (negb _ && negb _); intros [= <-]; simpl;
      rewrite Hve1, Hve2; (repeat split; [exact Ht |]).
    + eexists. split; [reflexivity | apply warning_effects_are_quiet].
    + exists []. rewrite app_nil_r. split; [reflexivity | apply quiet_nil].
Qed.

(** C6. For an event named [$$heatmap] with a resolved team and a valid uuid,
    person processing validation lets the event through and the run then
    performs normalization and heatmap extraction and nothing else: it ends
    normally in the state those two steps leave.  One record per extracted
    heatmap sub-event is produced to the heatmaps topic, keyed by the event's
    uuid; nothing is produced to the events topic or the exceptions topic, no
    drop is counted, and no transformation, person or group processing is
    called.  The normalizers are assumed to leave the event's uuid alone,
    and [normalizeProcessPerson] its name. *)
Theorem C6_heatmap_fast_path (c : Deps.t) (e : PipelineEvent) (t : Team) :
  team_resolution c e = Ok (Some t) →
  Deps.UUID_validateString c (PipelineEvent.uuid e) = true →
  PipelineEvent.event e = "$$heatmap" →
  (∀ b, keeps_name (λ ev, Deps.normalizeProcessPerson c ev b)) →
  (∀ b, keeps_uuid (λ ev, Deps.normalizeProcessPerson c ev b)) →
  keeps_uuid (Deps.normalizeEvent c) →
  ∃ st_v,
    validatePersonProcessing c (with_resolved_team c e t) = (Ok (), st_v)
    ∧ let st_n := after_normalizeEvent c st_v in
      let st' := after_heatmaps c st_n in
      run c (new_EventPipelineRunnerV2 e) = (Ok (), st')
      ∧ produced_to CLICKHOUSE_HEATMAPS_KAFKA_TOPIC (trace st')
        = map (λ rawEvent,
                 (PipelineEvent.uuid e, Deps.JSON_stringify c rawEvent))
              (extracted_heatmaps c (Some t) (event st_n))
      ∧ produced_to CLICKHOUSE_JSON_EVENTS_KAFKA_TOPIC (trace st') = []
      ∧ produced_to EXCEPTIONS_SYMBOLIFICATION_KAFKA_TOPIC (trace st') = []
      ∧ drop_causes (trace st') = []
      ∧ forallb (λ x, negb (is_identity_processing x)) (trace st') = true.
Proof.
  intros Hres Huuid Hname Hkn Hku Hkne.
  assert (Hnc : PipelineEvent.event e ≠ "$$client_ingestion_warning")
    by (rewrite Hname; discriminate).
  destruct (with_resolved_team_event c e t) as (Hn & Hu & _ & _).
  set (st := with_resolved_team c e t) in *.
  assert (Hpass : ∃ st_v, validatePersonProcessing c st = (Ok (), st_v)).
  { rewrite (validatePersonProcessing_run c st t) by reflexivity.
    rewrite Hn, Hname.
    rewrite (bool_decide_eq_false_2 ("$$heatmap" ∈ person_events))
      by (unfold person_events; rewrite !elem_of_cons, elem_of_nil;
          intros [? | [? | [? | [? | []]]]]; discriminate).
    destruct (is_false _); [eauto |]. destruct (negb _ && negb _); eauto. }
  destruct Hpass as [st_v Hval]. exists st_v. split; [exact Hval |].
  destruct (validatePersonProcessing_passes c st st_v t eq_refl Hkn Hku Hval)
    as (Ht & Hn' & Hu' & l & Hl & Hq).
  intros st_n st'.
  assert (Hun : PluginEvent.uuid (event st_n) = PipelineEvent.uuid e).
  { unfold st_n, after_normalizeEvent, normalized_event. simpl.
    rewrite (Hku _ _), (Hkne _). simpl. rewrite Hu'. exact Hu. }
  assert (Htn : team st_n = Some t) by exact Ht.
  assert (Htr : trace st' = (team_lookups c e ++ l) ++ heatmap_effects c st_n).
  { unfold st', after_heatmaps. simpl. rewrite Hl. reflexivity. }
  destruct (heatmap_effects_observed c st_n) as (Hh & Ho & Hd & Hi).
  destruct (quiet_app _ _ (team_lookups_are_quiet c e) Hq) as (Hp' & Hd' & Hi').
  split; [| rewrite Htr; repeat split].
  - unfold run, try_catch. rewrite (_run_validated c e t Hres Hnc Huuid).
    rewrite bind_run. fold st. rewrite Hval.
    unfold processValidatedEvent. rewrite bind_run, get_run. cbv beta iota.
    rewrite Hn', Hn, Hname. rewrite bool_decide_eq_true_2 by reflexivity.
    rewrite bind_run, normalizeEvent_run, processHeatmaps_run. reflexivity.
  - rewrite produced_to_app, Hp', Hh, Htn, Hun. reflexivity.
  - rewrite produced_to_app, Hp', Ho by discriminate. reflexivity.
  - rewrite produced_to_app, Hp', Ho by discriminate. reflexivity.
  - rewrite drop_causes_app, Hd', Hd. reflexivity.
  - rewrite forallb_app, Hi', Hi. reflexivity.
Qed.

(** ** Assembly of the enriched record *)

Lemma set_properties_same (st : Runner) :
  set_properties (PluginEvent.properties (event st)) st = st.
Proof. destruct st as [oe t ps [] spp ts p tr]. reflexivity. Qed.

Lemma lookup_delete_all {A} (f : A → string) (l : list A) (p : Props)
    (k : string) :
  foldl (λ p i, delete (f i) p) p l !! k
  = if bool_decide (k ∈ map f l) then None else p !! k.
Proof.
  revert p. induction l as [| x l IH]; intros p; simpl.
  - reflexivity.
  - rewrite IH. destruct (decide (k = f x)) as [-> | Hne].
    + rewrite lookup_delete_eq.
      rewrite (bool_decide_eq_true_2 (f x ∈ f x :: map f l))
        by apply list_elem_of_here.
      destruct (bool_decide _); reflexivity.
    + rewrite lookup_delete_ne by congruence.
      destruct (decide (k ∈ map f l)) as [Hin | Hnin].
      * rewrite !bool_decide_eq_true_2;
          [reflexivity | by apply list_elem_of_further | exact Hin].
      * rewrite !bool_decide_eq_false_2; [reflexivity | | exact Hnin].
        rewrite elem_of_cons. intros [? | ?]; contradiction.
Qed.

Lemma strip_group_keys_gone (n : nat) (p : Props) (i : nat) :
  i < n → strip_group_keys n p !! group_key (Z.of_nat i) = None.
Proof.
  intros Hi. unfold strip_group_keys.
  rewrite (lookup_delete_all (λ i, group_key (Z.of_nat i))).
  rewrite bool_decide_eq_true_2; [reflexivity |].
  apply list_elem_of_fmap. exists i. split; [reflexivity |].
  apply elem_of_seq. lia.
Qed.

Lemma strip_group_keys_other (n : nat) (p : Props) (k : string) :
  (∀ i, k ≠ group_key i) → strip_group_keys n p !! k = p !! k.
Proof.
  intros Hk. unfold strip_group_keys.
  rewrite (lookup_delete_all (λ i, group_key (Z.of_nat i))).
  rewrite bool_decide_eq_false_2; [reflexivity |].
  intros Hin. apply list_elem_of_fmap in Hin as (i & -> & _).
  exact (Hk _ eq_refl).
Qed.

Lemma deleteGroupKeys_run (c : Deps.t) (st : Runner) :
  deleteGroupKeys c st
  = (Ok (),
     set_properties
       (strip_group_keys (Deps.MAX_GROUP_TYPES_PER_TEAM c)
          (PluginEvent.properties (event st))) st).
Proof.
  unfold deleteGroupKeys, strip_group_keys.
  generalize (seq 0 (Deps.MAX_GROUP_TYPES_PER_TEAM c)). intros l.
  revert st. induction l as [| i l IH]; intros st; simpl.
  - rewrite set_properties_same. reflexivity.
  - rewrite bind_run. unfold modify at 1. rewrite IH. reflexivity.
Qed.

Lemma createKafkaEvent_run (c : Deps.t) (st : Runner) (t : Team) (p : Person) :
  team st = Some t →
  person st = Some p →
  createKafkaEvent c st
  = (Ok (assembled_record c st t p), after_createKafkaEvent c st t).
Proof.
  intros Ht Hp.
  unfold createKafkaEvent, assembled_record, after_createKafkaEvent,
    assembled_properties, anonymized_properties, elements_chain_of,
    elements_chain_log, event_set.
  destruct st as [oe t0 ps e spp ts p0 tr]. simpl in Ht, Hp. subst t0 p0.
  exec.
  destruct (truthy (prop_read (PluginEvent.properties e) "$ip")); exec;
    [destruct (Team.anonymize_ips t); exec |];
    cbn [andb PluginEvent.with_properties PluginEvent.properties];
    (match goal with
     | |- context [Deps.getElementsChain c ?x] =>
         destruct (Deps.getElementsChain c x) as [chain | error]
     end; exec;
     (destruct spp; exec;
      [| rewrite deleteGroupKeys_run; exec ];
      rewrite ?app_nil_r, <- ?app_assoc;
      try reflexivity; destruct e; reflexivity)).
Qed.

Lemma createKafkaEvent_needs (c : Deps.t) (st st' : Runner) (r : RawKafkaEvent) :
  createKafkaEvent c st = (Ok r, st') →
  ∃ t p, team st = Some t ∧ person st = Some p.
Proof.
  destruct st as [oe [t |] ps e spp ts [p |] tr]; [eauto | | |];
    intros H; exfalso; revert H; unfold createKafkaEvent; exec;
    repeat match goal with
    | |- context [if ?b then _ else _] => destruct b; exec
    | |- context [Deps.getElementsChain c ?x] =>
        destruct (Deps.getElementsChain c x); exec
    | |- context [deleteGroupKeys c ?s] =>
        rewrite (deleteGroupKeys_run c s); exec
    end;
    discriminate.
Qed.

(** The record of a run that was assembled is the one [assembled_record]
    describes. *)
Lemma createKafkaEvent_returns (c : Deps.t) (st st' : Runner)
    (r : RawKafkaEvent) :
  createKafkaEvent c st = (Ok r, st') →
  ∃ t p, team st = Some t ∧ person st = Some p
         ∧ r = assembled_record c st t p
         ∧ st' = after_createKafkaEvent c st t.
Proof.
  intros H. destruct (createKafkaEvent_needs c st st' r H) as (t & p & Ht & Hp).
  rewrite (createKafkaEvent_run c st t p Ht Hp) in H.
  injection H as <- <-. eauto 6.
Qed.

Lemma group_key_not (k : string) :
  String.prefix "$group_" k = false → ∀ i, k ≠ group_key i.
Proof.
  intros Hk i ->. unfold group_key in Hk.
  generalize dependent (pretty i). intros s Hk.
  destruct s; vm_compute in Hk; discriminate.
Qed.

Lemma anonymized_properties_other (st : Runner) (t : Team) (k : string) :
  k ≠ "$ip" →
  anonymized_properties st t !! k = PluginEvent.properties (event st) !! k.
Proof.
  intros Hk. unfold anonymized_properties.
  destruct (_ && _); [apply lookup_delete_ne; congruence | reflexivity].
Qed.

Lemma assembled_properties_other (c : Deps.t) (st : Runner) (t : Team)
    (k : string) :
  k ≠ "$ip" → String.prefix "$group_" k = false →
  assembled_properties c st t !! k = PluginEvent.properties (event st) !! k.
Proof.
  intros Hip Hgroup. unfold assembled_properties.
  destruct (shouldProcessPerson st).
  - apply anonymized_properties_other, Hip.
  - rewrite strip_group_keys_other by apply group_key_not, Hgroup.
    apply anonymized_properties_other, Hip.
Qed.

(** C1, as the code has it.  When [createKafkaEvent] assembles the record of
    an event whose person processing is disabled, the record's
    [person_properties] is the JSON string of the empty object, its
    [properties] serialize a bag without any of the keys [$group_0] ..
    [$group_{MAX_GROUP_TYPES_PER_TEAM-1}], and its [person_mode] is
    [propertyless] unless the resolved person is flagged [force_upgrade], in
    which case it is [force_upgrade]. *)
Theorem C1_person_processing_disabled
    (c : Deps.t) (st st' : Runner) (r : RawKafkaEvent) :
  shouldProcessPerson st = false →
  createKafkaEvent c st = (Ok r, st') →
  RawKafkaEvent.person_properties r = "{}"
  ∧ RawKafkaEvent.properties r
    = Deps.JSON_stringify c (JObj (PluginEvent.properties (event st')))
  ∧ (∀ i, i < Deps.MAX_GROUP_TYPES_PER_TEAM c →
       PluginEvent.properties (event st') !! group_key (Z.of_nat i) = None)
  ∧ ∃ p, person st = Some p
         ∧ RawKafkaEvent.person_mode r
           = if Person.force_upgrade p then force_upgrade else propertyless.
Proof.
  intros Hflag Hrun.
  destruct (createKafkaEvent_returns c st st' r Hrun)
    as (t & p & Ht & Hp & -> & ->).
  unfold assembled_record, after_createKafkaEvent, assembled_properties.
  rewrite Hflag. simpl. repeat split.
  - intros i Hi. apply strip_group_keys_gone, Hi.
  - exists p. split; [exact Hp | reflexivity].
Qed.

(** C2. When [createKafkaEvent] assembles the record of an event whose person
    processing is enabled, the record's [person_properties] serialize the
    resolved person's properties merged with the event's [$set]: a key of
    [$set] carries the event's value, any other key the person's.  An absent
    [$set] merges as the empty map. *)
Theorem C2_person_properties_merge_set
    (c : Deps.t) (st st' : Runner) (r : RawKafkaEvent) :
  shouldProcessPerson st = true →
  createKafkaEvent c st = (Ok r, st') →
  ∃ p, person st = Some p
    ∧ let set := event_set (PluginEvent.properties (event st)) in
      let merged := spread (Person.properties p) set in
      RawKafkaEvent.person_properties r = Deps.JSON_stringify c (JObj merged)
      ∧ (∀ k, merged !! k
              = match set !! k with
                | Some v => Some v
                | None => Person.properties p !! k
                end)
      ∧ (∀ m, PluginEvent.properties (event st) !! "$set" = Some (JObj m) →
              set = m)
      ∧ (PluginEvent.properties (event st) !! "$set" = None → set = ∅).
Proof.
  intros Hflag Hrun.
  destruct (createKafkaEvent_returns c st st' r Hrun)
    as (t & p & Ht & Hp & -> & ->).
  exists p. split; [exact Hp |]. intros set merged.
  assert (Hset : event_set (anonymized_properties st t) = set).
  { unfold set, event_set, prop_read.
    rewrite anonymized_properties_other by discriminate. reflexivity. }
  repeat split.
  - unfold assembled_record. simpl. rewrite Hflag, Hset. reflexivity.
  - intros k. unfold merged, spread. rewrite lookup_union.
    destruct (set !! k), (Person.properties p !! k); reflexivity.
  - intros m Hm. unfold set, event_set, prop_read. rewrite Hm. reflexivity.
  - intros Hm. unfold set, event_set, prop_read. rewrite Hm. reflexivity.
Qed.

(** ** Producing the enriched record *)

Lemma produceEventToKafka_run (c : Deps.t) (r : RawKafkaEvent) (st : Runner) :
  let '(key, value) := record_message c r in
  let outcome := Deps.produce c CLICKHOUSE_JSON_EVENTS_KAFKA_TOPIC key value in
  produceEventToKafka c r st
  = (Ok (),
     set_promises
       (promises st ++
        [match outcome with
         | Resolved => Resolved
         | Rejected error => rejected_produce_outcome c r error
         end])
       (set_trace
          (trace st ++
           Produce CLICKHOUSE_JSON_EVENTS_KAFKA_TOPIC key value ::
           match outcome with
           | Resolved => []
           | Rejected error => rejected_produce_effects r error
           end)
          st)).
Proof.
  unfold record_message, produceEventToKafka, rejected_produce_outcome,
    rejected_produce_effects, oversize_details.
  destruct st as [oe t ps e spp ts p tr]. exec.
  destruct (Deps.produce c _ _ _) as [| []]; exec; try reflexivity.
  destruct (Deps.captureIngestionWarning c _ _ _) as [[] | failure]; exec;
    rewrite <- ?app_assoc; reflexivity.
Qed.

(** What the handler of a rejected produce adds to the trace is no message,
    no drop and no call the runner makes for the event's identity. *)
Lemma rejected_produce_effects_quiet (r : RawKafkaEvent) (error : JsError) :
  (∀ topic, produced_to topic (rejected_produce_effects r error) = [])
  ∧ (∀ topic, queued_on topic (rejected_produce_effects r error) = [])
  ∧ drop_causes (rejected_produce_effects r error) = []
  ∧ forallb (λ x, negb (is_identity_processing x))
      (rejected_produce_effects r error) = true.
Proof. destruct error; repeat split. Qed.

Lemma produceExceptionSymbolificationEventStep_run
    (c : Deps.t) (r : RawKafkaEvent) (st : Runner) :
  let '(key, value) := record_message c r in
  let outcome :=
    Deps.produce c EXCEPTIONS_SYMBOLIFICATION_KAFKA_TOPIC key value in
  produceExceptionSymbolificationEventStep c r st
  = (Ok (),
     set_promises (promises st ++ [outcome])
       (set_trace
          (trace st ++
           Produce EXCEPTIONS_SYMBOLIFICATION_KAFKA_TOPIC key value ::
           match outcome with
           | Rejected _ =>
               [StatusWarn
                  "Failed to produce exception event for symbolification"]
           | Resolved => []
           end)
          st)).
Proof.
  unfold record_message, produceExceptionSymbolificationEventStep.
  destruct st as [oe t ps e spp ts p tr]. exec.
  destruct (Deps.produce c _ _ _); exec; rewrite <- ?app_assoc; reflexivity.
Qed.

Lemma warnings_captured_app tr1 tr2 :
  warnings_captured (tr1 ++ tr2)
  = warnings_captured tr1 ++ warnings_captured tr2.
Proof. apply omap_app. Qed.

(** C7, as the code has it.  When the producer rejects the enriched record
    with [MessageSizeTooLarge], [produceEventToKafka] calls the shared
    warning helper exactly once, for the record's team, with the type
    [message_size_too_large] and the record's uuid and distinct id as
    details.  The record was produced once and is not produced again, and
    the completion handed to the consumer resolves when the helper returns
    (it rejects with the helper's error otherwise).  No drop is counted: the
    counter of dropped events is left as it was, and the call returns
    normally.  Any other rejection is handed on unchanged, without a call to
    the helper. *)
Theorem C7_message_size_too_large_is_swallowed
    (c : Deps.t) (r : RawKafkaEvent) (st : Runner) (error : JsError) :
  Deps.produce c CLICKHOUSE_JSON_EVENTS_KAFKA_TOPIC
    (RawKafkaEvent.uuid r) (Deps.JSON_stringify c (RawKafkaEvent.to_js r))
  = Rejected error →
  let details : Props :=
    <["eventUuid" := RawKafkaEvent.uuid r]>
      (<["distinctId" := JStr (RawKafkaEvent.distinct_id r)]> ∅) in
  let helper :=
    Deps.captureIngestionWarning c (RawKafkaEvent.team_id r)
      "message_size_too_large" details in
  ∃ st',
    produceEventToKafka c r st = (Ok (), st')
    ∧ produced_to CLICKHOUSE_JSON_EVENTS_KAFKA_TOPIC (trace st')
      = produced_to CLICKHOUSE_JSON_EVENTS_KAFKA_TOPIC (trace st)
        ++ [(RawKafkaEvent.uuid r,
             Deps.JSON_stringify c (RawKafkaEvent.to_js r))]
    ∧ drop_causes (trace st') = drop_causes (trace st)
    ∧ (error = MessageSizeTooLarge →
         warnings_captured (trace st')
         = warnings_captured (trace st)
           ++ [(RawKafkaEvent.team_id r, "message_size_too_large", details)]
         ∧ (helper = Ok () → promises st' = promises st ++ [Resolved])
         ∧ (∀ failure, helper = Throw failure →
              promises st' = promises st ++ [Rejected failure]))
    ∧ (error ≠ MessageSizeTooLarge →
         warnings_captured (trace st') = warnings_captured (trace st)
         ∧ promises st' = promises st ++ [Rejected error]).
Proof.
  intros Hout details helper.
  pose proof (produceEventToKafka_run c r st) as Hrun.
  unfold record_message in *. cbv zeta in Hrun. rewrite Hout in Hrun.
  eexists. split; [exact Hrun |]. cbn [trace promises set_trace set_promises].
  destruct (rejected_produce_effects_quiet r error) as (Hp & _ & Hd & _).
  change (?x :: rejected_produce_effects r error)
    with ([x] ++ rejected_produce_effects r error).
  rewrite !produced_to_app, !drop_causes_app, !warnings_captured_app, Hp, Hd.
  split; [rewrite app_nil_r; reflexivity |].
  split; [rewrite app_nil_r; reflexivity |].
  split.
  - intros ->. unfold rejected_produce_outcome, rejected_produce_effects.
    change (oversize_details r) with details. fold helper.
    split; [reflexivity |].
    split; [intros -> | intros failure ->]; reflexivity.
  - intros Hne. unfold rejected_produce_outcome, rejected_produce_effects.
    destruct error; try contradiction; rewrite app_nil_r; split; reflexivity.
Qed.

Lemma produceEventToKafka_observed (c : Deps.t) (r : RawKafkaEvent)
    (st : Runner) :
  ∃ st',
    produceEventToKafka c r st = (Ok (), st')
    ∧ produced_to CLICKHOUSE_JSON_EVENTS_KAFKA_TOPIC (trace st')
      = produced_to CLICKHOUSE_JSON_EVENTS_KAFKA_TOPIC (trace st)
        ++ [record_message c r]
    ∧ (∀ topic, topic ≠ CLICKHOUSE_JSON_EVENTS_KAFKA_TOPIC →
         produced_to topic (trace st') = produced_to topic (trace st)).
Proof.
  pose proof (produceEventToKafka_run c r st) as Hrun.
  unfold record_message in *. cbv zeta in Hrun.
  eexists. split; [exact Hrun |]. simpl.
  generalize (Deps.produce c CLICKHOUSE_JSON_EVENTS_KAFKA_TOPIC
                (RawKafkaEvent.uuid r)
                (Deps.JSON_stringify c (RawKafkaEvent.to_js r))).
  intros outcome.
  assert (Htail : ∀ topic,
    produced_to topic
      match outcome with
      | Resolved => []
      | Rejected error => rejected_produce_effects r error
      end = []).
  { intros topic. destruct outcome as [| error]; [reflexivity |].
    apply rejected_produce_effects_quiet. }
  split.
  - rewrite produced_to_app, produced_to_cons, Htail. reflexivity.
  - intros topic Hne. rewrite produced_to_app, produced_to_cons, Htail.
    unfold produced_to at 2. simpl.
    destruct (decide (CLICKHOUSE_JSON_EVENTS_KAFKA_TOPIC = topic));
      [congruence | apply app_nil_r].
Qed.

Lemma produceExceptionSymbolificationEventStep_observed
    (c : Deps.t) (r : RawKafkaEvent) (st : Runner) :
  ∃ st',
    produceExceptionSymbolificationEventStep c r st = (Ok (), st')
    ∧ produced_to EXCEPTIONS_SYMBOLIFICATION_KAFKA_TOPIC (trace st')
      = produced_to EXCEPTIONS_SYMBOLIFICATION_KAFKA_TOPIC (trace st)
        ++ [record_message c r]
    ∧ (∀ topic, topic ≠ EXCEPTIONS_SYMBOLIFICATION_KAFKA_TOPIC →
         produced_to topic (trace st') = produced_to topic (trace st)).
Proof.
  pose proof (produceExceptionSymbolificationEventStep_run c r st) as Hrun.
  unfold record_message in *. cbv zeta in Hrun.
  eexists. split; [exact Hrun |]. simpl.
  generalize (Deps.produce c EXCEPTIONS_SYMBOLIFICATION_KAFKA_TOPIC
                (RawKafkaEvent.uuid r)
                (Deps.JSON_stringify c (RawKafkaEvent.to_js r))).
  intros outcome. split.
  - rewrite produced_to_app. f_equal. destruct outcome; reflexivity.
  - intros topic Hne. rewrite produced_to_app.
    unfold produced_to at 2. simpl.
    destruct (decide (EXCEPTIONS_SYMBOLIFICATION_KAFKA_TOPIC = topic));
      [congruence |].
    destruct outcome; apply app_nil_r.
Qed.


(** [assembleAndProduce] once the record is assembled: the routing of
    line 189. *)
Lemma assembleAndProduce_routes
    (c : Deps.t) (st st1 : Runner) (r : RawKafkaEvent) :
  createKafkaEvent c st = (Ok r, st1) →
  assembleAndProduce c st
  = if bool_decide (PluginEvent.event (event st) = "$exception") then
      match hasOwnProperty (PluginEvent.properties (event st))
              "$sentry_event_id" with
      | Throw error => (Throw error, st1)
      | Ok true => produceEventToKafka c r st1
      | Ok false => produceExceptionSymbolificationEventStep c r st1
      end
    else produceEventToKafka c r st1.
Proof.
  intros Hrun.
  destruct (createKafkaEvent_returns c st st1 r Hrun)
    as (t & p & Ht & Hp & Hr & Hst1).
  assert (Hname : PluginEvent.event (event st1) = PluginEvent.event (event st))
    by (rewrite Hst1; reflexivity).
  assert (Hown :
    hasOwnProperty (PluginEvent.properties (event st1)) "$sentry_event_id"
    = hasOwnProperty (PluginEvent.properties (event st)) "$sentry_event_id").
  { unfold hasOwnProperty. rewrite Hst1. unfold after_createKafkaEvent. simpl.
    rewrite !assembled_properties_other by (discriminate || reflexivity).
    reflexivity. }
  unfold assembleAndProduce. rewrite bind_run, Hrun, bind_run, get_run.
  cbv beta iota. rewrite bind_run, Hname, Hown.
  destruct (bool_decide (PluginEvent.event (event st) = "$exception"));
    [| reflexivity].
  destruct (hasOwnProperty (PluginEvent.properties (event st))
              "$sentry_event_id") as [[] | error]; reflexivity.
Qed.

Lemma after_createKafkaEvent_produced (c : Deps.t) (st : Runner) (t : Team)
    (topic : Topic) :
  produced_to topic (trace (after_createKafkaEvent c st t))
  = produced_to topic (trace st).
Proof.
  unfold after_createKafkaEvent. simpl.
  rewrite produced_to_app. unfold elements_chain_log.
  destruct (Deps.getElementsChain c _); simpl; apply app_nil_r.
Qed.

(** C8, on the code.  Once the record of an event named [$exception] is
    assembled, the runner asks the event's property bag itself whether it has
    a [$sentry_event_id] ([properties.hasOwnProperty]).  When the bag has no
    own key [hasOwnProperty], the record is produced exactly once, keyed by
    the event's uuid: to the exceptions symbolification topic, and not to the
    events topic, when the properties have no [$sentry_event_id]; to the
    events topic, and not to the exceptions topic, when they have one.  When
    the bag has an own key [hasOwnProperty], the call throws a [TypeError]
    and the record is produced to neither topic. *)
Theorem C8_exception_routing
    (c : Deps.t) (st st1 : Runner) (r : RawKafkaEvent) :
  createKafkaEvent c st = (Ok r, st1) →
  PluginEvent.event (event st) = "$exception" →
  let properties := PluginEvent.properties (event st) in
  let message :=
    (PluginEvent.uuid (event st),
     Deps.JSON_stringify c (RawKafkaEvent.to_js r)) in
  let exceptions tr :=
    produced_to EXCEPTIONS_SYMBOLIFICATION_KAFKA_TOPIC tr in
  let events tr := produced_to CLICKHOUSE_JSON_EVENTS_KAFKA_TOPIC tr in
  (properties !! "hasOwnProperty" = None →
     ∃ st2,
       assembleAndProduce c st = (Ok (), st2)
       ∧ (properties !! "$sentry_event_id" = None →
            exceptions (trace st2) = exceptions (trace st) ++ [message]
            ∧ events (trace st2) = events (trace st))
       ∧ (is_Some (properties !! "$sentry_event_id") →
            events (trace st2) = events (trace st) ++ [message]
            ∧ exceptions (trace st2) = exceptions (trace st)))
  ∧ (is_Some (properties !! "hasOwnProperty") →
     assembleAndProduce c st
     = (Throw (TypeError "hasOwnProperty is not a function"), st1)
     ∧ exceptions (trace st1) = exceptions (trace st)
     ∧ events (trace st1) = events (trace st)).
Proof.
  intros Hrun Hname properties message exceptions events.
  destruct (createKafkaEvent_returns c st st1 r Hrun)
    as (t & p & Ht & Hp & Hr & Hst1).
  assert (Hlog : ∀ topic,
    produced_to topic (trace st1) = produced_to topic (trace st))
    by (intros topic; rewrite Hst1; apply after_createKafkaEvent_produced).
  assert (Hkey : PluginEvent.uuid (event st) = RawKafkaEvent.uuid r)
    by (rewrite Hr; reflexivity).
  rewrite (assembleAndProduce_routes c st st1 r Hrun).
  rewrite Hname, bool_decide_eq_true_2 by reflexivity.
  unfold hasOwnProperty. fold properties.
  unfold message, exceptions, events. rewrite Hkey.
  fold (record_message c r).
  split.
  - intros ->.
    destruct (properties !! "$sentry_event_id") as [v |] eqn:Hv.
    + rewrite bool_decide_eq_true_2 by eauto.
      destruct (produceEventToKafka_observed c r st1) as (st2 & H2 & Hm & Ho).
      exists st2. split; [exact H2 |]. split; [discriminate |].
      intros _. rewrite Hm, Ho, !Hlog by discriminate. split; reflexivity.
    + rewrite bool_decide_eq_false_2 by (intros [? ?]; discriminate).
      destruct (produceExceptionSymbolificationEventStep_observed c r st1)
        as (st2 & H2 & Hm & Ho).
      exists st2. split; [exact H2 |]. split; [| intros [? ?]; discriminate].
      intros _. rewrite Hm, Ho, !Hlog by discriminate. split; reflexivity.
  - intros [v ->]. rewrite !Hlog. repeat split.
Qed.

(** ** From a run to the record it assembles

    The properties of the enriched record are stated on the runner as
    [createKafkaEvent] finds it.  This section ties that state to runs: any
    enriched record a run produces was returned by [createKafkaEvent], in a
    state that carries the decision [validatePersonProcessing] took. *)

Global Instance enriched_unchanged_refl : Reflexive enriched_unchanged.
Proof. intros st. split; reflexivity. Qed.

Global Instance enriched_unchanged_trans : Transitive enriched_unchanged.
Proof. intros a b d [H1 H2] [H3 H4]. split; congruence. Qed.

Global Instance before_assembly_refl : Reflexive before_assembly.
Proof. intros st. split; reflexivity. Qed.

Global Instance before_assembly_trans : Transitive before_assembly.
Proof. intros a b d [H1 H2] [H3 H4]. split; etransitivity; eassumption. Qed.

Lemma bind_inv {A B} (m : M A) (f : A → M B) (st st' : Runner) (r : Result B) :
  (m ≫= f) st = (r, st') →
  (∃ e, m st = (Throw e, st') ∧ r = Throw e)
  ∨ (∃ a st1, m st = (Ok a, st1) ∧ f a st1 = (r, st')).
Proof.
  rewrite bind_run. destruct (m st) as [[a | e] st1].
  - intros H. right. eauto.
  - intros [= <- <-]. left. eauto.
Qed.

(** Every effect but a [Produce] leaves the produced messages alone. *)
Ltac keep_enriched :=
  preserve_steps;
  try (unfold perform, perform_all, push_promise, push_promises;
       apply preserves_modify; intros ?;
       split; [reflexivity | split; simpl;
         rewrite ?produced_to_app, ?app_nil_r; reflexivity]).

Lemma processHeatmaps_before_assembly (c : Deps.t) :
  preserves before_assembly (processHeatmaps c).
Proof.
  intros st r st'. rewrite processHeatmaps_run. intros [= _ <-].
  destruct (heatmap_effects_observed c st) as (_ & Ho & _).
  split; [reflexivity |].
  split; simpl; rewrite produced_to_app, Ho by discriminate; apply app_nil_r.
Qed.

Lemma captureIngestionWarning_before_assembly (c : Deps.t) w d :
  preserves before_assembly (captureIngestionWarning c w d).
Proof.
  intros st r st'. rewrite captureIngestionWarning_run. intros [= _ <-].
  destruct (warning_effects_are_quiet c st w d) as (Hp & _).
  split; [reflexivity |].
  split; simpl; rewrite produced_to_app, Hp; apply app_nil_r.
Qed.

Lemma processAiEvent_before_assembly (c : Deps.t) :
  preserves before_assembly (processAiEvent c).
Proof. unfold processAiEvent. keep_enriched. Qed.

Lemma normalizeEvent_before_assembly (c : Deps.t) :
  preserves before_assembly (normalizeEvent c).
Proof. unfold normalizeEvent. keep_enriched. Qed.

Lemma processPerson_before_assembly (c : Deps.t) :
  preserves before_assembly (processPerson c).
Proof. unfold processPerson. keep_enriched. Qed.

Lemma processGroups_before_assembly (c : Deps.t) :
  preserves before_assembly (processGroups c).
Proof. unfold processGroups. keep_enriched. Qed.

Lemma trackFirstEventIngestion_before_assembly (c : Deps.t) :
  preserves before_assembly (trackFirstEventIngestion c).
Proof. unfold trackFirstEventIngestion. keep_enriched. Qed.

Lemma ends_before_assembly (c : Deps.t) (k : M unit) :
  preserves before_assembly k → ends_in_assembly c k.
Proof. intros Hk st r st' H. left. exact (Hk _ _ _ H). Qed.

Lemma ends_in_assembly_bind {A} (c : Deps.t) (m : M A) (f : A → M unit) :
  preserves before_assembly m →
  (∀ a, ends_in_assembly c (f a)) →
  ends_in_assembly c (m ≫= f).
Proof.
  intros Hm Hf st r st' H.
  apply bind_inv in H as [(e & H & ->) | (a & st1 & H1 & H)].
  - left. exact (Hm _ _ _ H).
  - pose proof (Hm _ _ _ H1) as R1.
    destruct (Hf a _ _ _ H) as [R | (st_a & R & Ha)].
    + left. etransitivity; eassumption.
    + right. exists st_a. split; [etransitivity; eassumption | exact Ha].
Qed.

Lemma assembleAndProduce_ends_in_assembly (c : Deps.t) :
  ends_in_assembly c (assembleAndProduce c).
Proof. intros st r st' H. right. exists st. split; [reflexivity | exact H]. Qed.

(** A validated event either stops short of assembly, having produced no
    enriched record, or reaches [assembleAndProduce] with the decision on
    person processing unchanged. *)
Lemma processValidatedEvent_assembles (c : Deps.t) :
  ends_in_assembly c (processValidatedEvent c).
Proof.
  unfold processValidatedEvent.
  apply ends_in_assembly_bind; [keep_enriched | intros st].
  destruct (bool_decide _).
  { apply ends_before_assembly.
    apply preserves_bind;
      [typeclasses eauto | apply normalizeEvent_before_assembly |].
    intros _. apply processHeatmaps_before_assembly. }
  apply ends_in_assembly_bind; [keep_enriched | intros _].
  apply ends_in_assembly_bind; [keep_enriched | intros [post |]];
    [| apply ends_before_assembly; keep_enriched].
  apply ends_in_assembly_bind; [keep_enriched | intros _].
  apply ends_in_assembly_bind; [keep_enriched | intros [result |]];
    [| apply ends_before_assembly; keep_enriched].
  apply ends_in_assembly_bind;
    [apply processAiEvent_before_assembly | intros _].
  apply ends_in_assembly_bind;
    [apply normalizeEvent_before_assembly | intros _].
  apply ends_in_assembly_bind;
    [apply processPerson_before_assembly | intros _].
  apply ends_in_assembly_bind;
    [apply processGroups_before_assembly | intros _].
  apply ends_in_assembly_bind;
    [apply trackFirstEventIngestion_before_assembly | intros _].
  apply ends_in_assembly_bind;
    [apply processHeatmaps_before_assembly | intros _].
  apply assembleAndProduce_ends_in_assembly.
Qed.

Lemma validatePersonProcessing_quiet
    (c : Deps.t) (st st' : Runner) (t : Team) (r : Result unit) :
  team st = Some t →
  validatePersonProcessing c st = (r, st') →
  ∃ l, trace st' = trace st ++ l ∧ quiet l.
Proof.
  intros Ht. rewrite (validatePersonProcessing_run c st t Ht).
  destruct (is_false _).
  - destruct (bool_decide _); intros [= _ <-]; exists [];
      (split; [symmetry; apply app_nil_r | apply quiet_nil]).
  - destruct (negb _ && negb _); intros [= _ <-].
    + eexists. split; [reflexivity | apply warning_effects_are_quiet].
    + exists []. split; [symmetry; apply app_nil_r | apply quiet_nil].
Qed.

(** What [assembleAndProduce] adds to the two topics of enriched records:
    nothing when assembly fails, else the assembled record, once, on one of
    them. *)
Lemma assembleAndProduce_emits
    (c : Deps.t) (st st' : Runner) (r : Result unit) :
  assembleAndProduce c st = (r, st') →
  let events tr := produced_to CLICKHOUSE_JSON_EVENTS_KAFKA_TOPIC tr in
  let exceptions tr :=
    produced_to EXCEPTIONS_SYMBOLIFICATION_KAFKA_TOPIC tr in
  same_flag st st'
  ∧ (enriched_unchanged st st'
     ∨ ∃ rec st1,
         createKafkaEvent c st = (Ok rec, st1)
         ∧ ((events (trace st') = events (trace st) ++ [record_message c rec]
             ∧ exceptions (trace st') = exceptions (trace st))
            ∨ (exceptions (trace st')
               = exceptions (trace st) ++ [record_message c rec]
               ∧ events (trace st') = events (trace st)))).
Proof.
  intros H events exceptions.
  assert (Hflag : same_flag st st').
  { revert H. unfold assembleAndProduce, produceExceptionSymbolificationEventStep,
      produceEventToKafka. keep_flag. }
  split; [exact Hflag |].
  destruct (createKafkaEvent c st) as [[rec | e'] st1] eqn:Hc.
  - destruct (createKafkaEvent_returns c st st1 rec Hc)
      as (t & p & _ & _ & _ & Hst1).
    assert (Hlog : ∀ topic,
      produced_to topic (trace st1) = produced_to topic (trace st))
      by (intros topic; rewrite Hst1; apply after_createKafkaEvent_produced).
    rewrite (assembleAndProduce_routes c st st1 rec Hc) in H.
    assert (Hevents : produceEventToKafka c rec st1 = (r, st') →
      events (trace st') = events (trace st) ++ [record_message c rec]
      ∧ exceptions (trace st') = exceptions (trace st)).
    { intros H1.
      destruct (produceEventToKafka_observed c rec st1)
        as (st2 & H2 & Hm & Ho).
      rewrite H2 in H1. injection H1 as _ <-.
      unfold events, exceptions. rewrite <- !Hlog.
      split; [exact Hm | apply Ho; discriminate]. }
    destruct (bool_decide _); [| right; exists rec, st1; auto].
    destruct (hasOwnProperty _ _) as [[] | error].
    + right. exists rec, st1. auto.
    + right. exists rec, st1. split; [reflexivity |]. right.
      destruct (produceExceptionSymbolificationEventStep_observed c rec st1)
        as (st2 & H2 & Hm & Ho).
      rewrite H2 in H. injection H as _ <-.
      unfold events, exceptions. rewrite <- !Hlog.
      split; [exact Hm | apply Ho; discriminate].
    + left. injection H as _ <-. split; apply Hlog.
  - left. unfold assembleAndProduce in H. rewrite bind_run, Hc in H.
    injection H as _ <-.
    assert (Hk : preserves before_assembly (createKafkaEvent c))
      by (unfold createKafkaEvent, deleteGroupKeys; keep_enriched).
    exact (proj2 (Hk _ _ _ Hc)).
Qed.

(** A run produces at most one enriched record, and the one it produces is a
    record [createKafkaEvent] returned, in a state whose decision on person
    processing is the one the run ends with. *)
Lemma run_enriched_record (c : Deps.t) (e : PipelineEvent) :
  let st' := snd (run c (new_EventPipelineRunnerV2 e)) in
  let events := produced_to CLICKHOUSE_JSON_EVENTS_KAFKA_TOPIC (trace st') in
  let exceptions :=
    produced_to EXCEPTIONS_SYMBOLIFICATION_KAFKA_TOPIC (trace st') in
  (events = [] ∧ exceptions = [])
  ∨ ∃ st_a rec st1,
      createKafkaEvent c st_a = (Ok rec, st1)
      ∧ shouldProcessPerson st_a = shouldProcessPerson st'
      ∧ ((events = [record_message c rec] ∧ exceptions = [])
         ∨ (exceptions = [record_message c rec] ∧ events = [])).
Proof.
  intros st' events exceptions.
  set (empty := λ st : Runner,
    produced_to CLICKHOUSE_JSON_EVENTS_KAFKA_TOPIC (trace st) = []
    ∧ produced_to EXCEPTIONS_SYMBOLIFICATION_KAFKA_TOPIC (trace st) = []).
  (* what [_run] leaves *)
  assert (Hbody : ∀ r s1,
    _run c (new_EventPipelineRunnerV2 e) = (r, s1) →
    empty s1
    ∨ ∃ st_a, empty st_a ∧ assembleAndProduce c st_a = (r, s1)).
  { intros r s1. unfold _run.
    destruct (team_lookups_are_quiet c e) as (Hq & _).
    destruct (team_resolution c e) as [[t |] | err] eqn:Hres.
    - rewrite (_run_resolved c e t _ Hres).
      rewrite bind_run, get_run. cbv beta iota.
      assert (H0 : empty (with_resolved_team c e t))
        by (split; apply Hq).
      destruct (bool_decide _).
      { rewrite captureIngestionWarning_run. intros [= _ <-]. left.
        split; unfold after_warning; simpl;
          rewrite produced_to_app, Hq,
            (proj1 (warning_effects_are_quiet c _ _ _)); reflexivity. }
      intros H.
      apply bind_inv in H as [(err & H & ->) | ([] & s2 & H2 & H)].
      { left. apply validateUuid_inv in H as [-> _]. exact H0. }
      assert (s2 = with_resolved_team c e t) as ->
        by exact (proj1 (validateUuid_inv c _ _ _ H2)).
      assert (Hval : ∀ r3 s3,
        validatePersonProcessing c (with_resolved_team c e t) = (r3, s3) →
        empty s3).
      { intros r3 s3 H3.
        destruct (validatePersonProcessing_quiet c
                    (with_resolved_team c e t) s3 t r3 eq_refl H3)
          as (l & Hl & Hlq & _).
        destruct H0 as [Hm0 Hx0].
        split; rewrite Hl, produced_to_app, Hlq, app_nil_r; assumption. }
      apply bind_inv in H as [(err & H & ->) | ([] & s3 & H3 & H)];
        [left; exact (Hval _ _ H) |].
      specialize (Hval _ _ H3). destruct Hval as [Hm3 Hx3].
      apply processValidatedEvent_assembles in H
        as [(_ & Hm & Hx) | (st_a & (_ & Hm & Hx) & H)].
      + left. split; congruence.
      + right. exists st_a. split; [split; congruence | exact H].
    - rewrite bind_run, getTeam_run.
      change (originalEvent (new_EventPipelineRunnerV2 e)) with e.
      rewrite Hres. unfold dropEvent. exec. intros [= _ <-]. left.
      split; simpl; rewrite produced_to_app, Hq; reflexivity.
    - rewrite bind_run, getTeam_run.
      change (originalEvent (new_EventPipelineRunnerV2 e)) with e.
      rewrite Hres. intros [= _ <-]. left. split; apply Hq. }
  (* what the run leaves, once [run_catch] has seen the error *)
  assert (Hcatch : ∀ err, preserves before_assembly (run_catch c err)).
  { intros err. apply run_catch_preserves; try typeclasses eauto.
    apply captureIngestionWarning_before_assembly. }
  subst st' events exceptions. unfold run, try_catch.
  destruct (_run c (new_EventPipelineRunnerV2 e)) as [r s1] eqn:Hrun.
  assert (Hend : ∃ s2, before_assembly s1 s2
    ∧ match r with
      | Ok a => (Ok a, s1)
      | Throw err => run_catch c err s1
      end.2 = s2).
  { destruct r as [[] | err]; [exists s1; split; reflexivity |].
    destruct (run_catch c err s1) as [r2 s2] eqn:Hc.
    exists s2. split; [exact (Hcatch err _ _ _ Hc) | reflexivity]. }
  destruct Hend as (s2 & (Hf2 & Hm2 & Hx2) & ->).
  destruct (Hbody r s1 eq_refl) as [[Hm Hx] | (st_a & [Hma Hxa] & Hasm)].
  - left. split; congruence.
  - destruct (assembleAndProduce_emits c st_a s1 r Hasm)
      as (Hf & [[Hm Hx] | (rec & st1 & Hrec & Hcases)]).
    + left. split; congruence.
    + right. exists st_a, rec, st1. split; [exact Hrec |].
      split; [unfold same_flag in *; congruence |].
      rewrite Hm2, Hx2, Hma, Hxa in *.
      destruct Hcases as [[-> ->] | [-> ->]]; [left | right];
        split; reflexivity.
Qed.

(** The same, for an event that passes the validations: the record, if any,
    is assembled with person processing enabled unless the value of
    [$process_person_profile] the runner decided on is [false]. *)
Lemma run_enriched_record_flag (c : Deps.t) (e : PipelineEvent) (t : Team) :
  team_resolution c e = Ok (Some t) →
  PipelineEvent.event e ≠ "$$client_ingestion_warning" →
  Deps.UUID_validateString c (PipelineEvent.uuid e) = true →
  let v :=
    effective_process_person_profile c (with_resolved_team c e t) t in
  (is_false v = true → PipelineEvent.event e ∉ person_events) →
  let st' := snd (run c (new_EventPipelineRunnerV2 e)) in
  let events := produced_to CLICKHOUSE_JSON_EVENTS_KAFKA_TOPIC (trace st') in
  let exceptions :=
    produced_to EXCEPTIONS_SYMBOLIFICATION_KAFKA_TOPIC (trace st') in
  (events = [] ∧ exceptions = [])
  ∨ ∃ st_a rec st1,
      createKafkaEvent c st_a = (Ok rec, st1)
      ∧ shouldProcessPerson st_a = negb (is_false v)
      ∧ ((events = [record_message c rec] ∧ exceptions = [])
         ∨ (exceptions = [record_message c rec] ∧ events = [])).
Proof.
  intros Hres Hname Huuid v Hev st' events exceptions.
  destruct (run_enriched_record c e) as [Hnone | (st_a & rec & st1 & Hrec & Hf & H)].
  - left. exact Hnone.
  - right. exists st_a, rec, st1. split; [exact Hrec |]. split; [| exact H].
    rewrite Hf. apply (run_flag c e t Hres Hname Huuid Hev).
Qed.

(** ** The properties on the concrete deployment *)

(** A token with an embedded null byte resolves to no team once sanitized,
    and the event is dropped as [invalid_token]. *)
Lemma C4_null_byte_token_dropped :
  team_id_unresolved Fixture.deps Fixture.null_token_event
  ∧ token_unresolved Fixture.deps Fixture.null_token_event
  ∧ fst (run Fixture.deps (new_EventPipelineRunnerV2 Fixture.null_token_event))
    = Ok ()
  ∧ drop_causes
      (trace (snd (run Fixture.deps
                     (new_EventPipelineRunnerV2 Fixture.null_token_event))))
    = ["invalid_token"].
Proof.
  assert (H1 : team_id_unresolved Fixture.deps Fixture.null_token_event)
    by (intros H; vm_compute in H; discriminate).
  assert (H2 : token_unresolved Fixture.deps Fixture.null_token_event)
    by (intros _; vm_compute; reflexivity).
  split; [exact H1 |]. split; [exact H2 |].
  destruct (C4_unresolved_team_is_dropped Fixture.deps
              Fixture.null_token_event H1 H2) as (Hrun & Hdrop & _).
  split; [rewrite Hrun; reflexivity | exact Hdrop].
Defined.

(** A client ingestion warning with a uuid that does not parse is accepted,
    and its message is queued for the team of its token. *)
Lemma C10_client_warning_accepted :
  team_resolution Fixture.deps Fixture.client_warning_event
  = Ok (Some Fixture.team_open)
  ∧ Deps.UUID_validateString Fixture.deps
      (PipelineEvent.uuid Fixture.client_warning_event) = false
  ∧ fst (run Fixture.deps
           (new_EventPipelineRunnerV2 Fixture.client_warning_event))
    = Ok ()
  ∧ queued_on KAFKA_INGESTION_WARNINGS
      (trace (snd (run Fixture.deps
         (new_EventPipelineRunnerV2 Fixture.client_warning_event))))
    = ["{source:plugin-server;team_id:2;type:client_ingestion_warning;timestamp:now;details:{message:sdk misconfigured;eventUuid:not-a-uuid;event:$$client_ingestion_warning;distinctId:d1;};}"].
Proof.
  assert (H1 : team_resolution Fixture.deps Fixture.client_warning_event
               = Ok (Some Fixture.team_open)) by (vm_compute; reflexivity).
  split; [exact H1 |]. split; [vm_compute; reflexivity |].
  destruct (C10_client_ingestion_warning_is_queued Fixture.deps
              Fixture.client_warning_event Fixture.team_open H1 eq_refl)
    as (Hrun & Hq & _).
  split; [exact Hrun |]. rewrite Hq. vm_compute. reflexivity.
Defined.


(** A pageview with a uuid that does not parse is dropped, and the warning
    names the event. *)
Lemma C5_bad_uuid_dropped :
  team_resolution Fixture.deps Fixture.bad_uuid_event
  = Ok (Some Fixture.team_open)
  ∧ PipelineEvent.event Fixture.bad_uuid_event ≠ "$$client_ingestion_warning"
  ∧ Deps.UUID_validateString Fixture.deps
      (PipelineEvent.uuid Fixture.bad_uuid_event) = false
  ∧ ToString (PipelineEvent.uuid Fixture.bad_uuid_event) = Ok "not-a-uuid"
  ∧ fst (run Fixture.deps (new_EventPipelineRunnerV2 Fixture.bad_uuid_event))
    = Throw (EventDroppedError "invalid_event_uuid"
               ("Not a valid UUID: " +:+ dquote +:+ "not-a-uuid" +:+ dquote)
               false None)
  ∧ queued_on KAFKA_INGESTION_WARNINGS
      (trace (snd (run Fixture.deps
         (new_EventPipelineRunnerV2 Fixture.bad_uuid_event))))
    = ["{source:plugin-server;team_id:2;type:invalid_event_uuid;timestamp:now;details:{eventUuid:not-a-uuid;event:$pageview;distinctId:d1;};}"].
Proof.
  assert (H1 : team_resolution Fixture.deps Fixture.bad_uuid_event
               = Ok (Some Fixture.team_open)) by (vm_compute; reflexivity).
  assert (H2 : PipelineEvent.event Fixture.bad_uuid_event
               ≠ "$$client_ingestion_warning") by (vm_compute; discriminate).
  assert (H3 : Deps.UUID_validateString Fixture.deps
                 (PipelineEvent.uuid Fixture.bad_uuid_event) = false)
    by (vm_compute; reflexivity).
  split; [exact H1 |]. split; [exact H2 |]. split; [exact H3 |].
  split; [reflexivity |].
  destruct (C5_invalid_uuid_is_dropped Fixture.deps Fixture.bad_uuid_event
              Fixture.team_open "not-a-uuid" H1 H2 H3 eq_refl)
    as (Hrun & Hq & _).
  split; [exact Hrun |]. rewrite Hq. vm_compute. reflexivity.
Defined.


(** C5 as stated fails on a client ingestion warning: its team resolves, its
    uuid does not parse, and yet the run returns normally and the one warning
    queued is not an [invalid_event_uuid] warning.  It also fails on a uuid
    that cannot be converted to a string, an object with a key named
    [toString]: building the error's message throws a [TypeError], which is
    what the run ends with, and no warning is queued. *)
Lemma C5_client_warning_not_dropped :
  (team_resolution Fixture.deps Fixture.client_warning_bad_uuid_event
   = Ok (Some Fixture.team_open)
   ∧ Deps.UUID_validateString Fixture.deps
       (PipelineEvent.uuid Fixture.client_warning_bad_uuid_event) = false
   ∧ fst (run Fixture.deps
            (new_EventPipelineRunnerV2 Fixture.client_warning_bad_uuid_event))
     = Ok ()
   ∧ queued_on KAFKA_INGESTION_WARNINGS
       (trace (snd (run Fixture.deps
          (new_EventPipelineRunnerV2 Fixture.client_warning_bad_uuid_event))))
     = ["{source:plugin-server;team_id:2;type:client_ingestion_warning;timestamp:now;details:{message:sdk misconfigured;eventUuid:7;event:$$client_ingestion_warning;distinctId:d2;};}"])
  ∧ (team_resolution Fixture.deps Fixture.unprintable_uuid_event
     = Ok (Some Fixture.team_open)
     ∧ PipelineEvent.event Fixture.unprintable_uuid_event = "$pageview"
     ∧ Deps.UUID_validateString Fixture.deps
         (PipelineEvent.uuid Fixture.unprintable_uuid_event) = false
     ∧ fst (run Fixture.deps
              (new_EventPipelineRunnerV2 Fixture.unprintable_uuid_event))
       = Throw (TypeError "Cannot convert object to primitive value")
     ∧ queued_on KAFKA_INGESTION_WARNINGS
         (trace (snd (run Fixture.deps
            (new_EventPipelineRunnerV2 Fixture.unprintable_uuid_event))))
       = []).
Proof. vm_compute. repeat split. Qed.



(** An [$identify] for the opted-out team is dropped, and kept out of the
    DLQ, although the event asks for person processing. *)
Lemma C3_opted_out_identify_dropped :
  team_resolution Fixture.deps Fixture.opted_out_identify_event
  = Ok (Some Fixture.team_opted_out)
  ∧ Team.person_processing_opt_out Fixture.team_opted_out = Some true
  ∧ Deps.UUID_validateString Fixture.deps
      (PipelineEvent.uuid Fixture.opted_out_identify_event) = true
  ∧ default ∅ (PipelineEvent.properties Fixture.opted_out_identify_event)
    !! "$process_person_profile" = Some (JBool true)
  ∧ fst (run Fixture.deps
           (new_EventPipelineRunnerV2 Fixture.opted_out_identify_event))
    = Throw (EventDroppedError
               "invalid_event_when_process_person_profile_is_false"
               ("Invalid event when process_person_profile is false: " +:+
                dquote +:+ "$identify" +:+ dquote)
               true None)
  ∧ queued_on KAFKA_INGESTION_WARNINGS
      (trace (snd (run Fixture.deps
         (new_EventPipelineRunnerV2 Fixture.opted_out_identify_event))))
    = ["{source:plugin-server;team_id:3;type:invalid_event_when_process_person_profile_is_false;timestamp:now;details:{eventUuid:018f0000-0000-7000-8000-000000000001;event:$identify;distinctId:d1;};}"].
Proof.
  assert (H1 : team_resolution Fixture.deps Fixture.opted_out_identify_event
               = Ok (Some Fixture.team_opted_out)) by (vm_compute; reflexivity).
  assert (H3 : Deps.UUID_validateString Fixture.deps
                 (PipelineEvent.uuid Fixture.opted_out_identify_event) = true)
    by (vm_compute; reflexivity).
  assert (H4 : PipelineEvent.event Fixture.opted_out_identify_event
               ≠ "$$client_ingestion_warning") by (vm_compute; discriminate).
  split; [exact H1 |]. split; [reflexivity |]. split; [exact H3 |].
  split; [vm_compute; reflexivity |].
  destruct (C3_team_opt_out_wins Fixture.deps Fixture.opted_out_identify_event
              Fixture.team_opted_out H1 eq_refl H3 H4) as (Hdrop & _).
  destruct Hdrop as (_ & Hrun & Hq & _).
  { apply (bool_decide_unpack _). vm_compute. exact I. }
  split; [exact Hrun |]. rewrite Hq. vm_compute. reflexivity.
Defined.


(** C3 as stated fails in two ways.  When the uuid does not parse, the
    [$identify] of the opted-out team is dropped as [invalid_event_uuid], and
    [doNotSendToDLQ] is not set.  And a client ingestion warning of the
    opted-out team never reaches the validation of person processing: its run
    ends with person processing enabled and the event's
    [$process_person_profile] as it came. *)
Lemma C3_bad_uuid_dropped_first :
  (team_resolution Fixture.deps Fixture.opted_out_identify_bad_uuid_event
   = Ok (Some Fixture.team_opted_out)
   ∧ Team.person_processing_opt_out Fixture.team_opted_out = Some true
   ∧ bool_decide
       (PipelineEvent.event Fixture.opted_out_identify_bad_uuid_event
        ∈ person_events) = true
   ∧ fst (run Fixture.deps
            (new_EventPipelineRunnerV2
               Fixture.opted_out_identify_bad_uuid_event))
     = Throw (EventDroppedError "invalid_event_uuid"
                ("Not a valid UUID: " +:+ dquote +:+ "not-a-uuid" +:+ dquote)
                false None))
  ∧ (team_resolution Fixture.deps Fixture.opted_out_client_warning_event
     = Ok (Some Fixture.team_opted_out)
     ∧ fst (run Fixture.deps
              (new_EventPipelineRunnerV2
                 Fixture.opted_out_client_warning_event))
       = Ok ()
     ∧ shouldProcessPerson
         (snd (run Fixture.deps
                 (new_EventPipelineRunnerV2
                    Fixture.opted_out_client_warning_event)))
       = true
     ∧ PluginEvent.properties
         (event (snd (run Fixture.deps
                        (new_EventPipelineRunnerV2
                           Fixture.opted_out_client_warning_event))))
       !! "$process_person_profile" = Some (JBool true)).
Proof. vm_compute. repeat split. Qed.


(** A pageview whose [$process_person_profile] is the string ["yes"] gets a
    warning that carries the value and goes on with person processing
    enabled. *)
Lemma C9_odd_profile_warned :
  team_resolution Fixture.deps Fixture.odd_profile_event
  = Ok (Some Fixture.team_open)
  ∧ Deps.UUID_validateString Fixture.deps
      (PipelineEvent.uuid Fixture.odd_profile_event) = true
  ∧ person_processing_overridden Fixture.deps
      (with_resolved_team Fixture.deps Fixture.odd_profile_event
         Fixture.team_open)
      Fixture.team_open = false
  ∧ shouldProcessPerson
      (snd (run Fixture.deps
              (new_EventPipelineRunnerV2 Fixture.odd_profile_event)))
    = true
  ∧ ∃ st_w,
      validatePersonProcessing Fixture.deps
        (with_resolved_team Fixture.deps Fixture.odd_profile_event
           Fixture.team_open)
      = (Ok (), st_w)
      ∧ queued_on KAFKA_INGESTION_WARNINGS (trace st_w)
        = ["{source:plugin-server;team_id:2;type:invalid_process_person_profile;timestamp:now;details:{eventUuid:018f0000-0000-7000-8000-000000000001;event:$pageview;distinctId:d1;$process_person_profile:yes;};}"]
      ∧ run Fixture.deps (new_EventPipelineRunnerV2 Fixture.odd_profile_event)
        = try_catch (processValidatedEvent Fixture.deps)
            (run_catch Fixture.deps) st_w.
Proof.
  assert (H1 : team_resolution Fixture.deps Fixture.odd_profile_event
               = Ok (Some Fixture.team_open)) by (vm_compute; reflexivity).
  assert (H2 : PipelineEvent.event Fixture.odd_profile_event
               ≠ "$$client_ingestion_warning") by (vm_compute; discriminate).
  assert (H3 : Deps.UUID_validateString Fixture.deps
                 (PipelineEvent.uuid Fixture.odd_profile_event) = true)
    by (vm_compute; reflexivity).
  assert (H4 : person_processing_overridden Fixture.deps
                 (with_resolved_team Fixture.deps Fixture.odd_profile_event
                    Fixture.team_open)
                 Fixture.team_open = false) by (vm_compute; reflexivity).
  assert (H5 : default ∅ (PipelineEvent.properties Fixture.odd_profile_event)
               !! "$process_person_profile" = Some (JStr "yes"))
    by (vm_compute; reflexivity).
  split; [exact H1 |]. split; [exact H3 |]. split; [exact H4 |].
  destruct (C9_invalid_process_person_profile_only_warns Fixture.deps
              Fixture.odd_profile_event Fixture.team_open (JStr "yes")
              H1 H2 H3 H4 H5 eq_refl eq_refl)
    as (st_w & Hval & _ & _ & Hq & _ & _ & Hrun & Hflag).
  split; [exact Hflag |]. exists st_w. split; [exact Hval |].
  split; [| exact Hrun]. rewrite Hq. vm_compute. reflexivity.
Defined.



(** C9 as stated fails: an event whose [$process_person_profile] is a number
    is not dropped.  Its run returns normally and produces an enriched record
    to the events topic. *)
Lemma C9_odd_profile_not_dropped :
  default ∅ (PipelineEvent.properties Fixture.odd_profile_event_2)
  !! "$process_person_profile" = Some (JNum 1)
  ∧ fst (run Fixture.deps
           (new_EventPipelineRunnerV2 Fixture.odd_profile_event_2))
    = Ok ()
  ∧ map fst
      (produced_to CLICKHOUSE_JSON_EVENTS_KAFKA_TOPIC
         (trace (snd (run Fixture.deps
            (new_EventPipelineRunnerV2 Fixture.odd_profile_event_2)))))
    = [Fixture.valid_uuid]
  ∧ length
      (queued_on KAFKA_INGESTION_WARNINGS
         (trace (snd (run Fixture.deps
            (new_EventPipelineRunnerV2 Fixture.odd_profile_event_2)))))
    = 1.
Proof. vm_compute. repeat split. Qed.

Lemma Fixture_normalizeProcessPerson_keeps (b : bool) :
  keeps_name (λ ev, Deps.normalizeProcessPerson Fixture.deps ev b)
  ∧ keeps_uuid (λ ev, Deps.normalizeProcessPerson Fixture.deps ev b).
Proof. split; intros ev; destruct b; reflexivity. Qed.

(** A heatmap event with two sub-events yields two records on the heatmaps
    topic and nothing on the events topic. *)
Lemma C6_heatmap_event_fast_path :
  team_resolution Fixture.deps Fixture.heatmap_event
  = Ok (Some Fixture.team_open)
  ∧ Deps.UUID_validateString Fixture.deps
      (PipelineEvent.uuid Fixture.heatmap_event) = true
  ∧ PipelineEvent.event Fixture.heatmap_event = "$$heatmap"
  ∧ produced_to CLICKHOUSE_HEATMAPS_KAFKA_TOPIC
      (trace (snd (run Fixture.deps
                     (new_EventPipelineRunnerV2 Fixture.heatmap_event))))
    = [(Fixture.valid_uuid, "click@10,20"); (Fixture.valid_uuid, "click@30,40")]
  ∧ produced_to CLICKHOUSE_JSON_EVENTS_KAFKA_TOPIC
      (trace (snd (run Fixture.deps
                     (new_EventPipelineRunnerV2 Fixture.heatmap_event))))
    = [].
Proof.
  assert (H1 : team_resolution Fixture.deps Fixture.heatmap_event
               = Ok (Some Fixture.team_open)) by (vm_compute; reflexivity).
  assert (H2 : Deps.UUID_validateString Fixture.deps
                 (PipelineEvent.uuid Fixture.heatmap_event) = true)
    by (vm_compute; reflexivity).
  split; [exact H1 |]. split; [exact H2 |]. split; [reflexivity |].
  destruct (C6_heatmap_fast_path Fixture.deps Fixture.heatmap_event
              Fixture.team_open H1 H2 eq_refl
              (λ b, proj1 (Fixture_normalizeProcessPerson_keeps b))
              (λ b, proj2 (Fixture_normalizeProcessPerson_keeps b))
              (λ ev, eq_refl))
    as (st_v & Hval & Hrun & Hheat & Hmain & _).
  rewrite Hrun. cbn [snd]. split; [| exact Hmain].
  rewrite Hheat. vm_compute in Hval. injection Hval as <-.
  vm_compute. reflexivity.
Defined.

(** A record above the broker's limit: the shared helper is called once with
    the record's uuid and distinct id, the completion resolves, and no drop
    is counted. *)
Lemma C7_oversized_record_swallowed :
  Deps.produce Fixture.deps CLICKHOUSE_JSON_EVENTS_KAFKA_TOPIC
    (RawKafkaEvent.uuid Fixture.oversized_record)
    (Deps.JSON_stringify Fixture.deps
       (RawKafkaEvent.to_js Fixture.oversized_record))
  = Rejected MessageSizeTooLarge
  ∧ ∃ st',
      produceEventToKafka Fixture.deps Fixture.oversized_record
        Fixture.set_state = (Ok (), st')
      ∧ warnings_captured (trace st')
        = [(2%Z, "message_size_too_large",
            <["eventUuid" := Fixture.valid_uuid]>
              (<["distinctId" := JStr "d1"]> ∅))]
      ∧ promises st' = [Resolved]
      ∧ drop_causes (trace st') = [].
Proof.
  assert (H1 : Deps.produce Fixture.deps CLICKHOUSE_JSON_EVENTS_KAFKA_TOPIC
                 (RawKafkaEvent.uuid Fixture.oversized_record)
                 (Deps.JSON_stringify Fixture.deps
                    (RawKafkaEvent.to_js Fixture.oversized_record))
               = Rejected MessageSizeTooLarge) by (vm_compute; reflexivity).
  split; [exact H1 |].
  destruct (C7_message_size_too_large_is_swallowed Fixture.deps
              Fixture.oversized_record Fixture.set_state MessageSizeTooLarge H1)
    as (st' & Hrun & _ & Hdrop & Hbig & _).
  destruct (Hbig eq_refl) as (Hw & Hp & _).
  exists st'. split; [exact Hrun |]. split; [exact Hw |].
  split; [exact (Hp eq_refl) | exact Hdrop].
Defined.

(** C7 as stated fails: the run of a pageview whose enriched record the
    broker refuses as too large returns normally, the record was produced
    once, the shared helper was called once, and no drop was counted, with
    cause [message_size_too_large] or any other. *)
Lemma C7_oversized_event_not_counted :
  let st' :=
    snd (run Fixture.deps (new_EventPipelineRunnerV2 Fixture.oversized_event))
  in
  fst (run Fixture.deps (new_EventPipelineRunnerV2 Fixture.oversized_event))
  = Ok ()
  ∧ map (λ m, Deps.produce Fixture.deps CLICKHOUSE_JSON_EVENTS_KAFKA_TOPIC
                m.1 m.2)
      (produced_to CLICKHOUSE_JSON_EVENTS_KAFKA_TOPIC (trace st'))
    = [Rejected MessageSizeTooLarge]
  ∧ map (λ w, (w.1.1, w.1.2)) (warnings_captured (trace st'))
    = [(2%Z, "message_size_too_large")]
  ∧ drop_causes (trace st') = [].
Proof. vm_compute. repeat split. Qed.


(** An [$exception] whose properties carry a key named [hasOwnProperty] and
    no [$sentry_event_id]: the record is assembled, the routing throws, and
    nothing reaches the exceptions topic.  The run of such an event ends with
    that error after the team's first ingestion was reported. *)
Lemma C8_exception_to_symbolification :
  PluginEvent.event (event Fixture.shadowed_exception_state) = "$exception"
  ∧ PluginEvent.properties (event Fixture.shadowed_exception_state)
    !! "$sentry_event_id" = None
  ∧ fst (assembleAndProduce Fixture.deps Fixture.shadowed_exception_state)
    = Throw (TypeError "hasOwnProperty is not a function")
  ∧ produced_to EXCEPTIONS_SYMBOLIFICATION_KAFKA_TOPIC
      (trace (snd (assembleAndProduce Fixture.deps
                     Fixture.shadowed_exception_state)))
    = []
  ∧ fst (run Fixture.deps
           (new_EventPipelineRunnerV2 Fixture.shadowed_exception_event))
    = Throw (TypeError "hasOwnProperty is not a function")
  ∧ produced_to EXCEPTIONS_SYMBOLIFICATION_KAFKA_TOPIC
      (trace (snd (run Fixture.deps
                     (new_EventPipelineRunnerV2
                        Fixture.shadowed_exception_event))))
    = [].
Proof.
  assert (H1 : createKafkaEvent Fixture.deps Fixture.shadowed_exception_state
               = (Ok (assembled_record Fixture.deps
                        Fixture.shadowed_exception_state
                        Fixture.team_open Fixture.person_known),
                  after_createKafkaEvent Fixture.deps
                    Fixture.shadowed_exception_state Fixture.team_open))
    by (vm_compute; reflexivity).
  split; [reflexivity |]. split; [vm_compute; reflexivity |].
  destruct (C8_exception_routing Fixture.deps Fixture.shadowed_exception_state
              _ _ H1 eq_refl) as (_ & Hshadowed).
  destruct Hshadowed as (Hrun & Hexc & _); [vm_compute; eauto |].
  rewrite Hrun. cbn [fst snd]. rewrite Hexc.
  split; [reflexivity |]. split; [reflexivity |].
  vm_compute. split; reflexivity.
Defined.


(** With person processing disabled and an anonymous person, the record is
    [propertyless], carries no person properties and loses its [$group_0]. *)
Lemma C1_propertyless_record :
  shouldProcessPerson Fixture.propertyless_state = false
  ∧ PluginEvent.properties (event Fixture.propertyless_state) !! "$group_0"
    = Some (JStr "acme")
  ∧ ∃ r st',
      createKafkaEvent Fixture.deps Fixture.propertyless_state = (Ok r, st')
      ∧ RawKafkaEvent.person_mode r = propertyless
      ∧ RawKafkaEvent.person_properties r = "{}"
      ∧ RawKafkaEvent.properties r = "{$browser:firefox;}".
Proof.
  split; [reflexivity |]. split; [vm_compute; reflexivity |].
  assert (H1 : createKafkaEvent Fixture.deps Fixture.propertyless_state
               = (Ok (assembled_record Fixture.deps Fixture.propertyless_state
                        Fixture.team_open Fixture.person_anonymous),
                  after_createKafkaEvent Fixture.deps
                    Fixture.propertyless_state Fixture.team_open))
    by (vm_compute; reflexivity).
  eexists _, _. split; [exact H1 |].
  destruct (C1_person_processing_disabled Fixture.deps
              Fixture.propertyless_state _ _ eq_refl H1)
    as (Hpp & _ & _ & p & Hp & Hmode).
  injection Hp as <-. split; [exact Hmode |]. split; [exact Hpp |].
  vm_compute. reflexivity.
Defined.

(** C1 as stated fails when the resolved person is flagged [force_upgrade]:
    person processing is disabled and the record's [person_mode] is
    [force_upgrade], not [propertyless].  The run of a returning user's event
    with [$process_person_profile = false] reaches that state and produces
    that record. *)
Lemma C1_force_upgrade_record :
  shouldProcessPerson Fixture.force_upgrade_state = false
  ∧ RawKafkaEvent.person_mode
      (assembled_record Fixture.deps Fixture.force_upgrade_state
         Fixture.team_open (Person.mk (Person.uuid Fixture.person_known)
                              0%Z ∅ true))
    = force_upgrade
  ∧ fst (createKafkaEvent Fixture.deps Fixture.force_upgrade_state)
    = Ok (assembled_record Fixture.deps Fixture.force_upgrade_state
            Fixture.team_open (Person.mk (Person.uuid Fixture.person_known)
                                 0%Z ∅ true))
  ∧ prop_read
      (default ∅ (PipelineEvent.properties Fixture.returning_user_event))
      "$process_person_profile" = JBool false
  ∧ produced_to CLICKHOUSE_JSON_EVENTS_KAFKA_TOPIC
      (trace (snd (run Fixture.deps
                     (new_EventPipelineRunnerV2 Fixture.returning_user_event))))
    = [(Fixture.valid_uuid,
        "{created_at:now;uuid:018f0000-0000-7000-8000-000000000001;event:$pageview;elements_chain:;team_id:2;timestamp:1700000000000;distinct_id:returning-user;person_created_at:0;person_mode:force_upgrade;person_id:018f0000-0000-7000-8000-00000000000b;person_properties:{};project_id:1;properties:{$process_person_profile:false;};}")].
Proof. vm_compute. repeat split. Qed.

(** The event's [$set] overrides the person's [plan] and keeps the
    [email]. *)
Lemma C2_set_overrides_plan :
  shouldProcessPerson Fixture.set_state = true
  ∧ ∃ r st',
      createKafkaEvent Fixture.deps Fixture.set_state = (Ok r, st')
      ∧ RawKafkaEvent.person_properties r
        = Deps.JSON_stringify Fixture.deps
            (JObj (<["plan" := JStr "pro"]>
                     (<["email" := JStr "a@example.com"]> ∅)))
      ∧ RawKafkaEvent.person_properties r = "{email:a@example.com;plan:pro;}".
Proof.
  split; [reflexivity |].
  assert (H1 : createKafkaEvent Fixture.deps Fixture.set_state
               = (Ok (assembled_record Fixture.deps Fixture.set_state
                        Fixture.team_open Fixture.person_known),
                  after_createKafkaEvent Fixture.deps Fixture.set_state
                    Fixture.team_open))
    by (vm_compute; reflexivity).
  eexists _, _. split; [exact H1 |].
  destruct (C2_person_properties_merge_set Fixture.deps Fixture.set_state
              _ _ eq_refl H1) as (p & Hp & Hpp & _).
  injection Hp as <-. rewrite Hpp. split; vm_compute; reflexivity.
Defined.

(** * Further properties of the runner *)

(** ** Errors and the team lookup *)

(** X1. [run] ends the way [_run] ends: it returns when [_run] returns and
    throws the very error [_run] throws, never another one and never
    none.  The [catch] block changes the runner only for an
    [EventDroppedError], and then by exactly one message queued on the
    ingestion warnings topic and one promise, which resolves.  The message is
    the record whose type is the error's warning code, for the team the
    runner holds (or no team), and whose details are the event's uuid,
    name and distinct id with the error's own details over them. *)
Theorem run_ends_as_its_body (c : Deps.t) (st : Runner) :
  let st1 := snd (_run c st) in
  let st' := snd (run c st) in
  fst (run c st) = fst (_run c st)
  ∧ match fst (_run c st) with
    | Throw (EventDroppedError warning _ _ details) =>
        let base : Props :=
          <["eventUuid" :=
              match PluginEvent.uuid (event st1) with
              | JStr s => JStr s
              | JUndefined => JUndefined
              | other => JStr (Deps.JSON_stringify c other)
              end]>
            (<["event" := JStr (PluginEvent.event (event st1))]>
               (<["distinctId" :=
                    JStr (PluginEvent.distinct_id (event st1))]> ∅)) in
        queued_on KAFKA_INGESTION_WARNINGS (trace st')
        = queued_on KAFKA_INGESTION_WARNINGS (trace st1)
          ++ [Deps.JSON_stringify c (JObj (list_to_map
                [ ("team_id",
                    match team st1 with
                    | Some t => JNum (Team.id t)
                    | None => JUndefined
                    end);
                  ("type", JStr warning);
                  ("source", JStr "plugin-server");
                  ("details",
                    JStr (Deps.JSON_stringify c
                            (JObj (default ∅ details ∪ base))));
                  ("timestamp",
                    JStr (Deps.castTimestampOrNow c None ClickHouse)) ]))]
        ∧ promises st' = promises st1 ++ [Resolved]
        ∧ (∀ topic, produced_to topic (trace st') = produced_to topic (trace st1))
        ∧ drop_causes (trace st') = drop_causes (trace st1)
        ∧ event st' = event st1
        ∧ team st' = team st1
        ∧ person st' = person st1
        ∧ shouldProcessPerson st' = shouldProcessPerson st1
    | _ => st' = st1
    end.
Proof.
  intros st1 st'. subst st1 st'. unfold run, try_catch.
  destruct (_run c st) as [[[] | error] st1]; [split; reflexivity |].
  unfold run_catch.
  destruct error as [warning message dlq details | | |];
    rewrite bind_run, ?captureIngestionWarning_run;
    (split; [reflexivity |]); try reflexivity.
  cbn [fst snd]. cbv zeta.
  destruct (warning_effects_quiet c st1 warning (default ∅ details))
    as (Hp & Hq & Hd & _).
  unfold after_warning. simpl.
  rewrite queued_on_app, drop_causes_app, Hq, Hd, app_nil_r,
    warning_message_explicit.
  repeat split. intros topic. rewrite produced_to_app, Hp. apply app_nil_r.
Qed.


(** X2. When the team lookup itself fails (the team manager throws), the event
    is not counted as dropped: [run] throws the team manager's error, the team
    stays unresolved, and apart from the one lookup nothing happens, in
    particular no [invalid_token] sample and no ingestion warning. *)
Theorem team_lookup_failure_is_not_a_drop
    (c : Deps.t) (e : PipelineEvent) (error : JsError) :
  team_resolution c e = Throw error →
  instanceof_EventDroppedError error = false →
  let st := new_EventPipelineRunnerV2 e in
  run c st = (Throw error, set_trace (team_lookups c e) st)
  ∧ drop_causes (team_lookups c e) = []
  ∧ (∀ topic, queued_on topic (team_lookups c e) = []).
Proof.
  intros Hres Hkind st. split.
  - unfold run, try_catch, _run. rewrite bind_run, getTeam_run.
    change (originalEvent st) with e. rewrite Hres.
    unfold run_catch. destruct error; [discriminate | | |]; reflexivity.
  - destruct (team_lookups_quiet c e) as (_ & Hq & Hd & _). split; assumption.
Qed.

(** X3. A team id on the event settles team resolution on its own: when the id
    finds no team the event is dropped as [invalid_token] without the token
    ever being looked up, whatever team the token belongs to. *)
Theorem team_id_takes_precedence_over_token (c : Deps.t) (e : PipelineEvent) :
  truthy_number (PipelineEvent.team_id e) = true →
  Deps.fetchTeam c (default 0%Z (PipelineEvent.team_id e)) = Ok None →
  let st := new_EventPipelineRunnerV2 e in
  run c st =
    (Ok (),
     set_trace
       [FetchTeam (default 0%Z (PipelineEvent.team_id e));
        EventDroppedCounterInc "analytics" "invalid_token"]
       st).
Proof.
  intros Hid Hnone st.
  unfold run, try_catch, _run. rewrite bind_run, getTeam_run.
  change (originalEvent st) with e.
  unfold team_resolution, team_lookups. rewrite Hid, Hnone.
  unfold dropEvent. exec. reflexivity.
Qed.

(** ** Ingestion warnings *)

(** X4. [captureIngestionWarning] is fire-and-forget.  It never throws; it
    queues exactly one message on the ingestion warnings topic and collects
    exactly one promise, which resolves even when the broker rejects the
    message (the rejection is only logged).  It produces nothing, counts no
    drop and leaves the event, the team and the decision on person processing
    as they were. *)
Theorem captureIngestionWarning_is_fire_and_forget
    (c : Deps.t) (warning : string) (details : Props) (st : Runner) :
  ∃ st',
    captureIngestionWarning c warning details st = (Ok (), st')
    ∧ promises st' = promises st ++ [Resolved]
    ∧ queued_on KAFKA_INGESTION_WARNINGS (trace st')
      = queued_on KAFKA_INGESTION_WARNINGS (trace st)
        ++ [warning_message c st warning details]
    ∧ (∀ topic, produced_to topic (trace st') = produced_to topic (trace st))
    ∧ drop_causes (trace st') = drop_causes (trace st)
    ∧ event st' = event st
    ∧ team st' = team st
    ∧ shouldProcessPerson st' = shouldProcessPerson st
    ∧ (∀ error,
         Deps.queueMessages c KAFKA_INGESTION_WARNINGS
           (warning_message c st warning details) = Rejected error →
         last (trace st')
         = Some (StatusWarn "Failed to produce ingestion warning")).
Proof.
  exists (after_warning c warning details st).
  destruct (warning_effects_quiet c st warning details) as (Hp & Hq & Hd & _).
  split; [apply captureIngestionWarning_run |].
  unfold after_warning. simpl.
  rewrite queued_on_app, drop_causes_app, Hq, Hd, app_nil_r.
  repeat split.
  - intros topic. rewrite produced_to_app, Hp. apply app_nil_r.
  - intros error Hrej. unfold warning_effects. rewrite Hrej. simpl.
    apply last_Some.
    exists (trace st ++ [QueueMessages KAFKA_INGESTION_WARNINGS
                           (warning_message c st warning details)]).
    rewrite <- app_assoc. reflexivity.
Qed.

(** X5. The message [captureIngestionWarning] queues is the record of the
    warning's type for the team the runner holds, stamped by the plugin
    server.  Its details are the event's uuid, name and distinct id with the
    caller's details over them: a key the caller gives overrides the
    runner's own, every other key of the three is the runner's.  A uuid that
    is not a string is passed through [JSON.stringify]. *)
Theorem warning_details_caller_wins
    (c : Deps.t) (st : Runner) (warning : string) (details : Props) :
  let base : Props :=
    <["eventUuid" :=
        match PluginEvent.uuid (event st) with
        | JStr s => JStr s
        | JUndefined => JUndefined
        | other => JStr (Deps.JSON_stringify c other)
        end]>
      (<["event" := JStr (PluginEvent.event (event st))]>
         (<["distinctId" := JStr (PluginEvent.distinct_id (event st))]> ∅)) in
  ∃ merged : Props,
    queued_on KAFKA_INGESTION_WARNINGS
      (trace (snd (captureIngestionWarning c warning details st)))
    = queued_on KAFKA_INGESTION_WARNINGS (trace st)
      ++ [Deps.JSON_stringify c (JObj (list_to_map
            [ ("team_id",
                match team st with
                | Some t => JNum (Team.id t)
                | None => JUndefined
                end);
              ("type", JStr warning);
              ("source", JStr "plugin-server");
              ("details", JStr (Deps.JSON_stringify c (JObj merged)));
              ("timestamp",
                JStr (Deps.castTimestampOrNow c None ClickHouse)) ]))]
    ∧ ∀ k, merged !! k
           = match details !! k with
             | Some v => Some v
             | None => base !! k
             end.
Proof.
  intros base. exists (details ∪ base).
  rewrite captureIngestionWarning_run. unfold after_warning. simpl.
  destruct (warning_effects_quiet c st warning details) as (_ & Hq & _).
  rewrite queued_on_app, Hq, warning_message_explicit.
  split; [reflexivity |].
  intros k. rewrite lookup_union.
  destruct (details !! k), (base !! k); reflexivity.
Qed.


(** ** Assembly: the IP address, the group keys and the elements chain *)

Lemma group_key_inj (i j : Z) : group_key i = group_key j → i = j.
Proof.
  unfold group_key. intros H. simpl in H. injection H as H.
  exact (inj pretty _ _ H).
Qed.

Lemma group_key_not_ip (i : Z) : group_key i ≠ "$ip".
Proof. unfold group_key. simpl. discriminate. Qed.

Lemma strip_group_keys_lookup (n : nat) (p : Props) (i : Z) :
  strip_group_keys n p !! group_key i
  = if bool_decide (0 ≤ i < Z.of_nat n)%Z then None else p !! group_key i.
Proof.
  unfold strip_group_keys.
  rewrite (lookup_delete_all (λ i, group_key (Z.of_nat i))).
  destruct (decide (0 ≤ i < Z.of_nat n)%Z) as [Hi | Hi].
  - rewrite !bool_decide_eq_true_2; [reflexivity | exact Hi |].
    apply list_elem_of_fmap. exists (Z.to_nat i). split.
    + f_equal. lia.
    + apply elem_of_seq. lia.
  - rewrite !bool_decide_eq_false_2; [reflexivity | exact Hi |].
    intros Hin. apply list_elem_of_fmap in Hin as (k & Hk & Hin).
    apply group_key_inj in Hk. apply elem_of_seq in Hin. lia.
Qed.

(** X6. [createKafkaEvent] removes [$ip] from the event exactly when the value
    is truthy and the team anonymizes IPs: a falsy [$ip] (an empty string,
    [0], [null]) stays in the bag even for an anonymizing team.  The
    serialized properties of the record are those of the event afterwards, and
    no key other than [$ip] and the group keys is touched. *)
Theorem createKafkaEvent_anonymizes_ip
    (c : Deps.t) (st st' : Runner) (r : RawKafkaEvent) :
  createKafkaEvent c st = (Ok r, st') →
  let before := PluginEvent.properties (event st) in
  let after := PluginEvent.properties (event st') in
  ∃ t, team st = Some t
    ∧ RawKafkaEvent.properties r = Deps.JSON_stringify c (JObj after)
    ∧ after !! "$ip"
      = (if truthy (prop_read before "$ip") && Team.anonymize_ips t
         then None else before !! "$ip")
    ∧ (∀ k, k ≠ "$ip" → String.prefix "$group_" k = false →
         after !! k = before !! k).
Proof.
  intros Hrun before after.
  destruct (createKafkaEvent_returns c st st' r Hrun)
    as (t & p & Ht & Hp & -> & ->).
  exists t. split; [exact Ht |]. split; [reflexivity |].
  subst after. unfold after_createKafkaEvent. simpl. split.
  - assert (Hanon : anonymized_properties st t !! "$ip"
              = if truthy (prop_read before "$ip") && Team.anonymize_ips t
                then None else before !! "$ip").
    { unfold anonymized_properties. fold before.
      destruct (_ && _); [apply lookup_delete_eq | reflexivity]. }
    unfold assembled_properties. destruct (shouldProcessPerson st).
    + exact Hanon.
    + rewrite strip_group_keys_other; [exact Hanon |].
      intros i Hi. exact (group_key_not_ip i (eq_sym Hi)).
  - intros k Hip Hgroup. apply assembled_properties_other; assumption.
Qed.

(** X7. The group keys of the enriched record.  With person processing enabled
    [createKafkaEvent] keeps every [$group_<i>] the event carries.  With
    person processing disabled it deletes [$group_<i>] for the indices
    [0 ≤ i < MAX_GROUP_TYPES_PER_TEAM] only: a key with a larger (or
    negative) index stays in the record. *)
Theorem createKafkaEvent_group_keys
    (c : Deps.t) (st st' : Runner) (r : RawKafkaEvent) :
  createKafkaEvent c st = (Ok r, st') →
  ∀ i : Z,
    PluginEvent.properties (event st') !! group_key i
    = if shouldProcessPerson st then
        PluginEvent.properties (event st) !! group_key i
      else if bool_decide
                (0 ≤ i < Z.of_nat (Deps.MAX_GROUP_TYPES_PER_TEAM c))%Z
      then None
      else PluginEvent.properties (event st) !! group_key i.
Proof.
  intros Hrun i.
  destruct (createKafkaEvent_returns c st st' r Hrun)
    as (t & p & Ht & Hp & -> & ->).
  unfold after_createKafkaEvent, assembled_properties. simpl.
  destruct (shouldProcessPerson st).
  - apply anonymized_properties_other, group_key_not_ip.
  - rewrite strip_group_keys_lookup.
    rewrite anonymized_properties_other by apply group_key_not_ip.
    reflexivity.
Qed.

(** X8. A failure of [getElementsChain] does not stop the assembly: the record
    is returned with the elements chain of the empty string, the error is
    reported ([captureException]) and logged, and nothing else changes. *)
Theorem createKafkaEvent_survives_elements_failure
    (c : Deps.t) (st : Runner) (t : Team) (p : Person) (error : JsError) :
  team st = Some t →
  person st = Some p →
  Deps.getElementsChain c (anonymized_properties st t) = Throw error →
  ∃ r st',
    createKafkaEvent c st = (Ok r, st')
    ∧ RawKafkaEvent.elements_chain r = Deps.safeClickhouseString c EmptyString
    ∧ trace st'
      = trace st ++ [CaptureException error;
                     StatusWarn "Failed to process elements"]
    ∧ promises st' = promises st
    ∧ RawKafkaEvent.event r
      = Deps.safeClickhouseString c (PluginEvent.event (event st))
    ∧ RawKafkaEvent.uuid r = PluginEvent.uuid (event st).
Proof.
  intros Ht Hp Hfail. eexists _, _.
  split; [apply (createKafkaEvent_run c st t p Ht Hp) |].
  unfold assembled_record, after_createKafkaEvent, elements_chain_of,
    elements_chain_log.
  simpl. rewrite Hfail. repeat split.
Qed.

(** ** Heatmap data on any event *)

(** X9. [processHeatmaps] never throws and always removes [$heatmap_data] from
    the event, leaving every other property alone.  What it produces goes to
    the heatmaps topic only: one record per extracted sub-event, keyed by the
    event's uuid. *)
Theorem processHeatmaps_strips_heatmap_data (c : Deps.t) (st : Runner) :
  ∃ st',
    processHeatmaps c st = (Ok (), st')
    ∧ PluginEvent.properties (event st') !! "$heatmap_data" = None
    ∧ (∀ k, k ≠ "$heatmap_data" →
         PluginEvent.properties (event st') !! k
         = PluginEvent.properties (event st) !! k)
    ∧ produced_to CLICKHOUSE_HEATMAPS_KAFKA_TOPIC (trace st')
      = produced_to CLICKHOUSE_HEATMAPS_KAFKA_TOPIC (trace st)
        ++ map (λ rawEvent,
                  (PluginEvent.uuid (event st), Deps.JSON_stringify c rawEvent))
               (extracted_heatmaps c (team st) (event st))
    ∧ (∀ topic, topic ≠ CLICKHOUSE_HEATMAPS_KAFKA_TOPIC →
         produced_to topic (trace st') = produced_to topic (trace st))
    ∧ drop_causes (trace st') = drop_causes (trace st)
    ∧ shouldProcessPerson st' = shouldProcessPerson st.
Proof.
  exists (after_heatmaps c st). split; [apply processHeatmaps_run |].
  destruct (heatmap_effects_observed c st) as (Hh & Ho & Hd & _).
  unfold after_heatmaps. simpl.
  rewrite produced_to_app, drop_causes_app, Hh, Hd, app_nil_r.
  repeat split.
  - apply lookup_delete_eq.
  - intros k Hk. apply lookup_delete_ne. congruence.
  - intros topic Hne. rewrite produced_to_app, Ho by exact Hne.
    apply app_nil_r.
Qed.

(** X10. For a team that opted out of heatmaps ([heatmaps_opt_in = false])
    [processHeatmaps] does not look at the data at all: nothing is produced,
    no warning is queued even when the data is malformed, no promise is
    collected; [$heatmap_data] is still removed. *)
Theorem processHeatmaps_respects_opt_out
    (c : Deps.t) (st : Runner) (t : Team) :
  team st = Some t →
  Team.heatmaps_opt_in t = Some false →
  processHeatmaps c st
  = (Ok (),
     set_properties
       (delete "$heatmap_data" (PluginEvent.properties (event st))) st).
Proof.
  intros Ht Hout. rewrite processHeatmaps_run.
  unfold after_heatmaps, heatmap_promises, heatmap_effects, heatmaps_enabled.
  rewrite Ht, Hout. rewrite bool_decide_eq_true_2 by reflexivity.
  cbn [negb]. rewrite !app_nil_r.
  destruct st; reflexivity.
Qed.

(** X11. When heatmaps are enabled and the extraction of the heatmap data
    throws, the failure is contained: [processHeatmaps] returns normally,
    produces no heatmap record, and queues one message on the ingestion
    warnings topic.  The message is the [invalid_heatmap_data] record of the
    runner's team, and the [eventUuid] of its details is the event's uuid as
    it is, not passed through [JSON.stringify] (the caller's detail overrides
    the runner's).  [$heatmap_data] is removed all the same. *)
Theorem processHeatmaps_contains_extraction_failure
    (c : Deps.t) (st : Runner) (error : JsError) :
  heatmaps_enabled (team st) = true →
  Deps.extractHeatmapData c (event st) = Throw error →
  let details : Props :=
    <["eventUuid" := PluginEvent.uuid (event st)]>
      (<["event" := JStr (PluginEvent.event (event st))]>
         (<["distinctId" := JStr (PluginEvent.distinct_id (event st))]> ∅)) in
  ∃ st',
    processHeatmaps c st = (Ok (), st')
    ∧ queued_on KAFKA_INGESTION_WARNINGS (trace st')
      = queued_on KAFKA_INGESTION_WARNINGS (trace st)
        ++ [Deps.JSON_stringify c (JObj (list_to_map
              [ ("team_id",
                  match team st with
                  | Some t => JNum (Team.id t)
                  | None => JUndefined
                  end);
                ("type", JStr "invalid_heatmap_data");
                ("source", JStr "plugin-server");
                ("details", JStr (Deps.JSON_stringify c (JObj details)));
                ("timestamp",
                  JStr (Deps.castTimestampOrNow c None ClickHouse)) ]))]
    ∧ (∀ topic, produced_to topic (trace st') = produced_to topic (trace st))
    ∧ promises st' = promises st ++ [Resolved]
    ∧ PluginEvent.properties (event st')
      = delete "$heatmap_data" (PluginEvent.properties (event st))
    ∧ st' = set_properties
              (delete "$heatmap_data" (PluginEvent.properties (event st)))
              (after_warning c "invalid_heatmap_data"
                 {[ "eventUuid" := PluginEvent.uuid (event st) ]} st).
Proof.
  intros Hon Hfail details.
  set (d := {[ "eventUuid" := PluginEvent.uuid (event st) ]} : Props).
  exists (set_properties
            (delete "$heatmap_data" (PluginEvent.properties (event st)))
            (after_warning c "invalid_heatmap_data" d st)).
  split.
  { rewrite processHeatmaps_run.
    unfold after_heatmaps, heatmap_promises, heatmap_effects.
    rewrite Hon, Hfail. reflexivity. }
  destruct (warning_effects_quiet c st "invalid_heatmap_data" d)
    as (Hp & Hq & _).
  unfold after_warning. simpl.
  rewrite queued_on_app, Hq, warning_message_explicit.
  split; [| repeat split].
  - unfold d. rewrite <- insert_union_singleton_l, insert_insert_eq.
    reflexivity.
  - intros topic. rewrite produced_to_app, Hp. apply app_nil_r.
Qed.


(** ** Producing to the exceptions topic *)

(** X12. When the producer rejects an exception record, whatever the error
    ([MessageSizeTooLarge] included), [produceExceptionSymbolificationEventStep]
    logs the failure and hands the rejection on: the promise it collects
    rejects with the same error, and no ingestion warning is queued.  The
    call itself returns normally. *)
Theorem exception_produce_failure_is_handed_on
    (c : Deps.t) (r : RawKafkaEvent) (st : Runner) (error : JsError) :
  Deps.produce c EXCEPTIONS_SYMBOLIFICATION_KAFKA_TOPIC
    (RawKafkaEvent.uuid r) (Deps.JSON_stringify c (RawKafkaEvent.to_js r))
  = Rejected error →
  ∃ st',
    produceExceptionSymbolificationEventStep c r st = (Ok (), st')
    ∧ promises st' = promises st ++ [Rejected error]
    ∧ trace st'
      = trace st
        ++ [Produce EXCEPTIONS_SYMBOLIFICATION_KAFKA_TOPIC
              (RawKafkaEvent.uuid r)
              (Deps.JSON_stringify c (RawKafkaEvent.to_js r));
            StatusWarn
              "Failed to produce exception event for symbolification"]
    ∧ queued_on KAFKA_INGESTION_WARNINGS (trace st')
      = queued_on KAFKA_INGESTION_WARNINGS (trace st)
    ∧ drop_causes (trace st') = drop_causes (trace st).
Proof.
  intros Hrej.
  pose proof (produceExceptionSymbolificationEventStep_run c r st) as Hrun.
  unfold record_message in Hrun. cbv zeta in Hrun. rewrite Hrej in Hrun.
  eexists. split; [exact Hrun |]. simpl.
  rewrite queued_on_app, drop_causes_app. simpl. rewrite !app_nil_r.
  repeat split.
Qed.

(** ** AI events *)

Lemma processAiEvent_run (c : Deps.t) (st : Runner) :
  processAiEvent c st
  = (Ok (),
     if is_ai_event (PluginEvent.event (event st)) then
       match Deps.processAiEvent c (event st) with
       | Ok e => set_event e st
       | Throw error =>
           set_trace (trace st ++ [CaptureException error; StatusError error])
             st
       end
     else st).
Proof.
  unfold processAiEvent, is_ai_event. rewrite bind_run, get_run.
  cbv beta iota.
  destruct (_ || _); [| reflexivity].
  destruct st as [oe t ps e spp ts p tr]. exec.
  destruct (Deps.processAiEvent c e); exec; rewrite <- ?app_assoc; reflexivity.
Qed.

(** X13. [processAiEvent] never throws and never stops the pipeline.  It
    leaves the runner untouched for every event that is not an
    [$ai_generation] or an [$ai_embedding].  For those two, a failure of the
    processing keeps the event as it was and is only reported and logged.  In
    no case is anything produced, queued or counted as dropped, and team,
    promises and the decision on person processing stay as they were. *)
Theorem processAiEvent_never_blocks (c : Deps.t) (st : Runner) :
  ∃ st',
    processAiEvent c st = (Ok (), st')
    ∧ (is_ai_event (PluginEvent.event (event st)) = false → st' = st)
    ∧ (∀ error, Deps.processAiEvent c (event st) = Throw error →
         event st' = event st)
    ∧ (∀ topic, produced_to topic (trace st') = produced_to topic (trace st))
    ∧ (∀ topic, queued_on topic (trace st') = queued_on topic (trace st))
    ∧ drop_causes (trace st') = drop_causes (trace st)
    ∧ team st' = team st
    ∧ promises st' = promises st
    ∧ shouldProcessPerson st' = shouldProcessPerson st.
Proof.
  eexists. split; [apply processAiEvent_run |].
  destruct (is_ai_event _); [| repeat split; discriminate].
  destruct (Deps.processAiEvent c (event st)) as [e' | err]; simpl.
  - repeat split; discriminate.
  - repeat split; try discriminate.
    + intros topic. rewrite produced_to_app. apply app_nil_r.
    + intros topic. rewrite queued_on_app. apply app_nil_r.
    + rewrite drop_causes_app. apply app_nil_r.
Qed.

(** ** After validation: transformations, the skip list, the decision *)

(** The run of an event that passes every validation continues from the
    state validation leaves. *)
Lemma run_after_validation
    (c : Deps.t) (e : PipelineEvent) (t : Team) (st_v : Runner) :
  team_resolution c e = Ok (Some t) →
  PipelineEvent.event e ≠ "$$client_ingestion_warning" →
  Deps.UUID_validateString c (PipelineEvent.uuid e) = true →
  validatePersonProcessing c (with_resolved_team c e t) = (Ok (), st_v) →
  run c (new_EventPipelineRunnerV2 e)
  = try_catch (processValidatedEvent c) (run_catch c) st_v.
Proof.
  intros Hres Hname Huuid Hval.
  unfold run, try_catch. rewrite (_run_validated c e t Hres Hname Huuid).
  rewrite bind_run, Hval. reflexivity.
Qed.

(** The trace validation leaves counts no drop and produces nothing. *)
Lemma validated_trace_quiet
    (c : Deps.t) (e : PipelineEvent) (t : Team) (r : Result unit)
    (st_v : Runner) :
  validatePersonProcessing c (with_resolved_team c e t) = (r, st_v) →
  quiet (trace st_v).
Proof.
  intros Hval.
  destruct (validatePersonProcessing_quiet c (with_resolved_team c e t)
              st_v t r eq_refl Hval) as (l & -> & Hl).
  apply quiet_app; [apply team_lookups_are_quiet | exact Hl].
Qed.

(** The transformations a validated event goes through first, when one of
    them drops it. *)
Lemma processValidatedEvent_dropped (c : Deps.t) (st : Runner)
    (post : option PluginEvent) :
  PluginEvent.event (event st) ≠ "$$heatmap" →
  Deps.cookielessProcessEvent c (event st) = Ok post →
  (post = None
   ∨ Deps.transformEventAndProduceMessages c (event st) = Ok None) →
  processValidatedEvent c st
  = (Ok (),
     set_trace
       (trace st ++
        CookielessProcessEvent (event st) ::
        match post with
        | None => [DroppedEventFromTransformationsCounterInc]
        | Some _ =>
            [TransformEvent (event st);
             DroppedEventFromTransformationsCounterInc]
        end) st).
Proof.
  intros Hname Hcookie Hdrop. unfold processValidatedEvent.
  rewrite bind_run, get_run. cbv beta iota.
  rewrite bool_decide_eq_false_2 by exact Hname.
  destruct st as [oe t ps e spp ts p tr]. exec. simpl in Hcookie, Hdrop.
  rewrite Hcookie. destruct post as [post |]; exec.
  - destruct Hdrop as [? | ->]; [discriminate |]. exec.
    rewrite <- !app_assoc. reflexivity.
  - rewrite <- !app_assoc. reflexivity.
Qed.

(** X14. When the cookieless manager returns no event for a validated event, the
    run ends there and returns normally: one sample is added to the counter
    of events dropped by transformations, the transformer is never called,
    no drop cause is counted, nothing is produced and no ingestion warning is
    added to the ones validation queued. *)
Theorem cookieless_drop_ends_the_run
    (c : Deps.t) (e : PipelineEvent) (t : Team) (st_v : Runner) :
  team_resolution c e = Ok (Some t) →
  PipelineEvent.event e ≠ "$$client_ingestion_warning" →
  Deps.UUID_validateString c (PipelineEvent.uuid e) = true →
  validatePersonProcessing c (with_resolved_team c e t) = (Ok (), st_v) →
  PluginEvent.event (event st_v) ≠ "$$heatmap" →
  Deps.cookielessProcessEvent c (event st_v) = Ok None →
  let st' :=
    set_trace
      (trace st_v ++
       [CookielessProcessEvent (event st_v);
        DroppedEventFromTransformationsCounterInc]) st_v in
  run c (new_EventPipelineRunnerV2 e) = (Ok (), st')
  ∧ drop_causes (trace st') = []
  ∧ (∀ topic, produced_to topic (trace st') = []).
Proof.
  intros Hres Hname Huuid Hval Hheat Hcookie st'.
  destruct (validated_trace_quiet c e t _ st_v Hval) as (Hp & Hd & _).
  split; [| split].
  - rewrite (run_after_validation c e t st_v Hres Hname Huuid Hval).
    unfold try_catch.
    rewrite (processValidatedEvent_dropped c st_v None Hheat Hcookie)
      by (left; reflexivity).
    reflexivity.
  - unfold st'. simpl. rewrite drop_causes_app, Hd. reflexivity.
  - intros topic. unfold st'. simpl. rewrite produced_to_app, Hp. reflexivity.
Qed.

(** X15. When the transformer returns no event for a validated event, the run
    ends there and returns normally, with one sample on the counter of events
    dropped by transformations: no person or group processing follows, no drop
    cause is counted and nothing is produced.  The transformer is called on
    the runner's own event, not on the one the cookieless manager returned. *)
Theorem transformer_drop_ends_the_run
    (c : Deps.t) (e : PipelineEvent) (t : Team) (st_v : Runner)
    (post : PluginEvent) :
  team_resolution c e = Ok (Some t) →
  PipelineEvent.event e ≠ "$$client_ingestion_warning" →
  Deps.UUID_validateString c (PipelineEvent.uuid e) = true →
  validatePersonProcessing c (with_resolved_team c e t) = (Ok (), st_v) →
  PluginEvent.event (event st_v) ≠ "$$heatmap" →
  Deps.cookielessProcessEvent c (event st_v) = Ok (Some post) →
  Deps.transformEventAndProduceMessages c (event st_v) = Ok None →
  let st' :=
    set_trace
      (trace st_v ++
       [CookielessProcessEvent (event st_v);
        TransformEvent (event st_v);
        DroppedEventFromTransformationsCounterInc]) st_v in
  run c (new_EventPipelineRunnerV2 e) = (Ok (), st')
  ∧ drop_causes (trace st') = []
  ∧ (∀ topic, produced_to topic (trace st') = []).
Proof.
  intros Hres Hname Huuid Hval Hheat Hcookie Htrans st'.
  destruct (validated_trace_quiet c e t _ st_v Hval) as (Hp & Hd & _).
  split; [| split].
  - rewrite (run_after_validation c e t st_v Hres Hname Huuid Hval).
    unfold try_catch.
    rewrite (processValidatedEvent_dropped c st_v (Some post) Hheat Hcookie)
      by (right; exact Htrans).
    reflexivity.
  - unfold st'. simpl. rewrite drop_causes_app, Hd. reflexivity.
  - intros topic. unfold st'. simpl. rewrite produced_to_app, Hp. reflexivity.
Qed.

(** X16. The skip list switches person processing off the way the team's
    opt-out does.  Take an event other than a client ingestion warning,
    with a valid uuid and a resolved team, whose distinct id is on the skip
    list of its token.  The validation of person processing sets the event's
    [$process_person_profile] to [false], whatever the event carried and
    whatever the team's setting.  A person event ([$identify],
    [$create_alias], [$merge_dangerously], [$groupidentify]) is then dropped:
    [run] raises [EventDroppedError] with warning code
    [invalid_event_when_process_person_profile_is_false] and
    [doNotSendToDLQ = true], after queueing the warning record of that code.
    For any other event the validation returns with person processing
    switched off, and the run ends with it switched off. *)
Theorem skip_list_switches_person_processing_off
    (c : Deps.t) (e : PipelineEvent) (t : Team)
    (token : string) (ids : list string) :
  team_resolution c e = Ok (Some t) →
  Deps.UUID_validateString c (PipelineEvent.uuid e) = true →
  PipelineEvent.event e ≠ "$$client_ingestion_warning" →
  PipelineEvent.token e = Some token →
  Deps.eventsToSkipPersonsProcessingByToken c !! token = Some ids →
  PipelineEvent.distinct_id e ∈ ids →
  let st := with_resolved_team c e t in
  let forced :=
    PluginEvent.with_properties (event st)
      (<["$process_person_profile" := JBool false]>
         (PluginEvent.properties (event st))) in
  let st' := snd (run c (new_EventPipelineRunnerV2 e)) in
  (PipelineEvent.event e ∈ person_events →
     let error :=
       EventDroppedError
         "invalid_event_when_process_person_profile_is_false"
         ("Invalid event when process_person_profile is false: " +:+
          dquote +:+ PipelineEvent.event e +:+ dquote)
         true None in
     let details : Props :=
       <["eventUuid" :=
           match PipelineEvent.uuid e with
           | JStr s => JStr s
           | JUndefined => JUndefined
           | other => JStr (Deps.JSON_stringify c other)
           end]>
         (<["event" := JStr (PipelineEvent.event e)]>
            (<["distinctId" := JStr (PipelineEvent.distinct_id e)]> ∅)) in
     validatePersonProcessing c st = (Throw error, set_event forced st)
     ∧ fst (run c (new_EventPipelineRunnerV2 e)) = Throw error
     ∧ queued_on KAFKA_INGESTION_WARNINGS (trace st')
       = [Deps.JSON_stringify c (JObj (list_to_map
            [ ("team_id", JNum (Team.id t));
              ("type",
                JStr "invalid_event_when_process_person_profile_is_false");
              ("source", JStr "plugin-server");
              ("details", JStr (Deps.JSON_stringify c (JObj details)));
              ("timestamp",
                JStr (Deps.castTimestampOrNow c None ClickHouse)) ]))]
     ∧ (∀ topic, produced_to topic (trace st') = [])
     ∧ drop_causes (trace st') = [])
  ∧ (PipelineEvent.event e ∉ person_events →
     validatePersonProcessing c st
     = (Ok (),
        set_shouldProcessPerson false
          (set_event (Deps.normalizeProcessPerson c forced false) st))
     ∧ shouldProcessPerson st' = false).
Proof.
  intros Hres Huuid Hname Htoken Hids Hin st forced st'.
  destruct (with_resolved_team_event c e t) as (Hn & Hu & Hdid & _).
  fold st in Hn, Hu, Hdid.
  assert (Hskip : on_skip_list c st = true).
  { unfold on_skip_list. change (originalEvent st) with e.
    rewrite Htoken. simpl. rewrite Hids.
    apply bool_decide_eq_true_2. exact Hin. }
  assert (Hover : person_processing_overridden c st t = true).
  { unfold person_processing_overridden. rewrite Hskip. apply orb_true_r. }
  assert (Hv : effective_process_person_profile c st t = JBool false).
  { unfold effective_process_person_profile, validated_event.
    rewrite Hover. simpl. unfold prop_read. rewrite lookup_insert_eq.
    reflexivity. }
  pose proof (validatePersonProcessing_run c st t eq_refl) as Hval.
  cbv zeta in Hval. rewrite Hv, Hn in Hval. cbn [is_false] in Hval.
  unfold validated_event in Hval. rewrite Hover in Hval.
  change (with_process_person_profile_false (event st)) with forced in Hval.
  split.
  - intros Hperson error details.
    rewrite bool_decide_eq_true_2 in Hval by exact Hperson.
    assert (Hrun : run c (new_EventPipelineRunnerV2 e)
              = (Throw error,
                 after_warning c
                   "invalid_event_when_process_person_profile_is_false" ∅
                   (set_event forced st))).
    { unfold run, try_catch.
      rewrite (_run_validated c e t Hres Hname Huuid).
      rewrite bind_run. fold st. rewrite Hval.
      unfold invalid_person_event_error, run_catch.
      rewrite bind_run, captureIngestionWarning_run. reflexivity. }
    split; [exact Hval |]. subst st'. rewrite Hrun. cbn [fst snd].
    destruct (after_warning_observed c e t (set_event forced st)
                "invalid_event_when_process_person_profile_is_false" ∅
                eq_refl eq_refl) as (Hq & Hp & Hd & _).
    split; [reflexivity |]. split; [| split; assumption].
    rewrite Hq, warning_message_explicit.
    change (PluginEvent.uuid (event (set_event forced st)))
      with (PluginEvent.uuid (event st)).
    change (PluginEvent.event (event (set_event forced st)))
      with (PluginEvent.event (event st)).
    change (PluginEvent.distinct_id (event (set_event forced st)))
      with (PluginEvent.distinct_id (event st)).
    rewrite Hn, Hu, Hdid, (left_id_L ∅ (∪)). reflexivity.
  - intros Hnotin.
    rewrite bool_decide_eq_false_2 in Hval by exact Hnotin.
    split; [exact Hval |]. subst st'.
    rewrite (run_flag c e t Hres Hname Huuid).
    + fold st. rewrite Hv. reflexivity.
    + intros _. exact Hnotin.
Qed.



(** X17. Only the boolean [false] switches person processing off.  Take an
    event that reaches the validation of person processing (resolved team,
    not a client ingestion warning, valid uuid), that is not overridden by
    the team's opt-out or the skip list, and that is not a person event
    ([$identify], [$create_alias], [$merge_dangerously], [$groupidentify]).
    Its run ends with person processing disabled exactly when the event's own
    [$process_person_profile] is the boolean [false]: an absent value,
    [true], [null], [0] or the string ["false"] all leave it enabled. *)
Theorem only_false_disables_person_processing
    (c : Deps.t) (e : PipelineEvent) (t : Team) :
  team_resolution c e = Ok (Some t) →
  PipelineEvent.event e ≠ "$$client_ingestion_warning" →
  Deps.UUID_validateString c (PipelineEvent.uuid e) = true →
  Team.person_processing_opt_out t ≠ Some true →
  (∀ token ids,
     PipelineEvent.token e = Some token →
     Deps.eventsToSkipPersonsProcessingByToken c !! token = Some ids →
     PipelineEvent.distinct_id e ∉ ids) →
  PipelineEvent.event e ∉ person_events →
  shouldProcessPerson (snd (run c (new_EventPipelineRunnerV2 e)))
  = negb (is_false
            (prop_read (default ∅ (PipelineEvent.properties e))
               "$process_person_profile")).
Proof.
  intros Hres Hname Huuid Hout Hskip Hnotin.
  assert (Hover :
    person_processing_overridden c (with_resolved_team c e t) t = false).
  { unfold person_processing_overridden, on_skip_list.
    rewrite bool_decide_eq_false_2 by exact Hout. cbn [orb].
    change (originalEvent (with_resolved_team c e t)) with e.
    destruct (PipelineEvent.token e) as [token |] eqn:Htoken;
      [| reflexivity].
    simpl.
    destruct (Deps.eventsToSkipPersonsProcessingByToken c !! token)
      as [ids |] eqn:Hids; [| reflexivity].
    apply bool_decide_eq_false_2. apply (Hskip token ids eq_refl Hids). }
  rewrite (run_flag c e t Hres Hname Huuid) by (intros _; exact Hnotin).
  unfold effective_process_person_profile, validated_event. rewrite Hover.
  destruct (with_resolved_team_event c e t) as (_ & _ & _ & ->).
  reflexivity.
Qed.


(** ** The enriched record of a run *)

(** X18. Whatever the event and however the run ends, a run produces at most one
    enriched record, counting the events topic and the exceptions topic
    together. *)
Theorem run_produces_at_most_one_enriched_record
    (c : Deps.t) (e : PipelineEvent) :
  let tr := trace (snd (run c (new_EventPipelineRunnerV2 e))) in
  length (produced_to CLICKHOUSE_JSON_EVENTS_KAFKA_TOPIC tr
          ++ produced_to EXCEPTIONS_SYMBOLIFICATION_KAFKA_TOPIC tr) ≤ 1.
Proof.
  intros tr. subst tr.
  destruct (run_enriched_record c e)
    as [[-> ->] | (st_a & rec & st1 & _ & _ & [[-> ->] | [-> ->]])];
    simpl; lia.
Qed.

(** X19. An assembled record of an event that is not named [$exception] always
    goes to the events topic, with or without a [$sentry_event_id], and to no
    other topic; its production adds exactly one promise to the ones the
    consumer awaits. *)
Theorem ordinary_events_go_to_the_events_topic
    (c : Deps.t) (st st1 : Runner) (r : RawKafkaEvent) :
  createKafkaEvent c st = (Ok r, st1) →
  PluginEvent.event (event st) ≠ "$exception" →
  ∃ st2,
    assembleAndProduce c st = (Ok (), st2)
    ∧ produced_to CLICKHOUSE_JSON_EVENTS_KAFKA_TOPIC (trace st2)
      = produced_to CLICKHOUSE_JSON_EVENTS_KAFKA_TOPIC (trace st)
        ++ [record_message c r]
    ∧ (∀ topic, topic ≠ CLICKHOUSE_JSON_EVENTS_KAFKA_TOPIC →
         produced_to topic (trace st2) = produced_to topic (trace st))
    ∧ length (promises st2) = S (length (promises st)).
Proof.
  intros Hrun Hname.
  destruct (createKafkaEvent_returns c st st1 r Hrun)
    as (t & p & Ht & Hp & Hr & Hst1).
  assert (Hlog : ∀ topic,
    produced_to topic (trace st1) = produced_to topic (trace st))
    by (intros topic; rewrite Hst1; apply after_createKafkaEvent_produced).
  assert (Hps : promises st1 = promises st) by (rewrite Hst1; reflexivity).
  rewrite (assembleAndProduce_routes c st st1 r Hrun).
  rewrite bool_decide_eq_false_2 by exact Hname.
  destruct (produceEventToKafka_observed c r st1) as (st2 & H2 & Hm & Ho).
  exists st2. split; [exact H2 |]. rewrite Hm, Hlog.
  split; [reflexivity |]. split.
  - intros topic Hne. rewrite (Ho topic Hne). apply Hlog.
  - pose proof (produceEventToKafka_run c r st1) as Hfull.
    unfold record_message in Hfull. cbv zeta in Hfull.
    rewrite Hfull in H2. injection H2 as <-. simpl.
    rewrite length_app, Hps. simpl. lia.
Qed.


(** ** Groups *)

Lemma group_calls_app tr1 tr2 :
  group_calls (tr1 ++ tr2) = group_calls tr1 ++ group_calls tr2.
Proof. apply omap_app. Qed.

Lemma group_upserts_app tr1 tr2 :
  group_upserts (tr1 ++ tr2) = group_upserts tr1 ++ group_upserts tr2.
Proof. apply omap_app. Qed.

Lemma group_lookups_calls (t : Team) (groups : list (string * JsValue)) :
  group_calls (group_lookups t groups) = group_lookups t groups
  ∧ group_upserts (group_lookups t groups) = [].
Proof.
  induction groups as [| [g v] l [IH1 IH2]]; [split; reflexivity |].
  split; simpl; [f_equal; exact IH1 | exact IH2].
Qed.

(** A key no group of the list is assigned to keeps its value. *)
Lemma assign_groups_other (c : Deps.t) (t : Team)
    (groups : list (string * JsValue)) (p : Props) (k : string) :
  (∀ g v i, (g, v) ∈ groups → group_type_index c t (JStr g) = Some i →
     k ≠ group_key i) →
  assign_groups c t groups p !! k = p !! k.
Proof.
  revert p. induction groups as [| [g v] l IH]; intros p Hk; [reflexivity |].
  unfold assign_groups in *. simpl. rewrite IH.
  - destruct (group_type_index c t (JStr g)) as [i |] eqn:Hi; [| reflexivity].
    apply lookup_insert_ne. intros Heq.
    exact (Hk g v i (list_elem_of_here _ _) Hi (eq_sym Heq)).
  - intros g' v' i' Hin. apply (Hk g' v' i'). by apply list_elem_of_further.
Qed.

(** The key of a column only one group of the list has carries that group's
    identifier. *)
Lemma assign_groups_set (c : Deps.t) (t : Team)
    (groups : list (string * JsValue)) (p : Props)
    (g : string) (v : JsValue) (i : Z) :
  NoDup groups.*1 →
  (g, v) ∈ groups →
  group_type_index c t (JStr g) = Some i →
  (∀ g' v', (g', v') ∈ groups → g' ≠ g →
     group_type_index c t (JStr g') ≠ Some i) →
  assign_groups c t groups p !! group_key i = Some v.
Proof.
  revert p. induction groups as [| [g0 v0] l IH]; intros p Hnd Hin Hi Huniq.
  - inversion Hin.
  - apply NoDup_cons in Hnd as [Hfresh Hnd].
    apply elem_of_cons in Hin as [[= <- <-] | Hin].
    + change (assign_groups c t ((g, v) :: l) p)
        with (assign_groups c t l
                match group_type_index c t (JStr g) with
                | Some columnIndex => <[group_key columnIndex := v]> p
                | None => p
                end).
      rewrite Hi. rewrite assign_groups_other; [apply lookup_insert_eq |].
      intros g' v' i' Hin' Hi' Hkey. apply group_key_inj in Hkey as ->.
      destruct (decide (g' = g)) as [-> | Hne].
      * apply Hfresh. apply list_elem_of_fmap. exists (g, v'). by split.
      * exact (Huniq g' v' (list_elem_of_further _ _ _ Hin') Hne Hi').
    + change (assign_groups c t ((g0, v0) :: l) p)
        with (assign_groups c t l
                match group_type_index c t (JStr g0) with
                | Some columnIndex => <[group_key columnIndex := v0]> p
                | None => p
                end).
      apply IH; [exact Hnd | exact Hin | exact Hi |].
      intros g' v' Hin'. apply (Huniq g' v'). by apply list_elem_of_further.
Qed.

(** The loop of [processGroups] over a list of groups whose lookups all
    return. *)
Lemma group_loop_run (c : Deps.t) (t : Team)
    (groups : list (string * JsValue)) (st : Runner) :
  (∀ g v, (g, v) ∈ groups →
     ∃ i, Deps.fetchGroupTypeIndex c (Team.id t) (Team.project_id t) (JStr g)
          = Ok i) →
  for_each groups
    (λ '(groupType, groupIdentifier),
       perform (FetchGroupTypeIndex (Team.id t) (Team.project_id t)
                  (JStr groupType));;
       columnIndex ← call (Deps.fetchGroupTypeIndex c
                             (Team.id t) (Team.project_id t)
                             (JStr groupType));
       match columnIndex with
       | Some columnIndex =>
           modify (λ st,
             set_properties
               (<[group_key columnIndex := groupIdentifier]>
                  (PluginEvent.properties (event st))) st)
       | None => mret ()
       end) st
  = (Ok (),
     set_properties
       (assign_groups c t groups (PluginEvent.properties (event st)))
       (set_trace (trace st ++ group_lookups t groups) st)).
Proof.
  revert st. induction groups as [| [g v] l IH]; intros st Hret.
  - simpl. rewrite app_nil_r. destruct st as [oe t0 ps [] spp ts p tr].
    reflexivity.
  - destruct (Hret g v (list_elem_of_here _ _)) as [i Hi].
    cbn [for_each]. rewrite bind_run.
    assert (Hstep :
      (perform (FetchGroupTypeIndex (Team.id t) (Team.project_id t) (JStr g));;
       columnIndex ← call (Deps.fetchGroupTypeIndex c
                             (Team.id t) (Team.project_id t) (JStr g));
       match columnIndex with
       | Some columnIndex =>
           modify (λ st,
             set_properties
               (<[group_key columnIndex := v]>
                  (PluginEvent.properties (event st))) st)
       | None => mret ()
       end) st
      = (Ok (),
         set_properties
           (assign_groups c t [(g, v)] (PluginEvent.properties (event st)))
           (set_trace (trace st ++ group_lookups t [(g, v)]) st))).
    { unfold assign_groups, group_type_index, group_lookups. simpl.
      destruct st as [oe t0 ps [] spp ts p tr]. exec. rewrite Hi.
      destruct i; reflexivity. }
    rewrite Hstep. rewrite IH by (intros g' v' Hin; apply (Hret g' v');
                                   by apply list_elem_of_further).
    destruct st as [oe t0 ps [] spp ts p tr]. simpl.
    rewrite <- app_assoc. reflexivity.
Qed.

Lemma group_lookups_return_list (c : Deps.t) (t : Team) (p : Props) :
  group_lookups_return c t p →
  ∀ g v, (g, v) ∈ map_to_list (event_groups p) →
    ∃ i, Deps.fetchGroupTypeIndex c (Team.id t) (Team.project_id t) (JStr g)
         = Ok i.
Proof.
  intros Hret g v Hin. apply elem_of_map_to_list in Hin.
  apply Hret. eauto.
Qed.

(** [processGroups] from the loop on, for a runner that processes persons. *)
Lemma processGroups_run (c : Deps.t) (st : Runner) (t : Team) :
  shouldProcessPerson st = true →
  team st = Some t →
  group_lookups_return c t (PluginEvent.properties (event st)) →
  let st2 := after_group_columns c t st in
  let properties := PluginEvent.properties (event st2) in
  processGroups c st
  = if bool_decide (PluginEvent.event (event st) = "$groupidentify") then
      if truthy (prop_read properties "$group_type")
         && truthy (prop_read properties "$group_key")
      then
        let groupType := prop_read properties "$group_type" in
        let lookup :=
          FetchGroupTypeIndex (Team.id t) (Team.project_id t) groupType in
        match Deps.fetchGroupTypeIndex c (Team.id t) (Team.project_id t)
                groupType with
        | Ok (Some groupTypeIndex) =>
            match toString (prop_read properties "$group_key") with
            | Ok key =>
                (Deps.upsertGroup c (Team.id t) (Team.project_id t)
                   groupTypeIndex key
                   (js_or (prop_read properties "$group_set") (JObj ∅))
                   (timestamp st),
                 set_trace
                   (trace st2 ++
                    [lookup;
                     UpsertGroup (Team.id t) (Team.project_id t)
                       groupTypeIndex key
                       (js_or (prop_read properties "$group_set") (JObj ∅))])
                   st2)
            | Throw error =>
                (Throw error, set_trace (trace st2 ++ [lookup]) st2)
            end
        | Ok None => (Ok (), set_trace (trace st2 ++ [lookup]) st2)
        | Throw error => (Throw error, set_trace (trace st2 ++ [lookup]) st2)
        end
      else (Ok (), st2)
    else (Ok (), st2).
Proof.
  intros Hflag Ht Hret st2 properties.
  unfold processGroups. rewrite bind_run, get_run. cbv beta iota.
  rewrite Hflag, Ht. cbn [negb nonnull]. rewrite bind_run.
  change ((mret t : M Team) st) with (Ok t, st). cbv beta iota.
  rewrite bind_run.
  fold (event_groups (PluginEvent.properties (event st))).
  rewrite (group_loop_run c t _ st
             (group_lookups_return_list c t _ Hret)).
  change (set_properties _ _) with st2.
  rewrite bind_run, get_run. cbv beta iota.
  assert (Hname : PluginEvent.event (event st2) = PluginEvent.event (event st))
    by reflexivity.
  assert (Hts : timestamp st2 = timestamp st) by reflexivity.
  rewrite Hname, Hts. fold properties.
  destruct (bool_decide _); [| reflexivity].
  destruct (truthy (prop_read properties "$group_type")); [| reflexivity].
  destruct (truthy (prop_read properties "$group_key")); [| reflexivity].
  cbn [negb orb andb]. cbv zeta.
  generalize dependent st2. intros st2 properties _ _.
  destruct st2 as [oe t0 ps e spp ts p tr]. exec.
  destruct (Deps.fetchGroupTypeIndex c _ _ _) as [[i |] | error]; exec;
    try reflexivity.
  destruct (toString _) as [key | error]; exec; [| reflexivity].
  destruct (Deps.upsertGroup c _ _ _ _ _ _); exec;
    rewrite <- ?app_assoc; reflexivity.
Qed.


(** X20. For an event with person processing enabled whose group type lookups
    all return, [processGroups] looks up each group type of [$groups] once and
    writes the group's identifier under [$group_<index>] for every type that
    has a column index.  A type without an index (a new type beyond the team's
    limit) writes nothing, and every key that is not the column of one of the
    event's groups keeps its value.  Unless the event is a [$groupidentify],
    no group is upserted. *)
Theorem processGroups_assigns_group_columns
    (c : Deps.t) (st : Runner) (t : Team) :
  shouldProcessPerson st = true →
  team st = Some t →
  PluginEvent.event (event st) ≠ "$groupidentify" →
  group_lookups_return c t (PluginEvent.properties (event st)) →
  let before := PluginEvent.properties (event st) in
  let groups := event_groups before in
  ∃ st',
    processGroups c st = (Ok (), st')
    ∧ group_calls (trace st')
      = group_calls (trace st) ++ group_lookups t (map_to_list groups)
    ∧ group_upserts (trace st') = group_upserts (trace st)
    ∧ (∀ g v i,
         groups !! g = Some v →
         group_type_index c t (JStr g) = Some i →
         (∀ g', g' ≠ g → is_Some (groups !! g') →
            group_type_index c t (JStr g') ≠ Some i) →
         PluginEvent.properties (event st') !! group_key i = Some v)
    ∧ (∀ k,
         (∀ g i, is_Some (groups !! g) →
            group_type_index c t (JStr g) = Some i → k ≠ group_key i) →
         PluginEvent.properties (event st') !! k = before !! k).
Proof.
  intros Hflag Ht Hname Hret before groups.
  exists (after_group_columns c t st). split.
  - rewrite (processGroups_run c st t Hflag Ht Hret). cbv zeta.
    rewrite bool_decide_eq_false_2 by exact Hname. reflexivity.
  - unfold after_group_columns. simpl. fold before. fold groups.
    destruct (group_lookups_calls t (map_to_list groups)) as [Hc Hu].
    rewrite group_calls_app, group_upserts_app, Hc, Hu, app_nil_r.
    split; [reflexivity |]. split; [reflexivity |]. split.
    + intros g v i Hg Hi Huniq.
      apply (assign_groups_set c t _ _ g v i).
      * apply NoDup_fst_map_to_list.
      * by apply elem_of_map_to_list.
      * exact Hi.
      * intros g' v' Hin Hne. apply (Huniq g' Hne).
        apply elem_of_map_to_list in Hin. eauto.
    + intros k Hk. apply assign_groups_other.
      intros g v i Hin. apply (Hk g i).
      apply elem_of_map_to_list in Hin. eauto.
Qed.

(** X21. A [$groupidentify] with person processing enabled upserts at most
    one group, and exactly when, once the group columns are written, both
    [$group_type] and [$group_key] are truthy, the type has a column index
    and the key's [toString()] returns.  The upsert then carries the key as a
    string and [$group_set], or the empty object when [$group_set] is falsy,
    and [processGroups] ends as the upsert ends.  When the key's
    [toString()] throws (an object with an own key [toString]),
    [processGroups] throws that error after the type lookup and upserts
    nothing.  When the type has no column index nothing is upserted, and
    when the type or the key is missing the event is not an error:
    [processGroups] returns normally without a further lookup. *)
Theorem groupidentify_upserts_the_group
    (c : Deps.t) (st : Runner) (t : Team) :
  shouldProcessPerson st = true →
  team st = Some t →
  PluginEvent.event (event st) = "$groupidentify" →
  group_lookups_return c t (PluginEvent.properties (event st)) →
  let st2 := after_group_columns c t st in
  let properties := PluginEvent.properties (event st2) in
  let groupType := prop_read properties "$group_type" in
  let groupKey := prop_read properties "$group_key" in
  let groupPropertiesToSet :=
    js_or (prop_read properties "$group_set") (JObj ∅) in
  let lookup :=
    FetchGroupTypeIndex (Team.id t) (Team.project_id t) groupType in
  let index :=
    Deps.fetchGroupTypeIndex c (Team.id t) (Team.project_id t) groupType in
  let st' := snd (processGroups c st) in
  PluginEvent.properties (event st') = properties
  ∧ (truthy groupType && truthy groupKey = false →
     processGroups c st = (Ok (), st2))
  ∧ (truthy groupType && truthy groupKey = true →
     (∀ i key, index = Ok (Some i) → toString groupKey = Ok key →
        let upsert :=
          UpsertGroup (Team.id t) (Team.project_id t) i key
            groupPropertiesToSet in
        processGroups c st
        = (Deps.upsertGroup c (Team.id t) (Team.project_id t) i key
             groupPropertiesToSet (timestamp st),
           set_trace (trace st2 ++ [lookup; upsert]) st2)
        ∧ group_upserts (trace st') = group_upserts (trace st) ++ [upsert])
     ∧ (∀ i error, index = Ok (Some i) → toString groupKey = Throw error →
          processGroups c st
          = (Throw error, set_trace (trace st2 ++ [lookup]) st2)
          ∧ group_upserts (trace st') = group_upserts (trace st))
     ∧ (index = Ok None →
          processGroups c st = (Ok (), set_trace (trace st2 ++ [lookup]) st2)
          ∧ group_upserts (trace st') = group_upserts (trace st))
     ∧ (∀ error, index = Throw error →
          processGroups c st
          = (Throw error, set_trace (trace st2 ++ [lookup]) st2)
          ∧ group_upserts (trace st') = group_upserts (trace st))).
Proof.
  intros Hflag Ht Hname Hret st2 properties groupType groupKey
    groupPropertiesToSet lookup index st'.
  subst st'. rewrite (processGroups_run c st t Hflag Ht Hret). cbv zeta.
  rewrite bool_decide_eq_true_2 by exact Hname.
  fold st2. fold properties. fold groupType. fold groupKey.
  fold groupPropertiesToSet. fold lookup. fold index.
  assert (Hst2 : group_upserts (trace st2) = group_upserts (trace st)).
  { unfold st2, after_group_columns. simpl.
    rewrite group_upserts_app, (proj2 (group_lookups_calls t _)).
    apply app_nil_r. }
  destruct (truthy groupType && truthy groupKey).
  - split.
    { destruct index as [[i |] | error]; [| reflexivity | reflexivity].
      destruct (toString groupKey); reflexivity. }
    split; [discriminate |]. intros _.
    split; [| split; [| split]].
    + intros i key -> ->. cbv zeta. split; [reflexivity |].
      cbn [snd trace set_trace]. rewrite group_upserts_app, Hst2.
      reflexivity.
    + intros i error -> ->. split; [reflexivity |].
      cbn [snd trace set_trace]. rewrite group_upserts_app, Hst2.
      apply app_nil_r.
    + intros ->. split; [reflexivity |].
      cbn [snd trace set_trace]. rewrite group_upserts_app, Hst2.
      apply app_nil_r.
    + intros error ->. split; [reflexivity |].
      cbn [snd trace set_trace]. rewrite group_upserts_app, Hst2.
      apply app_nil_r.
  - split; [reflexivity |]. split; [reflexivity | discriminate].
Qed.

(** ** No group processing without person processing *)

Global Instance stays_without_groups_refl : Reflexive stays_without_groups.
Proof. intros st Hf. split; [exact Hf | reflexivity]. Qed.

Global Instance stays_without_groups_trans : Transitive stays_without_groups.
Proof.
  intros a b d Hab Hbd Hf. destruct (Hab Hf) as [Hb Hab'].
  destruct (Hbd Hb) as [Hd Hbd']. split; [exact Hd | congruence].
Qed.

Lemma no_identity_processing_no_group_calls (l : list Effect) :
  forallb (λ x, negb (is_identity_processing x)) l = true →
  group_calls l = [].
Proof.
  induction l as [| x l IH]; intros Hi; [reflexivity |].
  simpl in Hi. apply andb_prop in Hi as [Hx Hl]. specialize (IH Hl).
  destruct x; try discriminate Hx; exact IH.
Qed.

Lemma quiet_no_group_calls (l : list Effect) : quiet l → group_calls l = [].
Proof. intros (_ & _ & Hi). exact (no_identity_processing_no_group_calls l Hi). Qed.

Lemma heatmap_effects_no_group_calls (c : Deps.t) (st : Runner) :
  group_calls (heatmap_effects c st) = [].
Proof.
  destruct (heatmap_effects_observed c st) as (_ & _ & _ & Hi).
  exact (no_identity_processing_no_group_calls _ Hi).
Qed.

Lemma processGroups_skipped (c : Deps.t) (st : Runner) :
  shouldProcessPerson st = false → processGroups c st = (Ok (), st).
Proof.
  intros Hflag. unfold processGroups. rewrite bind_run, get_run.
  cbv beta iota. rewrite Hflag. reflexivity.
Qed.

Lemma processGroups_without_groups (c : Deps.t) :
  preserves stays_without_groups (processGroups c).
Proof.
  intros st r st' Hrun Hflag. rewrite (processGroups_skipped c st Hflag) in Hrun.
  injection Hrun as _ <-. split; [exact Hflag | reflexivity].
Qed.

Lemma processHeatmaps_without_groups (c : Deps.t) :
  preserves stays_without_groups (processHeatmaps c).
Proof.
  intros st r st'. rewrite processHeatmaps_run. intros [= _ <-] Hflag.
  split; [exact Hflag |]. unfold after_heatmaps. simpl.
  rewrite group_calls_app, heatmap_effects_no_group_calls. apply app_nil_r.
Qed.

Lemma captureIngestionWarning_without_groups (c : Deps.t) w d :
  preserves stays_without_groups (captureIngestionWarning c w d).
Proof.
  intros st r st'. rewrite captureIngestionWarning_run. intros [= _ <-] Hflag.
  split; [exact Hflag |]. unfold after_warning. simpl.
  rewrite group_calls_app,
    (quiet_no_group_calls _ (warning_effects_are_quiet c st w d)).
  apply app_nil_r.
Qed.

(** Every effect but a call into group processing keeps their list. *)
Ltac keep_without_groups :=
  preserve_steps;
  try (unfold perform, perform_all, push_promise, push_promises;
       apply preserves_modify; intros ? ?;
       split; [assumption |
               simpl; rewrite ?group_calls_app, ?app_nil_r; reflexivity]).

Lemma processValidatedEvent_without_groups (c : Deps.t) :
  preserves stays_without_groups (processValidatedEvent c).
Proof.
  assert (Hbind : ∀ (m k : M unit),
    preserves stays_without_groups m → preserves stays_without_groups k →
    preserves stays_without_groups (m;; k)).
  { intros m k Hm Hk. apply preserves_bind; try typeclasses eauto;
      [exact Hm | intros _; exact Hk]. }
  unfold processValidatedEvent.
  apply preserves_bind; try typeclasses eauto; [keep_without_groups |].
  intros st. destruct (bool_decide _).
  { apply Hbind; [unfold normalizeEvent; keep_without_groups |
                  apply processHeatmaps_without_groups]. }
  apply Hbind; [keep_without_groups |].
  apply preserves_bind; try typeclasses eauto; [keep_without_groups |].
  intros [post |]; [| keep_without_groups].
  apply Hbind; [keep_without_groups |].
  apply preserves_bind; try typeclasses eauto; [keep_without_groups |].
  intros [result |]; [| keep_without_groups].
  apply Hbind; [unfold processAiEvent; keep_without_groups |].
  apply Hbind; [unfold normalizeEvent; keep_without_groups |].
  apply Hbind; [unfold processPerson; keep_without_groups |].
  apply Hbind; [apply processGroups_without_groups |].
  apply Hbind; [unfold trackFirstEventIngestion; keep_without_groups |].
  apply Hbind; [apply processHeatmaps_without_groups |].
  unfold assembleAndProduce, createKafkaEvent, deleteGroupKeys,
    produceExceptionSymbolificationEventStep, produceEventToKafka.
  keep_without_groups.
Qed.

(** What [_run] leaves on the way to the validated event: a trace without
    calls into group processing. *)
Lemma _run_without_groups (c : Deps.t) (e : PipelineEvent) (r : Result unit)
    (s1 : Runner) :
  _run c (new_EventPipelineRunnerV2 e) = (r, s1) →
  shouldProcessPerson s1 = false →
  group_calls (trace s1) = [].
Proof.
  unfold _run.
  pose proof (quiet_no_group_calls _ (team_lookups_are_quiet c e)) as Hq.
  destruct (team_resolution c e) as [[t |] | err] eqn:Hres.
  - rewrite (_run_resolved c e t _ Hres).
    rewrite bind_run, get_run. cbv beta iota.
    destruct (bool_decide _).
    { rewrite captureIngestionWarning_run. intros [= _ <-] _.
      unfold after_warning. simpl.
      rewrite group_calls_app, Hq,
        (quiet_no_group_calls _ (warning_effects_are_quiet c _ _ _)).
      reflexivity. }
    intros H.
    apply bind_inv in H as [(err & H & ->) | ([] & s2 & H2 & H)].
    { apply validateUuid_inv in H as [-> _]. intros _. exact Hq. }
    assert (s2 = with_resolved_team c e t) as ->
      by exact (proj1 (validateUuid_inv c _ _ _ H2)).
    apply bind_inv in H as [(err & H & ->) | ([] & s3 & H3 & H)].
    { intros _.
      exact (quiet_no_group_calls _ (validated_trace_quiet c e t _ s1 H)). }
    pose proof (quiet_no_group_calls _ (validated_trace_quiet c e t _ s3 H3))
      as Hq3.
    intros Hflag.
    pose proof (processValidatedEvent_flag c _ _ _ H) as Hsame.
    unfold same_flag in Hsame.
    destruct (processValidatedEvent_without_groups c _ _ _ H) as [_ Hg];
      congruence.
  - rewrite bind_run, getTeam_run.
    change (originalEvent (new_EventPipelineRunnerV2 e)) with e.
    rewrite Hres. unfold dropEvent. exec. intros [= _ <-] _. simpl.
    rewrite group_calls_app, Hq. reflexivity.
  - rewrite bind_run, getTeam_run.
    change (originalEvent (new_EventPipelineRunnerV2 e)) with e.
    rewrite Hres. intros [= _ <-] _. exact Hq.
Qed.

(** X22. A run that ends with person processing disabled has made no call into
    group processing: no group type was looked up and no group was upserted,
    whatever [$groups] the event carried. *)
Theorem no_group_processing_without_person_processing
    (c : Deps.t) (e : PipelineEvent) :
  shouldProcessPerson (snd (run c (new_EventPipelineRunnerV2 e))) = false →
  group_calls (trace (snd (run c (new_EventPipelineRunnerV2 e)))) = [].
Proof.
  unfold run, try_catch.
  destruct (_run c (new_EventPipelineRunnerV2 e)) as [[[] | error] s1] eqn:Hrun.
  - exact (_run_without_groups c e _ s1 Hrun).
  - destruct (run_catch c error s1) as [r2 s2] eqn:Hcatch. cbn [snd].
    intros Hflag.
    pose proof (run_catch_preserves same_flag c error
                  (captureIngestionWarning_flag c) _ _ _ Hcatch) as Hsame.
    unfold same_flag in Hsame.
    assert (Hflag1 : shouldProcessPerson s1 = false) by congruence.
    destruct (run_catch_preserves stays_without_groups c error
                (captureIngestionWarning_without_groups c) _ _ _ Hcatch Hflag1)
      as [_ ->].
    exact (_run_without_groups c e _ s1 Hrun Hflag1).
Qed.

(** ** What a run that returns has done *)

Lemma run_catch_run (c : Deps.t) (error : JsError) (st : Runner) :
  run_catch c error st
  = (Throw error,
     match error with
     | EventDroppedError w _ _ details =>
         after_warning c w (default ∅ details) st
     | _ => st
     end).
Proof.
  unfold run_catch.
  destruct error; rewrite bind_run, ?captureIngestionWarning_run; reflexivity.
Qed.

(** The steps of a validated event from [processAiEvent] on: when they
    return, the record was assembled and produced. *)
Lemma enrichment_returns (c : Deps.t) (st s1 : Runner) :
  (processAiEvent c;; normalizeEvent c;; processPerson c;; processGroups c;;
   trackFirstEventIngestion c;; processHeatmaps c;; assembleAndProduce c) st
  = (Ok (), s1) →
  ∃ st_a, before_assembly st st_a ∧ assembleAndProduce c st_a = (Ok (), s1).
Proof.
  intros H.
  apply bind_inv in H as [(? & _ & [=]) | ([] & s2 & H2 & H)].
  apply processAiEvent_before_assembly in H2.
  apply bind_inv in H as [(? & _ & [=]) | ([] & s3 & H3 & H)].
  apply normalizeEvent_before_assembly in H3.
  apply bind_inv in H as [(? & _ & [=]) | ([] & s4 & H4 & H)].
  apply processPerson_before_assembly in H4.
  apply bind_inv in H as [(? & _ & [=]) | ([] & s5 & H5 & H)].
  apply processGroups_before_assembly in H5.
  apply bind_inv in H as [(? & _ & [=]) | ([] & s6 & H6 & H)].
  apply trackFirstEventIngestion_before_assembly in H6.
  apply bind_inv in H as [(? & _ & [=]) | ([] & s7 & H7 & H)].
  apply processHeatmaps_before_assembly in H7.
  exists s7. split; [| exact H].
  repeat (etransitivity; [eassumption |]). reflexivity.
Qed.

(** A validated event whose processing returns took the heatmap path, was
    dropped by a transformation, or had its record assembled and produced. *)
Lemma processValidatedEvent_returns (c : Deps.t) (st s1 : Runner) :
  processValidatedEvent c st = (Ok (), s1) →
  (PluginEvent.event (event st) = "$$heatmap"
   ∧ s1 = after_heatmaps c (after_normalizeEvent c st))
  ∨ DroppedEventFromTransformationsCounterInc ∈ trace s1
  ∨ ∃ st_a, before_assembly st st_a ∧ assembleAndProduce c st_a = (Ok (), s1).
Proof.
  unfold processValidatedEvent. rewrite bind_run, get_run. cbv beta iota.
  destruct (bool_decide _) eqn:Hheat.
  { rewrite bind_run, normalizeEvent_run, processHeatmaps_run.
    intros [= <-]. left. split; [| reflexivity].
    exact (bool_decide_eq_true_1 _ Hheat). }
  intros H. right.
  assert (Hperf : ∀ x, match x with Produce _ _ _ => False | _ => True end →
    preserves before_assembly (perform x)).
  { intros x Hx. unfold perform. apply preserves_modify. intros s.
    split; [reflexivity |].
    split; simpl; rewrite produced_to_app; destruct x;
      first [contradiction | apply app_nil_r]. }
  apply bind_inv in H as [(? & _ & [=]) | ([] & s2 & H2 & H)].
  apply (Hperf (CookielessProcessEvent (event st)) I) in H2.
  apply bind_inv in H as [(? & _ & [=]) | (post & s3 & H3 & H)].
  apply (preserves_call before_assembly) in H3.
  destruct post as [post |].
  - apply bind_inv in H as [(? & _ & [=]) | ([] & s4 & H4 & H)].
    apply (Hperf (TransformEvent (event st)) I) in H4.
    apply bind_inv in H as [(? & _ & [=]) | (result & s5 & H5 & H)].
    apply (preserves_call before_assembly) in H5.
    destruct result as [result |].
    + right. apply enrichment_returns in H as (st_a & Ha & H).
      exists st_a. split; [| exact H].
      repeat (etransitivity; [eassumption |]). reflexivity.
    + left. injection H as <-. simpl. apply elem_of_app. right.
      apply list_elem_of_here.
  - left. injection H as <-. simpl. apply elem_of_app. right.
    apply list_elem_of_here.
Qed.

(** When [assembleAndProduce] returns, it has added one record to exactly
    one of the two topics of enriched records. *)
Lemma assembleAndProduce_returns (c : Deps.t) (st s1 : Runner) :
  assembleAndProduce c st = (Ok (), s1) →
  let events tr := produced_to CLICKHOUSE_JSON_EVENTS_KAFKA_TOPIC tr in
  let exceptions tr :=
    produced_to EXCEPTIONS_SYMBOLIFICATION_KAFKA_TOPIC tr in
  length (events (trace s1) ++ exceptions (trace s1))
  = S (length (events (trace st) ++ exceptions (trace st))).
Proof.
  intros H events exceptions.
  destruct (createKafkaEvent c st) as [[rec | e'] st1] eqn:Hc;
    [| unfold assembleAndProduce in H; rewrite bind_run, Hc in H;
       discriminate].
  destruct (createKafkaEvent_returns c st st1 rec Hc)
    as (t & p & _ & _ & _ & Hst1).
  assert (Hlog : ∀ topic,
    produced_to topic (trace st1) = produced_to topic (trace st))
    by (intros topic; rewrite Hst1; apply after_createKafkaEvent_produced).
  rewrite (assembleAndProduce_routes c st st1 rec Hc) in H.
  assert (Hevents : produceEventToKafka c rec st1 = (Ok (), s1) →
    length (events (trace s1) ++ exceptions (trace s1))
    = S (length (events (trace st) ++ exceptions (trace st)))).
  { intros H1.
    destruct (produceEventToKafka_observed c rec st1) as (st2 & H2 & Hm & Ho).
    rewrite H2 in H1. injection H1 as <-.
    unfold events, exceptions. rewrite Hm, Ho, !Hlog by discriminate.
    rewrite !length_app. simpl. lia. }
  destruct (bool_decide _); [| exact (Hevents H)].
  destruct (hasOwnProperty _ _) as [[] | error];
    [exact (Hevents H) | | discriminate].
  destruct (produceExceptionSymbolificationEventStep_observed c rec st1)
    as (st2 & H2 & Hm & Ho).
  rewrite H2 in H. injection H as <-.
  unfold events, exceptions. rewrite Hm, Ho, !Hlog by discriminate.
  rewrite !length_app. simpl. lia.
Qed.


(** X23. Every event whose run returns normally is accounted for.  Either no
    team was found and the drop is counted as [invalid_token]; or the event is
    a client ingestion warning and one warning was queued for it; or it took
    the heatmap path, which ends after normalization and heatmap extraction;
    or a transformation dropped it and the counter of such drops has a sample;
    or exactly one enriched record was produced.  A run never returns normally
    having done none of these. *)
Theorem run_accounts_for_every_event_it_accepts
    (c : Deps.t) (e : PipelineEvent) :
  fst (run c (new_EventPipelineRunnerV2 e)) = Ok () →
  let st' := snd (run c (new_EventPipelineRunnerV2 e)) in
  drop_causes (trace st') = ["invalid_token"]
  ∨ (PipelineEvent.event e = "$$client_ingestion_warning"
     ∧ length (queued_on KAFKA_INGESTION_WARNINGS (trace st')) = 1)
  ∨ (∃ t st_v,
       validatePersonProcessing c (with_resolved_team c e t) = (Ok (), st_v)
       ∧ PluginEvent.event (event st_v) = "$$heatmap"
       ∧ st' = after_heatmaps c (after_normalizeEvent c st_v))
  ∨ DroppedEventFromTransformationsCounterInc ∈ trace st'
  ∨ length
      (produced_to CLICKHOUSE_JSON_EVENTS_KAFKA_TOPIC (trace st')
       ++ produced_to EXCEPTIONS_SYMBOLIFICATION_KAFKA_TOPIC (trace st'))
    = 1.
Proof.
  unfold run, try_catch.
  destruct (_run c (new_EventPipelineRunnerV2 e)) as [[[] | error] s1] eqn:Hrun;
    [| rewrite run_catch_run; discriminate].
  intros _. cbn [snd]. cbv zeta. revert Hrun. unfold _run.
  destruct (team_resolution c e) as [[t |] | err] eqn:Hres.
  - rewrite (_run_resolved c e t _ Hres).
    rewrite bind_run, get_run. cbv beta iota.
    destruct (with_resolved_team_event c e t) as (Hn & _ & _ & _).
    rewrite Hn.
    destruct (bool_decide _) eqn:Hclient.
    { rewrite captureIngestionWarning_run. intros [= <-]. right. left.
      split; [exact (bool_decide_eq_true_1 _ Hclient) |].
      rewrite (proj1 (after_warning_observed c e t
                        (with_resolved_team c e t) _ _ eq_refl eq_refl)).
      reflexivity. }
    intros H.
    apply bind_inv in H as [(? & _ & [=]) | ([] & s2 & H2 & H)].
    assert (s2 = with_resolved_team c e t) as ->
      by exact (proj1 (validateUuid_inv c _ _ _ H2)).
    apply bind_inv in H as [(? & _ & [=]) | ([] & st_v & Hval & H)].
    destruct (validated_trace_quiet c e t _ st_v Hval) as (Hp & _).
    apply processValidatedEvent_returns in H
      as [[Hheat ->] | [Hdrop | (st_a & (_ & Hm & Hx) & H)]].
    + right. right. left. exists t, st_v. repeat split; assumption.
    + right. right. right. left. exact Hdrop.
    + right. right. right. right.
      rewrite (assembleAndProduce_returns c st_a s1 H).
      rewrite Hm, Hx, !Hp. reflexivity.
  - rewrite bind_run, getTeam_run.
    change (originalEvent (new_EventPipelineRunnerV2 e)) with e.
    rewrite Hres. unfold dropEvent. exec. intros [= <-]. left. simpl.
    rewrite drop_causes_app,
      (proj1 (proj2 (team_lookups_are_quiet c e))). reflexivity.
  - rewrite bind_run, getTeam_run.
    change (originalEvent (new_EventPipelineRunnerV2 e)) with e.
    rewrite Hres. discriminate.
Qed.

(** ** The errors a run ends with, and the team of its record *)

Section Triples.

Context (E : JsError → Runner → Prop).

Lemma triple_ret {A} (P : Runner → Prop) (a : A) :
  triple P (mret a) (λ _, P) E.
Proof. intros st HP. exact HP. Qed.

Lemma triple_get (P : Runner → Prop) :
  triple P get (λ a st', a = st' ∧ P st') E.
Proof. intros st HP. split; [reflexivity | exact HP]. Qed.

Lemma triple_modify (P Q : Runner → Prop) (f : Runner → Runner) :
  (∀ st, P st → Q (f st)) → triple P (modify f) (λ _, Q) E.
Proof. intros Hf st HP. exact (Hf st HP). Qed.

Lemma triple_call {A} (P : Runner → Prop) (x : Result A) :
  (∀ error st, x = Throw error → P st → E error st) →
  triple P (call x) (λ _, P) E.
Proof.
  intros Hx st HP. destruct x as [a | error]; [exact HP | by apply Hx].
Qed.

Lemma triple_bind {A B} (P : Runner → Prop) (m : M A)
    (Q : A → Runner → Prop) (f : A → M B) (Q' : B → Runner → Prop) :
  triple P m Q E → (∀ a, triple (Q a) (f a) Q' E) →
  triple P (m ≫= f) Q' E.
Proof.
  intros Hm Hf st HP. rewrite bind_run. specialize (Hm st HP).
  destruct (m st) as [[a | error] st1]; [exact (Hf a st1 Hm) | exact Hm].
Qed.

Lemma triple_for_each {A} (P : Runner → Prop) (l : list A)
    (body : A → M unit) :
  (∀ x, triple P (body x) (λ _, P) E) →
  triple P (for_each l body) (λ _, P) E.
Proof.
  intros Hbody. induction l as [| x l IH]; simpl.
  - apply triple_ret.
  - eapply triple_bind; [apply Hbody | intros ?; exact IH].
Qed.

Lemma triple_weaken {A} (P P' : Runner → Prop) (m : M A)
    (Q Q' : A → Runner → Prop) :
  (∀ st, P st → P' st) → (∀ a st, Q' a st → Q a st) →
  triple P' m Q' E → triple P m Q E.
Proof.
  intros HP HQ Hm st Hst. specialize (Hm st (HP st Hst)).
  destruct (m st) as [[a | error] st1]; [exact (HQ a st1 Hm) | exact Hm].
Qed.

(** An awaited call, recorded in the trace before it is made: when it
    throws, the call is the last thing the trace holds. *)
Lemma triple_perform_call {A B} (P : Runner → Prop) (x : Effect)
    (r : Result A) (k : A → M B) (Q : B → Runner → Prop) :
  (∀ st, P st → P (set_trace (trace st ++ [x]) st)) →
  (∀ error st, r = Throw error → P st →
     E error (set_trace (trace st ++ [x]) st)) →
  (∀ a, triple P (k a) Q E) →
  triple P (perform x;; a ← call r; k a) Q E.
Proof.
  intros HP Hr Hk st Hst. rewrite bind_run.
  change (perform x st) with (Ok (), set_trace (trace st ++ [x]) st).
  cbv beta iota. rewrite bind_run.
  destruct r as [a | error].
  - exact (Hk a _ (HP st Hst)).
  - exact (Hr error st eq_refl Hst).
Qed.

End Triples.

Lemma person_updates_app tr1 tr2 :
  person_updates (tr1 ++ tr2) = person_updates tr1 ++ person_updates tr2.
Proof. apply omap_app. Qed.

Lemma ingestion_reports_app tr1 tr2 :
  ingestion_reports (tr1 ++ tr2)
  = ingestion_reports tr1 ++ ingestion_reports tr2.
Proof. apply omap_app. Qed.

Lemma no_identity_processing_untouched (l : list Effect) :
  forallb (λ x, negb (is_identity_processing x)) l = true →
  person_updates l = [] ∧ ingestion_reports l = [].
Proof.
  induction l as [| x l IH]; intros Hi; [split; reflexivity |].
  simpl in Hi. apply andb_prop in Hi as [Hx Hl]. specialize (IH Hl).
  destruct x; try discriminate Hx; exact IH.
Qed.

Lemma quiet_untouched (l : list Effect) :
  quiet l →
  (∀ topic, produced_to topic l = [])
  ∧ person_updates l = [] ∧ ingestion_reports l = [].
Proof.
  intros (Hp & _ & Hi). split; [exact Hp |].
  exact (no_identity_processing_untouched l Hi).
Qed.

(** An effect other than a [Produce], an update of the person store or a
    report of a first ingestion, a new event, new properties or a new promise
    leave the team, the person, the produced records, the updates and the
    reports alone. *)
Ltac keep_resolved :=
  let H := fresh in
  intros [] H; unfold tracked, enrichable, resolved, nothing_enriched in *;
  simpl in *;
  rewrite ?produced_to_app, ?person_updates_app, ?ingestion_reports_app;
  simpl; rewrite ?app_nil_r; exact H.

Lemma resolved_perform (t : Team) (x : Effect) (st : Runner) :
  no_record_update_or_report x →
  resolved t st → resolved t (set_trace (trace st ++ [x]) st).
Proof. intros Hx. revert st. destruct x; try contradiction; keep_resolved. Qed.

Lemma enrichable_perform (t : Team) (x : Effect) (st : Runner) :
  no_record_update_or_report x →
  enrichable t st → enrichable t (set_trace (trace st ++ [x]) st).
Proof. intros Hx. revert st. destruct x; try contradiction; keep_resolved. Qed.

Lemma perform_resolved (E : JsError → Runner → Prop) (t : Team) (x : Effect) :
  no_record_update_or_report x →
  triple (resolved t) (perform x) (λ _, resolved t) E.
Proof.
  intros Hx. apply triple_modify. intros st. apply resolved_perform, Hx.
Qed.

(** The error of the call a trace ends with. *)
Lemma thrown_by_last_call (c : Deps.t) (error : JsError) (st : Runner)
    (x : Effect) :
  thrown_by_collaborator c error (set_trace [x] st) →
  thrown_by_collaborator c error (set_trace (trace st ++ [x]) st).
Proof.
  unfold thrown_by_collaborator. cbn [trace set_trace timestamp].
  rewrite last_snoc. exact id.
Qed.

Lemma enrichable_fails (c : Deps.t) (t : Team) (error : JsError)
    (st : Runner) :
  thrown_by_collaborator c error st ∨ thrown_by_group_key error st →
  enrichable t st → fails c t error st.
Proof.
  intros He (_ & Hn & _ & Hu & Hr). left. split; [exact He |].
  split; [exact Hn |]. split; [right; exact Hu | exact Hr].
Qed.

Lemma resolved_fails (c : Deps.t) (t : Team) (error : JsError)
    (st : Runner) :
  thrown_by_collaborator c error st → resolved t st → fails c t error st.
Proof.
  intros He (_ & Hn & Hu & Hr). left. split; [left; exact He |].
  split; [exact Hn |]. split; [left; exact Hu | exact Hr].
Qed.

Lemma processPerson_triple (c : Deps.t) (t : Team) :
  triple (resolved t) (processPerson c) (λ _, enrichable t) (fails c t).
Proof.
  intros st Ht. unfold processPerson.
  destruct st as [oe t0 ps e spp ts p tr]. exec.
  unfold fails, fails_early, enrichable, person_updated_once, resolved,
    nothing_enriched, thrown_by_collaborator in *.
  simpl in Ht. destruct Ht as (Ht & (Hm & Hx) & Hu & Hr).
  destruct (Deps.PersonState_update c e _ _ ts spp) as [[person ack] | error]
    eqn:Hupdate; exec; simpl;
    rewrite ?last_snoc, !produced_to_app, person_updates_app,
      ingestion_reports_app, Hm, Hx, Hu, Hr.
  - repeat split; [exact Ht | by eexists | by eexists].
  - left. repeat split; [left; exact Hupdate | right; by eexists].
Qed.

(** The loop of [processGroups] over the groups of the event. *)
Lemma group_loop_triple (c : Deps.t) (t team : Team)
    (groups : list (string * JsValue)) :
  triple (enrichable t)
    (for_each groups
       (λ '(groupType, groupIdentifier),
          perform (FetchGroupTypeIndex (Team.id team) (Team.project_id team)
                     (JStr groupType));;
          columnIndex ← call (Deps.fetchGroupTypeIndex c
                                (Team.id team) (Team.project_id team)
                                (JStr groupType));
          match columnIndex with
          | Some columnIndex =>
              modify (λ st,
                set_properties
                  (<[group_key columnIndex := groupIdentifier]>
                     (PluginEvent.properties (event st))) st)
          | None => mret ()
          end))
    (λ _, enrichable t) (fails c t).
Proof.
  apply triple_for_each. intros [g v].
  apply triple_perform_call.
  - intros st. by apply enrichable_perform.
  - intros error st Hfetch Hst. apply enrichable_fails.
    + left. apply thrown_by_last_call. exact Hfetch.
    + by apply enrichable_perform.
  - intros [i |]; [| apply triple_ret].
    apply triple_modify. keep_resolved.
Qed.

(** The rest of [processGroups]: the upsert of a [$groupidentify]. *)
Lemma group_upsert_triple (c : Deps.t) (t team : Team) :
  triple (enrichable t)
    (st ← get;
     if bool_decide (PluginEvent.event (event st) = "$groupidentify") then
       let properties := PluginEvent.properties (event st) in
       if negb (truthy (prop_read properties "$group_type"))
          || negb (truthy (prop_read properties "$group_key"))
       then mret ()
       else
         let groupType := prop_read properties "$group_type" in
         let groupKey := prop_read properties "$group_key" in
         let groupPropertiesToSet := prop_read properties "$group_set" in
         perform (FetchGroupTypeIndex (Team.id team) (Team.project_id team)
                    groupType);;
         groupTypeIndex ← call (Deps.fetchGroupTypeIndex c
                                  (Team.id team) (Team.project_id team)
                                  groupType);
         match groupTypeIndex with
         | Some groupTypeIndex =>
             key ← call (toString groupKey);
             perform (UpsertGroup (Team.id team) (Team.project_id team)
                        groupTypeIndex key
                        (js_or groupPropertiesToSet (JObj ∅)));;
             call (Deps.upsertGroup c
                     (Team.id team) (Team.project_id team) groupTypeIndex
                     key
                     (js_or groupPropertiesToSet (JObj ∅))
                     (timestamp st))
         | None => mret ()
         end
     else mret ())
    (λ _, enrichable t) (fails c t).
Proof.
  intros st Hst. rewrite bind_run, get_run. cbv beta iota.
  destruct (bool_decide _) eqn:Hname; [| exact Hst].
  apply bool_decide_eq_true_1 in Hname.
  cbv zeta. destruct (_ || _); [exact Hst |].
  set (lookup := FetchGroupTypeIndex (Team.id team) (Team.project_id team)
                   (prop_read (PluginEvent.properties (event st))
                      "$group_type")).
  pose proof (enrichable_perform t lookup st I Hst) as Hst1.
  rewrite bind_run.
  change (perform lookup st) with (Ok (), set_trace (trace st ++ [lookup]) st).
  cbv beta iota. rewrite bind_run.
  destruct (Deps.fetchGroupTypeIndex c _ _ _) as [[i |] | error] eqn:Hfetch;
    cbn [call]; [| exact Hst1 |].
  - change ((mret (Some i) : M (option Z)) ?s) with (Ok (Some i), s).
    cbv beta iota. rewrite bind_run.
    destruct (toString _) as [key | error] eqn:Hkey; cbn [call].
    + change ((mret key : M string) ?s) with (Ok key, s).
      cbv beta iota.
      set (upsert := UpsertGroup (Team.id team) (Team.project_id team) i key
                       (js_or (prop_read (PluginEvent.properties (event st))
                                 "$group_set") (JObj ∅))).
      pose proof (enrichable_perform t upsert _ I Hst1) as Hst2.
      rewrite bind_run.
      change (perform upsert ?s) with (Ok (), set_trace (trace s ++ [upsert]) s).
      cbv beta iota.
      destruct (Deps.upsertGroup c _ _ _ _ _ _) as [[] | error] eqn:Hupsert;
        cbn [call]; [exact Hst2 |].
      apply enrichable_fails; [| exact Hst2].
      left. apply thrown_by_last_call. exact Hupsert.
    + apply enrichable_fails; [| exact Hst1].
      right. split; [exact Hname | exact Hkey].
  - apply enrichable_fails; [| exact Hst1].
    left. apply thrown_by_last_call. exact Hfetch.
Qed.

Lemma processGroups_triple (c : Deps.t) (t : Team) :
  triple (enrichable t) (processGroups c) (λ _, enrichable t) (fails c t).
Proof.
  intros st Hst. unfold processGroups. rewrite bind_run, get_run.
  cbv beta iota. destruct (negb _); [exact Hst |].
  pose proof Hst as [Ht _]. rewrite Ht. cbn [nonnull]. rewrite bind_run.
  change ((mret t : M Team) st) with (Ok t, st). cbv beta iota.
  revert st Hst Ht. intros st Hst _.
  refine (triple_bind (fails c t) (enrichable t) _ (λ _, enrichable t) _
            (λ _, enrichable t) _ _ st Hst).
  - apply group_loop_triple.
  - intros _. apply group_upsert_triple.
Qed.

Lemma trackFirstEventIngestion_triple (c : Deps.t) (t : Team) :
  triple (enrichable t) (trackFirstEventIngestion c) (λ _, tracked t)
    (fails c t).
Proof.
  intros st Hst. unfold trackFirstEventIngestion.
  pose proof Hst as [Ht _].
  destruct st as [oe t0 ps e spp ts p tr]. simpl in Ht. subst t0. exec.
  revert Hst. unfold enrichable, tracked, nothing_enriched. simpl.
  rewrite !produced_to_app, person_updates_app, ingestion_reports_app,
    !app_nil_r.
  intros (_ & Hn & Hp & Hu & ->). repeat split; try tauto. by eexists.
Qed.

Lemma processAiEvent_triple (c : Deps.t) (t : Team) :
  triple (resolved t) (processAiEvent c) (λ _, resolved t) (fails c t).
Proof.
  intros st Hst. rewrite processAiEvent_run.
  destruct (is_ai_event _); [| exact Hst].
  destruct (Deps.processAiEvent c (event st)); [exact Hst |].
  revert Hst. unfold resolved, nothing_enriched. simpl.
  rewrite !produced_to_app, person_updates_app, ingestion_reports_app,
    !app_nil_r.
  exact id.
Qed.

Lemma normalizeEvent_triple (c : Deps.t) (t : Team) :
  triple (resolved t) (normalizeEvent c) (λ _, resolved t) (fails c t).
Proof. intros st Hst. rewrite normalizeEvent_run. exact Hst. Qed.

Lemma after_heatmaps_nothing_enriched (c : Deps.t) (st : Runner) :
  nothing_enriched st → nothing_enriched (after_heatmaps c st).
Proof.
  intros [Hm Hx]. destruct (heatmap_effects_observed c st) as (_ & Ho & _).
  split; unfold after_heatmaps; simpl;
    rewrite produced_to_app, Ho by discriminate; rewrite app_nil_r; assumption.
Qed.

Lemma after_heatmaps_untouched (c : Deps.t) (st : Runner) :
  person_updates (trace (after_heatmaps c st)) = person_updates (trace st)
  ∧ ingestion_reports (trace (after_heatmaps c st))
    = ingestion_reports (trace st).
Proof.
  destruct (heatmap_effects_observed c st) as (_ & _ & _ & Hi).
  destruct (no_identity_processing_untouched _ Hi) as [Hu Hr].
  unfold after_heatmaps. simpl.
  rewrite person_updates_app, ingestion_reports_app, Hu, Hr, !app_nil_r.
  split; reflexivity.
Qed.

Lemma processHeatmaps_triple (c : Deps.t) (t : Team) :
  triple (tracked t) (processHeatmaps c) (λ _, tracked t) (fails c t).
Proof.
  intros st (Ht & Hn & Hp & Hu & Hr). rewrite processHeatmaps_run.
  destruct (after_heatmaps_untouched c st) as [Hu' Hr'].
  split; [exact Ht |].
  split; [apply after_heatmaps_nothing_enriched, Hn |].
  split; [exact Hp |]. rewrite Hu', Hr'. split; [exact Hu | exact Hr].
Qed.

Lemma after_createKafkaEvent_untouched (c : Deps.t) (st : Runner)
    (t : Team) :
  person_updates (trace (after_createKafkaEvent c st t))
  = person_updates (trace st)
  ∧ ingestion_reports (trace (after_createKafkaEvent c st t))
    = ingestion_reports (trace st).
Proof.
  unfold after_createKafkaEvent, elements_chain_log. simpl.
  rewrite person_updates_app, ingestion_reports_app.
  destruct (Deps.getElementsChain c _); rewrite !app_nil_r; split; reflexivity.
Qed.

Lemma produceEventToKafka_untouched
    (c : Deps.t) (r : RawKafkaEvent) (st : Runner) :
  let st' := snd (produceEventToKafka c r st) in
  person_updates (trace st') = person_updates (trace st)
  ∧ ingestion_reports (trace st') = ingestion_reports (trace st)
  ∧ shouldProcessPerson st' = shouldProcessPerson st.
Proof.
  pose proof (produceEventToKafka_run c r st) as Hrun.
  unfold record_message in Hrun. cbv zeta in Hrun. rewrite Hrun. simpl.
  rewrite person_updates_app, ingestion_reports_app.
  destruct (Deps.produce c _ _ _) as [| []];
    rewrite !app_nil_r; repeat split.
Qed.

Lemma produceExceptionSymbolificationEventStep_untouched
    (c : Deps.t) (r : RawKafkaEvent) (st : Runner) :
  let st' := snd (produceExceptionSymbolificationEventStep c r st) in
  person_updates (trace st') = person_updates (trace st)
  ∧ ingestion_reports (trace st') = ingestion_reports (trace st)
  ∧ shouldProcessPerson st' = shouldProcessPerson st.
Proof.
  pose proof (produceExceptionSymbolificationEventStep_run c r st) as Hrun.
  unfold record_message in Hrun. cbv zeta in Hrun. rewrite Hrun. simpl.
  rewrite person_updates_app, ingestion_reports_app.
  destruct (Deps.produce c _ _ _); rewrite !app_nil_r; repeat split.
Qed.

(** [createKafkaEvent] leaves what the routing reads as it was: the event's
    name and the keys [hasOwnProperty] and [$sentry_event_id]. *)
Lemma after_createKafkaEvent_routing (c : Deps.t) (st : Runner) (t : Team) :
  PluginEvent.event (event (after_createKafkaEvent c st t))
  = PluginEvent.event (event st)
  ∧ hasOwnProperty
      (PluginEvent.properties (event (after_createKafkaEvent c st t)))
      "$sentry_event_id"
    = hasOwnProperty (PluginEvent.properties (event st)) "$sentry_event_id".
Proof.
  split; [reflexivity |].
  unfold hasOwnProperty, after_createKafkaEvent. simpl.
  rewrite !assembled_properties_other by (discriminate || reflexivity).
  reflexivity.
Qed.

(** With the team and the person known, assembly never throws, and routing
    throws only the error of [hasOwnProperty]; the one record they add is
    the resolved team's. *)
Lemma assembleAndProduce_triple (c : Deps.t) (t : Team) :
  triple (tracked t) (assembleAndProduce c) (λ _, settled c t) (fails c t).
Proof.
  intros st (Ht & [Hm Hx] & [p Hp] & Hu & Hr).
  pose proof (createKafkaEvent_run c st t p Ht Hp) as Hc.
  rewrite (assembleAndProduce_routes c st _ _ Hc).
  set (rec := assembled_record c st t p).
  set (st1 := after_createKafkaEvent c st t).
  assert (Hlog : ∀ topic,
    produced_to topic (trace st1) = produced_to topic (trace st))
    by (intros topic; apply after_createKafkaEvent_produced).
  destruct (after_createKafkaEvent_untouched c st t) as [Hu1 Hr1].
  destruct (after_createKafkaEvent_routing c st t) as [Hname1 Hown1].
  fold st1 in Hu1, Hr1, Hname1, Hown1.
  assert (Hf1 : shouldProcessPerson st1 = shouldProcessPerson st)
    by reflexivity.
  assert (Hrec : ∀ m, m ∈ [record_message c rec] →
    ∃ r, m = record_message c r
         ∧ RawKafkaEvent.team_id r = Team.id t
         ∧ RawKafkaEvent.project_id r = Team.project_id t).
  { intros m Hin. apply list_elem_of_singleton in Hin as ->.
    exists rec. repeat split. }
  assert (Hevents :
    match produceEventToKafka c rec st1 with
    | (Ok _, st') => settled c t st'
    | (Throw e, st') => fails c t e st'
    end).
  { destruct (produceEventToKafka_untouched c rec st1) as (Hpu & Hir & Hf).
    destruct (produceEventToKafka_observed c rec st1)
      as (st2 & Heq & Hadd & Ho).
    rewrite Heq in *. cbn [snd] in Hpu, Hir, Hf.
    split; [| split].
    + intros m. rewrite Hadd, Ho, !Hlog, Hm, Hx by discriminate.
      exact (Hrec m).
    + right. rewrite Hpu, Hf, Hu1, Hf1. exact Hu.
    + right. rewrite Hir, Hr1. split; [exact Hr |].
      rewrite Hadd, Ho, !Hlog, Hm, Hx by discriminate. reflexivity. }
  destruct (bool_decide (PluginEvent.event (event st) = "$exception"))
    eqn:Hname; [| exact Hevents].
  apply bool_decide_eq_true_1 in Hname.
  destruct (hasOwnProperty (PluginEvent.properties (event st))
              "$sentry_event_id") as [[] | error] eqn:Hown;
    [exact Hevents | |].
  - destruct (produceExceptionSymbolificationEventStep_untouched c rec st1)
      as (Hpu & Hir & Hf).
    destruct (produceExceptionSymbolificationEventStep_observed c rec st1)
      as (st2 & Heq & Hadd & Ho).
    rewrite Heq in *. cbn [snd] in Hpu, Hir, Hf.
    split; [| split].
    + intros m. rewrite Hadd, Ho, !Hlog, Hm, Hx by discriminate.
      exact (Hrec m).
    + right. rewrite Hpu, Hf, Hu1, Hf1. exact Hu.
    + right. rewrite Hir, Hr1. split; [exact Hr |].
      rewrite Hadd, Ho, !Hlog, Hm, Hx by discriminate. reflexivity.
  - right. split; [| split; [| split]].
    + split; [rewrite Hname1; exact Hname | exact Hown1].
    + split; rewrite Hlog; assumption.
    + right. rewrite Hu1, Hf1. exact Hu.
    + rewrite Hr1. exact Hr.
Qed.

Lemma nothing_enriched_carries_team (c : Deps.t) (t : Team) (st : Runner) :
  nothing_enriched st → carries_team c t st.
Proof. intros [Hm Hx] m. rewrite Hm, Hx. intros Hin. inversion Hin. Qed.

Lemma resolved_settled (c : Deps.t) (t : Team) (st : Runner) :
  resolved t st → settled c t st.
Proof.
  intros (_ & Hn & Hu & Hr).
  split; [apply nothing_enriched_carries_team, Hn |].
  split; [left; exact Hu | left; split; assumption].
Qed.

(** The steps of a validated event that is not a heatmap. *)
Lemma transformations_triple (c : Deps.t) (t : Team) (ev : PluginEvent) :
  triple (resolved t)
    (perform (CookielessProcessEvent ev);;
     postCookielessEvent ← call (Deps.cookielessProcessEvent c ev);
     match postCookielessEvent with
     | None => perform DroppedEventFromTransformationsCounterInc
     | Some _ =>
       perform (TransformEvent ev);;
       result ← call (Deps.transformEventAndProduceMessages c ev);
       match result with
       | None => perform DroppedEventFromTransformationsCounterInc
       | Some _ =>
         processAiEvent c;;
         normalizeEvent c;;
         processPerson c;;
         processGroups c;;
         trackFirstEventIngestion c;;
         processHeatmaps c;;
         assembleAndProduce c
       end
     end)
    (λ _, settled c t) (fails c t).
Proof.
  assert (Hlast : triple (resolved t)
            (perform DroppedEventFromTransformationsCounterInc)
            (λ _, settled c t) (fails c t)).
  { eapply triple_weaken; [intros ? H; exact H | | by apply perform_resolved].
    intros ? st. apply resolved_settled. }
  apply triple_perform_call.
  { intros st. by apply resolved_perform. }
  { intros error st Hcall Hst. apply resolved_fails.
    - apply thrown_by_last_call. exact Hcall.
    - by apply resolved_perform. }
  intros [post |]; [| exact Hlast].
  apply triple_perform_call.
  { intros st. by apply resolved_perform. }
  { intros error st Hcall Hst. apply resolved_fails.
    - apply thrown_by_last_call. exact Hcall.
    - by apply resolved_perform. }
  intros [result |]; [| exact Hlast].
  eapply triple_bind; [apply processAiEvent_triple | intros ?].
  eapply triple_bind; [apply normalizeEvent_triple | intros ?].
  eapply triple_bind; [apply processPerson_triple | intros ?].
  eapply triple_bind; [apply processGroups_triple | intros ?].
  eapply triple_bind; [apply trackFirstEventIngestion_triple | intros ?].
  eapply triple_bind; [apply processHeatmaps_triple | intros ?].
  apply assembleAndProduce_triple.
Qed.

Lemma processValidatedEvent_triple (c : Deps.t) (t : Team) :
  triple (resolved t) (processValidatedEvent c) (λ _, settled c t)
    (fails c t).
Proof.
  intros st Hst. unfold processValidatedEvent. rewrite bind_run, get_run.
  cbv beta iota. destruct (bool_decide _).
  - rewrite bind_run, normalizeEvent_run, processHeatmaps_run.
    destruct Hst as (_ & Hn & Hu & Hr).
    destruct (after_heatmaps_untouched c (after_normalizeEvent c st))
      as [Hu' Hr'].
    pose proof (after_heatmaps_nothing_enriched c
                  (after_normalizeEvent c st) Hn) as Hn'.
    split; [apply nothing_enriched_carries_team, Hn' |].
    split; [left; rewrite Hu'; exact Hu |].
    left. split; [rewrite Hr'; exact Hr | exact Hn'].
  - exact (transformations_triple c t (event st) st Hst).
Qed.

Lemma team_resolution_throws (c : Deps.t) (e : PipelineEvent)
    (error : JsError) (st : Runner) :
  team_resolution c e = Throw error →
  trace st = team_lookups c e →
  thrown_by_collaborator c error st.
Proof.
  unfold team_resolution, team_lookups, thrown_by_collaborator.
  intros Hres ->.
  destruct (truthy_number _); [exact Hres |].
  destruct (truthy_string _); [exact Hres | discriminate].
Qed.

(** A runner whose trace is quiet has produced no enriched record, has not
    updated the person store and has reported no first ingestion. *)
Lemma quiet_runner (st : Runner) :
  quiet (trace st) →
  nothing_enriched st
  ∧ person_updates (trace st) = []
  ∧ ingestion_reports (trace st) = [].
Proof.
  intros Hq. destruct (quiet_untouched _ Hq) as (Hp & Hu & Hr).
  split; [split; apply Hp | split; assumption].
Qed.

Lemma validated_state_resolved
    (c : Deps.t) (e : PipelineEvent) (t : Team) (st_v : Runner) :
  validatePersonProcessing c (with_resolved_team c e t) = (Ok (), st_v) →
  resolved t st_v.
Proof.
  intros Hval. split.
  - rewrite (validatePersonProcessing_run c _ t) in Hval by reflexivity.
    revert Hval. destruct (is_false _).
    + destruct (bool_decide _); [discriminate |]. by intros [= <-].
    + destruct (negb _ && negb _); by intros [= <-].
  - exact (quiet_runner _ (validated_trace_quiet c e t _ st_v Hval)).
Qed.

(** How [_run] ends for an event.  When it throws, it throws the error of
    a validation, of the awaited call the trace ends with, or of a built-in
    applied to event data, and no enriched record was produced.  In any case
    the person store was updated at most once, and when the team resolved,
    every enriched record is one of that team and the team's first ingestion
    was reported exactly when a record was produced, unless the routing of
    the record threw.  Without a team there is neither a record nor a
    report. *)
Lemma _run_outcome (c : Deps.t) (e : PipelineEvent) (r : Result unit)
    (s1 : Runner) :
  _run c (new_EventPipelineRunnerV2 e) = (r, s1) →
  (∀ error, r = Throw error →
     expected_error c e error s1 ∧ nothing_enriched s1)
  ∧ person_updated_once s1
  ∧ match team_resolution c e with
    | Ok (Some t) =>
        carries_team c t s1
        ∧ (reported_with_record t s1 ∨ reported_without_record t r s1)
    | _ => ingestion_reports (trace s1) = [] ∧ nothing_enriched s1
    end.
Proof.
  unfold _run.
  assert (Hquiet : ∀ st : Runner, quiet (trace st) →
    nothing_enriched st
    ∧ person_updated_once st
    ∧ (∀ t, carries_team c t st ∧ reported_with_record t st)
    ∧ ingestion_reports (trace st) = []).
  { intros st Hq. destruct (quiet_runner st Hq) as (Hn & Hu & Hr).
    split; [exact Hn |]. split; [by left |]. split; [| exact Hr].
    intros t. split; [apply nothing_enriched_carries_team, Hn |].
    left. split; assumption. }
  destruct (team_resolution c e) as [[t |] | err] eqn:Hres.
  - rewrite (_run_resolved c e t _ Hres).
    rewrite bind_run, get_run. cbv beta iota.
    destruct (with_resolved_team_event c e t) as (Hn & Hu & _ & _).
    destruct (bool_decide _).
    { rewrite captureIngestionWarning_run. intros [= <- <-].
      destruct (Hquiet (after_warning c "client_ingestion_warning"
                          {[ "message" :=
                               prop_read
                                 (PluginEvent.properties
                                    (event (with_resolved_team c e t)))
                                 "$$client_ingestion_warning_message" ]}
                          (with_resolved_team c e t)))
        as (_ & Hup & Hc & _).
      { apply quiet_app;
          [apply team_lookups_are_quiet | apply warning_effects_are_quiet]. }
      split; [discriminate |]. split; [exact Hup |].
      split; [apply Hc | left; apply Hc]. }
    intros H.
    apply bind_inv in H as [(err & H & ->) | ([] & s2 & H2 & H)].
    { rewrite validateUuid_run, Hu in H.
      destruct (Hquiet (with_resolved_team c e t) (team_lookups_are_quiet c e))
        as (Hne & Hup & Hc & _).
      destruct (Deps.UUID_validateString c (PipelineEvent.uuid e)) eqn:Hvalid;
        [discriminate |].
      destruct (ToString (PipelineEvent.uuid e)) as [uuid | error] eqn:Hstr;
        injection H as <- <-.
      - split; [| split; [exact Hup | split; [apply Hc | left; apply Hc]]].
        intros error [= <-]. split; [| exact Hne].
        left. left. split; [exact Hvalid |]. exists uuid.
        split; [exact Hstr | reflexivity].
      - split; [| split; [exact Hup | split; [apply Hc | left; apply Hc]]].
        intros error' [= <-]. split; [| exact Hne].
        right. left. split; assumption. }
    assert (s2 = with_resolved_team c e t) as ->
      by exact (proj1 (validateUuid_inv c _ _ _ H2)).
    apply bind_inv in H as [(err & H & ->) | ([] & st_v & Hval & H)].
    { destruct (Hquiet s1 (validated_trace_quiet c e t _ s1 H))
        as (Hne & Hup & Hc & _).
      split; [| split; [exact Hup | split; [apply Hc | left; apply Hc]]].
      intros error [= <-]. split; [| exact Hne]. left. right.
      rewrite (validatePersonProcessing_run c _ t) in H by reflexivity.
      rewrite Hn in H.
      revert H. destruct (is_false _).
      - destruct (bool_decide _) eqn:Hin; [| discriminate].
        intros [= <- _]. split; [| reflexivity].
        exact (bool_decide_eq_true_1 _ Hin).
      - destruct (negb _ && negb _); discriminate. }
    pose proof (processValidatedEvent_triple c t st_v
                  (validated_state_resolved c e t st_v Hval)) as Htriple.
    rewrite H in Htriple. destruct r as [[] | error].
    + destruct Htriple as (Hc & Hup & Hr).
      split; [discriminate |]. split; [exact Hup |].
      split; [exact Hc | left; exact Hr].
    + destruct Htriple as [(He & Hne & Hup & Hr) | (He & Hne & Hup & Hr)].
      * split; [| split; [exact Hup |]].
        { intros ? [= <-]. split; [| exact Hne].
          right. right. destruct He as [He | He]; [left | right; left];
            exact He. }
        split; [apply nothing_enriched_carries_team, Hne |].
        left. left. split; assumption.
      * split; [| split; [exact Hup |]].
        { intros ? [= <-]. split; [| exact Hne].
          do 4 right. exact He. }
        split; [apply nothing_enriched_carries_team, Hne |].
        right. split; [exact Hr |]. split; [exact Hne |].
        exists error. split; [reflexivity | exact He].
  - rewrite bind_run, getTeam_run.
    change (originalEvent (new_EventPipelineRunnerV2 e)) with e.
    rewrite Hres. unfold dropEvent. exec. intros [= <- <-].
    destruct (quiet_untouched _ (team_lookups_are_quiet c e))
      as (Hp & Hu & Hr).
    split; [discriminate |]. unfold person_updated_once, nothing_enriched.
    simpl.
    rewrite person_updates_app, ingestion_reports_app, !produced_to_app,
      Hu, Hr, !Hp.
    split; [by left | repeat split].
  - rewrite bind_run, getTeam_run.
    change (originalEvent (new_EventPipelineRunnerV2 e)) with e.
    rewrite Hres. intros [= <- <-].
    destruct (Hquiet (set_trace ([] ++ team_lookups c e)
                        (new_EventPipelineRunnerV2 e))
                (team_lookups_are_quiet c e)) as (Hne & Hup & _ & Hr).
    split; [| split; [exact Hup | split; assumption]].
    intros error [= <-]. split; [| exact Hne].
    right. right. left.
    apply (team_resolution_throws c e err _ Hres). reflexivity.
Qed.

Lemma run_catch_enriched (c : Deps.t) (error : JsError) (st : Runner)
    (topic : Topic) :
  produced_to topic (trace (snd (run_catch c error st)))
  = produced_to topic (trace st).
Proof.
  rewrite run_catch_run. destruct error; try reflexivity.
  unfold after_warning. simpl.
  rewrite produced_to_app, (proj1 (warning_effects_are_quiet c _ _ _)).
  apply app_nil_r.
Qed.

Lemma run_catch_untouched (c : Deps.t) (error : JsError) (st : Runner) :
  person_updates (trace (snd (run_catch c error st)))
  = person_updates (trace st)
  ∧ ingestion_reports (trace (snd (run_catch c error st)))
    = ingestion_reports (trace st)
  ∧ shouldProcessPerson (snd (run_catch c error st)) = shouldProcessPerson st.
Proof.
  rewrite run_catch_run. destruct error; try (repeat split; reflexivity).
  unfold after_warning. simpl.
  destruct (quiet_untouched _ (warning_effects_are_quiet c st
                                 ingestionWarning
                                 (default ∅ ingestionWarningDetails)))
    as (_ & Hu & Hr).
  rewrite person_updates_app, ingestion_reports_app, Hu, Hr, !app_nil_r.
  repeat split.
Qed.

(** [hasOwnProperty] throws exactly on a bag with an own key of that name,
    and then a [TypeError]. *)
Lemma hasOwnProperty_throws (o : Props) (k : string) (error : JsError) :
  hasOwnProperty o k = Throw error →
  is_Some (o !! "hasOwnProperty")
  ∧ error = TypeError "hasOwnProperty is not a function".
Proof.
  unfold hasOwnProperty.
  destruct (o !! "hasOwnProperty"); [| discriminate].
  intros [= <-]. split; [eauto | reflexivity].
Qed.

(** X24. Whatever the event, a run that throws ends with an error of one of
    three kinds.  It is the [EventDroppedError] of one of the two
    validations: [invalid_event_uuid] for a uuid that does not parse, or
    [invalid_event_when_process_person_profile_is_false], with
    [doNotSendToDLQ] set, for a person event.  Or it is the error thrown by
    the awaited call the trace of [_run] ends with: a call of the team
    manager, the cookieless manager, the transformer, the person state, the
    group type manager or the group upsert, with the arguments the trace
    records.  Or it is the error of a built-in applied to event data: the
    conversion to a string of a uuid that does not parse, [toString] called
    on the [$group_key] of a [$groupidentify], or [hasOwnProperty] called on
    the properties of an [$exception].  Nothing else a run does surfaces as
    an exception of [run], and a run that throws has produced no enriched
    record. *)
Theorem run_throws_only_expected_errors
    (c : Deps.t) (e : PipelineEvent) (error : JsError) :
  fst (run c (new_EventPipelineRunnerV2 e)) = Throw error →
  let st1 := snd (_run c (new_EventPipelineRunnerV2 e)) in
  (validation_error c e error
   ∨ thrown_by_uuid c e error
   ∨ thrown_by_collaborator c error st1
   ∨ thrown_by_group_key error st1
   ∨ thrown_by_hasOwnProperty error st1)
  ∧ nothing_enriched (snd (run c (new_EventPipelineRunnerV2 e))).
Proof.
  unfold run, try_catch.
  destruct (_run c (new_EventPipelineRunnerV2 e)) as [[[] | err] s1] eqn:Hrun;
    [discriminate |].
  unfold nothing_enriched. rewrite !run_catch_enriched.
  rewrite run_catch_run. intros [= ->]. cbn [snd].
  exact (proj1 (_run_outcome c e _ s1 Hrun) error eq_refl).
Qed.

(** X25. Every enriched record a run produces, on the events topic or on the
    exceptions topic, is keyed by its uuid and carries the id and the project
    id of the team the run resolved for the event, whatever team id the
    event itself claimed. *)
Theorem enriched_record_carries_the_resolved_team
    (c : Deps.t) (e : PipelineEvent) (t : Team) :
  team_resolution c e = Ok (Some t) →
  let tr := trace (snd (run c (new_EventPipelineRunnerV2 e))) in
  ∀ key value,
    (key, value) ∈ produced_to CLICKHOUSE_JSON_EVENTS_KAFKA_TOPIC tr
                   ++ produced_to EXCEPTIONS_SYMBOLIFICATION_KAFKA_TOPIC tr →
    ∃ r, key = RawKafkaEvent.uuid r
         ∧ value = Deps.JSON_stringify c (RawKafkaEvent.to_js r)
         ∧ RawKafkaEvent.team_id r = Team.id t
         ∧ RawKafkaEvent.project_id r = Team.project_id t.
Proof.
  intros Hres tr key value. subst tr. unfold run, try_catch.
  assert (Hbody : ∀ r s1, _run c (new_EventPipelineRunnerV2 e) = (r, s1) →
    carries_team c t s1).
  { intros r s1 Hrun.
    pose proof (proj2 (proj2 (_run_outcome c e r s1 Hrun))) as H.
    rewrite Hres in H. exact (proj1 H). }
  destruct (_run c (new_EventPipelineRunnerV2 e)) as [[[] | err] s1] eqn:Hrun.
  - cbn [snd]. intros Hin.
    destruct (Hbody _ _ eq_refl _ Hin) as (r & [= -> ->] & Hid & Hpid).
    exists r. repeat split; assumption.
  - rewrite !run_catch_enriched. intros Hin.
    destruct (Hbody _ _ eq_refl _ Hin) as (r & [= -> ->] & Hid & Hpid).
    exists r. repeat split; assumption.
Qed.

(** X26. A run updates the person store at most once, and when it does, the
    update is made with the decision on person processing the run ends
    with: an event whose person processing is disabled never reaches the
    person store with processing enabled. *)
Theorem person_store_is_updated_at_most_once
    (c : Deps.t) (e : PipelineEvent) :
  let st' := snd (run c (new_EventPipelineRunnerV2 e)) in
  person_updates (trace st') = []
  ∨ ∃ ev, person_updates (trace st')
          = [PersonStateUpdate ev (shouldProcessPerson st')].
Proof.
  intros st'. subst st'. unfold run, try_catch.
  destruct (_run c (new_EventPipelineRunnerV2 e)) as [[[] | err] s1] eqn:Hrun.
  - exact (proj1 (proj2 (_run_outcome c e _ s1 Hrun))).
  - destruct (run_catch_untouched c err s1) as (-> & _ & ->).
    exact (proj1 (proj2 (_run_outcome c e _ s1 Hrun))).
Qed.

(** X27. The team's first ingested event is reported when the run is about
    to assemble the enriched record, and only then.  A run either makes no
    report and produces no enriched record (the event was dropped, was a
    client ingestion warning, took the heatmap path, or the run threw
    earlier), or it makes exactly one report, for the team it resolved.
    After a report the run produces exactly one enriched record, with one
    exception: for an event named [$exception] whose properties have an own
    key [hasOwnProperty], the routing of the record throws a [TypeError] and
    the run ends with that error, the report made and no record produced. *)
Theorem first_ingestion_is_reported_with_the_record
    (c : Deps.t) (e : PipelineEvent) :
  let st' := snd (run c (new_EventPipelineRunnerV2 e)) in
  let enriched :=
    produced_to CLICKHOUSE_JSON_EVENTS_KAFKA_TOPIC (trace st')
    ++ produced_to EXCEPTIONS_SYMBOLIFICATION_KAFKA_TOPIC (trace st') in
  (ingestion_reports (trace st') = [] ∧ enriched = [])
  ∨ ∃ t properties,
      team_resolution c e = Ok (Some t)
      ∧ ingestion_reports (trace st') = [SetTeamIngestedEvent t properties]
      ∧ (length enriched = 1
         ∨ (enriched = []
            ∧ fst (run c (new_EventPipelineRunnerV2 e))
              = Throw (TypeError "hasOwnProperty is not a function")
            ∧ PluginEvent.event (event st') = "$exception"
            ∧ is_Some (PluginEvent.properties (event st')
                       !! "hasOwnProperty"))).
Proof.
  intros st' enriched. subst st' enriched. unfold run, try_catch.
  destruct (_run c (new_EventPipelineRunnerV2 e)) as [r s1] eqn:Hrun.
  pose proof (proj2 (proj2 (_run_outcome c e r s1 Hrun))) as H.
  assert (Hend :
    ∀ st', (∀ topic, produced_to topic (trace st')
                     = produced_to topic (trace s1)) →
           ingestion_reports (trace st') = ingestion_reports (trace s1) →
           (ingestion_reports (trace s1) = [] ∧ nothing_enriched s1) →
           ingestion_reports (trace st') = []
           ∧ produced_to CLICKHOUSE_JSON_EVENTS_KAFKA_TOPIC (trace st')
             ++ produced_to EXCEPTIONS_SYMBOLIFICATION_KAFKA_TOPIC (trace st')
             = []).
  { intros st' Hp -> [Hr [Hm Hx]]. rewrite !Hp, Hm, Hx.
    split; [exact Hr | reflexivity]. }
  assert (Hcatch : ∀ err,
    (∀ topic, produced_to topic (trace (snd (run_catch c err s1)))
              = produced_to topic (trace s1))
    ∧ ingestion_reports (trace (snd (run_catch c err s1)))
      = ingestion_reports (trace s1)).
  { intros err. split; [intros topic; apply run_catch_enriched |].
    exact (proj1 (proj2 (run_catch_untouched c err s1))). }
  destruct (team_resolution c e) as [[t |] | err0].
  - destruct H as [_ [[[Hr Hn] | [[properties Hr] Hlen]]
                      | ([properties Hr] & [Hm Hx] & error & -> & He)]].
    + left. destruct r as [[] | err]; cbn [snd].
      * apply Hend; auto.
      * destruct (Hcatch err) as [Hp Hi]. apply Hend; auto.
    + right. exists t, properties. split; [reflexivity |].
      destruct r as [[] | err]; cbn [snd].
      * split; [exact Hr | left; exact Hlen].
      * destruct (Hcatch err) as [Hp Hi]. rewrite Hi, !Hp.
        split; [exact Hr | left; exact Hlen].
    + right. exists t, properties. split; [reflexivity |].
      destruct He as [Hname Hown].
      apply hasOwnProperty_throws in Hown as [Hkey ->].
      rewrite run_catch_run. cbn [fst snd].
      split; [exact Hr |]. right. rewrite Hm, Hx. repeat split; assumption.
  - left. destruct r as [[] | err]; cbn [snd].
    + apply Hend; auto.
    + destruct (Hcatch err) as [Hp Hi]. apply Hend; auto.
  - left. destruct r as [[] | err]; cbn [snd].
    + apply Hend; auto.
    + destruct (Hcatch err) as [Hp Hi]. apply Hend; auto.
Qed.

(** ** The further properties on the two deployments *)

(** The team store cannot be reached: the error surfaces, and the event is
    not counted as dropped. *)
Lemma unreachable_team_store_is_not_a_drop :
  team_resolution Outage.deps Outage.unreachable_team_event
  = Throw (OtherError "connection refused")
  ∧ fst (run Outage.deps
           (new_EventPipelineRunnerV2 Outage.unreachable_team_event))
    = Throw (OtherError "connection refused")
  ∧ trace (snd (run Outage.deps
                  (new_EventPipelineRunnerV2 Outage.unreachable_team_event)))
    = [FetchTeam 500].
Proof.
  assert (H1 : team_resolution Outage.deps Outage.unreachable_team_event
               = Throw (OtherError "connection refused"))
    by (vm_compute; reflexivity).
  split; [exact H1 |].
  destruct (team_lookup_failure_is_not_a_drop Outage.deps
              Outage.unreachable_team_event _ H1 eq_refl) as (Hrun & _).
  rewrite Hrun. split; reflexivity.
Defined.

(** An event with an unknown team id is dropped although its token is the
    token of a known team. *)
Lemma unknown_team_id_dropped_despite_token :
  truthy_number (PipelineEvent.team_id Outage.unknown_id_known_token_event)
  = true
  ∧ Deps.fetchTeam Fixture.deps 99 = Ok None
  ∧ Deps.getTeamByToken Fixture.deps "phc_open" = Ok (Some Fixture.team_open)
  ∧ run Fixture.deps
      (new_EventPipelineRunnerV2 Outage.unknown_id_known_token_event)
    = (Ok (),
       set_trace
         [FetchTeam 99; EventDroppedCounterInc "analytics" "invalid_token"]
         (new_EventPipelineRunnerV2 Outage.unknown_id_known_token_event)).
Proof.
  split; [reflexivity |]. split; [reflexivity |]. split; [reflexivity |].
  exact (team_id_takes_precedence_over_token Fixture.deps
           Outage.unknown_id_known_token_event eq_refl eq_refl).
Defined.

(** The record of an anonymizing team loses its [$ip] and keeps the rest. *)
Lemma anonymizing_team_record_has_no_ip :
  ∃ r st',
    createKafkaEvent Outage.deps Outage.ip_state = (Ok r, st')
    ∧ PluginEvent.properties (event Outage.ip_state) !! "$ip"
      = Some (JStr "203.0.113.7")
    ∧ PluginEvent.properties (event st') !! "$ip" = None
    ∧ PluginEvent.properties (event st') !! "$browser"
      = Some (JStr "firefox").
Proof.
  assert (H1 : createKafkaEvent Outage.deps Outage.ip_state
               = (Ok (assembled_record Outage.deps Outage.ip_state
                        Outage.team_private Fixture.person_known),
                  after_createKafkaEvent Outage.deps Outage.ip_state
                    Outage.team_private))
    by (vm_compute; reflexivity).
  eexists _, _. split; [exact H1 |]. split; [vm_compute; reflexivity |].
  destruct (createKafkaEvent_anonymizes_ip Outage.deps Outage.ip_state _ _ H1)
    as (t & Ht & _ & Hip & Hother).
  injection Ht as <-. split.
  - rewrite Hip. vm_compute. reflexivity.
  - etransitivity;
      [exact (Hother "$browser" ltac:(discriminate) eq_refl) |].
    vm_compute. reflexivity.
Defined.

(** With person processing disabled and a limit of five group types,
    [$group_1] is deleted from the record and [$group_7] is not. *)
Lemma group_key_beyond_the_limit_survives :
  shouldProcessPerson Outage.high_group_state = false
  ∧ ∃ r st',
      createKafkaEvent Outage.deps Outage.high_group_state = (Ok r, st')
      ∧ PluginEvent.properties (event st') !! "$group_1" = None
      ∧ PluginEvent.properties (event st') !! "$group_7" = Some (JStr "acme").
Proof.
  split; [reflexivity |].
  assert (H1 : createKafkaEvent Outage.deps Outage.high_group_state
               = (Ok (assembled_record Outage.deps Outage.high_group_state
                        Outage.team_private Fixture.person_anonymous),
                  after_createKafkaEvent Outage.deps Outage.high_group_state
                    Outage.team_private))
    by (vm_compute; reflexivity).
  eexists _, _. split; [exact H1 |].
  pose proof (createKafkaEvent_group_keys Outage.deps
                Outage.high_group_state _ _ H1) as Hkeys.
  split.
  - exact (Hkeys 1%Z).
  - exact (Hkeys 7%Z).
Defined.

(** A malformed [$elements] does not stop the assembly of the record. *)
Lemma malformed_elements_still_assembled :
  Deps.getElementsChain Outage.deps
    (anonymized_properties Outage.bad_elements_state Outage.team_private)
  = Throw (TypeError "elements is not iterable")
  ∧ ∃ r st',
      createKafkaEvent Outage.deps Outage.bad_elements_state = (Ok r, st')
      ∧ RawKafkaEvent.elements_chain r = EmptyString
      ∧ trace st'
        = [CaptureException (TypeError "elements is not iterable");
           StatusWarn "Failed to process elements"].
Proof.
  assert (H1 : Deps.getElementsChain Outage.deps
                 (anonymized_properties Outage.bad_elements_state
                    Outage.team_private)
               = Throw (TypeError "elements is not iterable"))
    by (vm_compute; reflexivity).
  split; [exact H1 |].
  destruct (createKafkaEvent_survives_elements_failure Outage.deps
              Outage.bad_elements_state Outage.team_private
              Fixture.person_known _ eq_refl eq_refl H1)
    as (r & st' & Hrun & Hchain & Htrace & _).
  exists r, st'. split; [exact Hrun |]. split; assumption.
Defined.

(** A team that opted out of heatmaps: malformed heatmap data is dropped
    without a warning. *)
Lemma opted_out_team_heatmap_data_ignored :
  Team.heatmaps_opt_in Outage.team_private = Some false
  ∧ Deps.extractHeatmapData Outage.deps (event Outage.opted_out_heatmap_state)
    = Throw (OtherError "invalid heatmap data")
  ∧ trace (snd (processHeatmaps Outage.deps Outage.opted_out_heatmap_state))
    = []
  ∧ PluginEvent.properties
      (event (snd (processHeatmaps Outage.deps
                     Outage.opted_out_heatmap_state)))
    = ∅.
Proof.
  split; [reflexivity |]. split; [vm_compute; reflexivity |].
  rewrite (processHeatmaps_respects_opt_out Outage.deps
             Outage.opted_out_heatmap_state Outage.team_private
             eq_refl eq_refl).
  split; vm_compute; reflexivity.
Defined.

(** Malformed heatmap data on an event whose uuid is a number, while the
    broker refuses ingestion warnings: the warning carries the number itself,
    its rejection is only logged, and the promise collected resolves. *)
Lemma malformed_heatmap_data_warned :
  heatmaps_enabled (team Outage.bad_heatmap_state) = true
  ∧ PluginEvent.uuid (event Outage.bad_heatmap_state) = JNum 7
  ∧ Deps.extractHeatmapData Outage.deps (event Outage.bad_heatmap_state)
    = Throw (OtherError "invalid heatmap data")
  ∧ ∃ st',
      processHeatmaps Outage.deps Outage.bad_heatmap_state = (Ok (), st')
      ∧ queued_on KAFKA_INGESTION_WARNINGS (trace st')
        = ["{source:plugin-server;team_id:2;type:invalid_heatmap_data;" +:+
           "timestamp:now;details:{eventUuid:7;event:$pageview;" +:+
           "distinctId:d1;};}"]
      ∧ promises st' = [Resolved]
      ∧ last (trace st')
        = Some (StatusWarn "Failed to produce ingestion warning")
      ∧ PluginEvent.properties (event st') = ∅.
Proof.
  assert (H1 : Deps.extractHeatmapData Outage.deps
                 (event Outage.bad_heatmap_state)
               = Throw (OtherError "invalid heatmap data"))
    by (vm_compute; reflexivity).
  split; [reflexivity |]. split; [reflexivity |]. split; [exact H1 |].
  destruct (processHeatmaps_contains_extraction_failure Outage.deps
              Outage.bad_heatmap_state _ eq_refl H1)
    as (st' & Hrun & Hq & _ & Hp & Hprops & Hst').
  exists st'. split; [exact Hrun |].
  split; [rewrite Hq; vm_compute; reflexivity |].
  split; [rewrite Hp; reflexivity |].
  split; [rewrite Hst'; vm_compute; reflexivity |].
  rewrite Hprops. vm_compute. reflexivity.
Defined.


(** The broker refuses an exception record as too large: the rejection
    reaches the consumer and no warning is queued. *)
Lemma oversized_exception_is_not_swallowed :
  Deps.produce Outage.deps EXCEPTIONS_SYMBOLIFICATION_KAFKA_TOPIC
    (RawKafkaEvent.uuid Fixture.oversized_record)
    (Deps.JSON_stringify Outage.deps
       (RawKafkaEvent.to_js Fixture.oversized_record))
  = Rejected MessageSizeTooLarge
  ∧ promises
      (snd (produceExceptionSymbolificationEventStep Outage.deps
              Fixture.oversized_record Outage.rejected_exception_state))
    = [Rejected MessageSizeTooLarge]
  ∧ queued_on KAFKA_INGESTION_WARNINGS
      (trace (snd (produceExceptionSymbolificationEventStep Outage.deps
                     Fixture.oversized_record Outage.rejected_exception_state)))
    = [].
Proof.
  split; [reflexivity |].
  destruct (exception_produce_failure_is_handed_on Outage.deps
              Fixture.oversized_record Outage.rejected_exception_state
              MessageSizeTooLarge eq_refl)
    as (st' & Hrun & Hp & _ & Hq & _).
  rewrite Hrun. cbn [snd]. rewrite Hp, Hq. split; reflexivity.
Defined.

(** An event the cookieless manager returns nothing for. *)
Lemma cookieless_blocked_event_dropped :
  run Outage.deps (new_EventPipelineRunnerV2 Outage.cookieless_blocked_event)
  = (Ok (),
     let ev :=
       PluginEvent.mk (Some "phc_open") 2 Fixture.valid_uuid "$pageview"
         "cookieless-blocked" None None None ∅ in
     {| originalEvent := Outage.cookieless_blocked_event;
        team := Some Fixture.team_open;
        promises := [];
        event := ev;
        shouldProcessPerson := true;
        timestamp := None;
        person := None;
        trace := [GetTeamByToken "phc_open";
                  CookielessProcessEvent ev;
                  DroppedEventFromTransformationsCounterInc] |}).
Proof.
  set (st_v := snd (validatePersonProcessing Outage.deps
                      (with_resolved_team Outage.deps
                         Outage.cookieless_blocked_event Fixture.team_open))).
  assert (Hval : validatePersonProcessing Outage.deps
                   (with_resolved_team Outage.deps
                      Outage.cookieless_blocked_event Fixture.team_open)
                 = (Ok (), st_v)) by (vm_compute; reflexivity).
  destruct (cookieless_drop_ends_the_run Outage.deps
              Outage.cookieless_blocked_event Fixture.team_open st_v)
    as (Hrun & _).
  - vm_compute. reflexivity.
  - vm_compute. discriminate.
  - vm_compute. reflexivity.
  - exact Hval.
  - vm_compute. discriminate.
  - vm_compute. reflexivity.
  - rewrite Hrun. vm_compute. reflexivity.
Defined.

(** An event the transformer filters out. *)
Lemma filtered_out_event_dropped :
  run Outage.deps (new_EventPipelineRunnerV2 Outage.filtered_out_event)
  = (Ok (),
     let ev :=
       PluginEvent.mk (Some "phc_open") 2 Fixture.valid_uuid "$filtered_out"
         "d1" None None None ∅ in
     {| originalEvent := Outage.filtered_out_event;
        team := Some Fixture.team_open;
        promises := [];
        event := ev;
        shouldProcessPerson := true;
        timestamp := None;
        person := None;
        trace := [GetTeamByToken "phc_open";
                  CookielessProcessEvent ev;
                  TransformEvent ev;
                  DroppedEventFromTransformationsCounterInc] |}).
Proof.
  set (st_v := snd (validatePersonProcessing Outage.deps
                      (with_resolved_team Outage.deps
                         Outage.filtered_out_event Fixture.team_open))).
  assert (Hval : validatePersonProcessing Outage.deps
                   (with_resolved_team Outage.deps
                      Outage.filtered_out_event Fixture.team_open)
                 = (Ok (), st_v)) by (vm_compute; reflexivity).
  destruct (transformer_drop_ends_the_run Outage.deps
              Outage.filtered_out_event Fixture.team_open st_v (event st_v))
    as (Hrun & _).
  - vm_compute. reflexivity.
  - vm_compute. discriminate.
  - vm_compute. reflexivity.
  - exact Hval.
  - vm_compute. discriminate.
  - vm_compute. reflexivity.
  - vm_compute. reflexivity.
  - rewrite Hrun. vm_compute. reflexivity.
Defined.

(** A pageview of a distinct id on the skip list ends with person processing
    off although the event asks for it and the team did not opt out. *)
Lemma skipped_user_pageview_without_person_processing :
  team_resolution Fixture.deps Outage.skipped_user_event
  = Ok (Some Fixture.team_open)
  ∧ Team.person_processing_opt_out Fixture.team_open = Some false
  ∧ default ∅ (PipelineEvent.properties Outage.skipped_user_event)
    !! "$process_person_profile" = Some (JBool true)
  ∧ Deps.eventsToSkipPersonsProcessingByToken Fixture.deps !! "phc_open"
    = Some ["skipped-user"]
  ∧ PipelineEvent.distinct_id Outage.skipped_user_event = "skipped-user"
  ∧ shouldProcessPerson
      (snd (run Fixture.deps
              (new_EventPipelineRunnerV2 Outage.skipped_user_event)))
    = false.
Proof.
  assert (H1 : team_resolution Fixture.deps Outage.skipped_user_event
               = Ok (Some Fixture.team_open)) by (vm_compute; reflexivity).
  assert (H2 : Deps.UUID_validateString Fixture.deps
                 (PipelineEvent.uuid Outage.skipped_user_event) = true)
    by (vm_compute; reflexivity).
  assert (H3 : PipelineEvent.event Outage.skipped_user_event
               ≠ "$$client_ingestion_warning") by (vm_compute; discriminate).
  assert (H4 : Deps.eventsToSkipPersonsProcessingByToken Fixture.deps
               !! "phc_open" = Some ["skipped-user"])
    by (vm_compute; reflexivity).
  assert (H5 : PipelineEvent.distinct_id Outage.skipped_user_event
               ∈ ["skipped-user"]) by apply list_elem_of_here.
  split; [exact H1 |]. split; [reflexivity |].
  split; [vm_compute; reflexivity |]. split; [exact H4 |].
  split; [reflexivity |].
  destruct (skip_list_switches_person_processing_off Fixture.deps
              Outage.skipped_user_event Fixture.team_open
              "phc_open" ["skipped-user"] H1 H2 H3 eq_refl H4 H5)
    as (_ & Hother).
  apply Hother.
  intros Hin. apply (bool_decide_pack _) in Hin. vm_compute in Hin.
  exact Hin.
Defined.


(** The returning user's pageview carries [$process_person_profile = false]
    and ends with person processing off. *)
Lemma explicit_false_disables_person_processing :
  team_resolution Fixture.deps Fixture.returning_user_event
  = Ok (Some Fixture.team_open)
  ∧ Team.person_processing_opt_out Fixture.team_open = Some false
  ∧ Deps.eventsToSkipPersonsProcessingByToken Fixture.deps
    = {[ "phc_open" := ["skipped-user"] ]}
  ∧ PipelineEvent.distinct_id Fixture.returning_user_event = "returning-user"
  ∧ shouldProcessPerson
      (snd (run Fixture.deps
              (new_EventPipelineRunnerV2 Fixture.returning_user_event)))
    = false.
Proof.
  assert (H1 : team_resolution Fixture.deps Fixture.returning_user_event
               = Ok (Some Fixture.team_open)) by (vm_compute; reflexivity).
  assert (H2 : PipelineEvent.event Fixture.returning_user_event
               ≠ "$$client_ingestion_warning") by (vm_compute; discriminate).
  assert (H3 : Deps.UUID_validateString Fixture.deps
                 (PipelineEvent.uuid Fixture.returning_user_event) = true)
    by (vm_compute; reflexivity).
  assert (H4 : Team.person_processing_opt_out Fixture.team_open ≠ Some true)
    by discriminate.
  assert (H5 : ∀ token ids,
    PipelineEvent.token Fixture.returning_user_event = Some token →
    Deps.eventsToSkipPersonsProcessingByToken Fixture.deps !! token
    = Some ids →
    PipelineEvent.distinct_id Fixture.returning_user_event ∉ ids).
  { intros token ids [= <-] Hids. vm_compute in Hids.
    injection Hids as <-.
    intros Hin. apply (bool_decide_pack _) in Hin. vm_compute in Hin.
    exact Hin. }
  assert (H6 : PipelineEvent.event Fixture.returning_user_event
               ∉ person_events).
  { intros Hin. apply (bool_decide_pack _) in Hin. vm_compute in Hin.
    exact Hin. }
  split; [exact H1 |]. split; [reflexivity |]. split; [reflexivity |].
  split; [reflexivity |].
  rewrite (only_false_disables_person_processing Fixture.deps
             Fixture.returning_user_event Fixture.team_open
             H1 H2 H3 H4 H5 H6).
  vm_compute. reflexivity.
Defined.


(** A pageview that carries a [$sentry_event_id] goes to the events topic. *)
Lemma pageview_with_sentry_id_goes_to_events :
  PluginEvent.event (event Outage.sentry_pageview_state) ≠ "$exception"
  ∧ is_Some (PluginEvent.properties (event Outage.sentry_pageview_state)
             !! "$sentry_event_id")
  ∧ length (produced_to CLICKHOUSE_JSON_EVENTS_KAFKA_TOPIC
              (trace (snd (assembleAndProduce Outage.deps
                             Outage.sentry_pageview_state)))) = 1
  ∧ produced_to EXCEPTIONS_SYMBOLIFICATION_KAFKA_TOPIC
      (trace (snd (assembleAndProduce Outage.deps
                     Outage.sentry_pageview_state))) = [].
Proof.
  assert (H1 : createKafkaEvent Outage.deps Outage.sentry_pageview_state
               = (Ok (assembled_record Outage.deps Outage.sentry_pageview_state
                        Outage.team_private Fixture.person_known),
                  after_createKafkaEvent Outage.deps
                    Outage.sentry_pageview_state Outage.team_private))
    by (vm_compute; reflexivity).
  assert (H2 : PluginEvent.event (event Outage.sentry_pageview_state)
               ≠ "$exception") by (vm_compute; discriminate).
  split; [exact H2 |]. split; [vm_compute; eauto |].
  destruct (ordinary_events_go_to_the_events_topic Outage.deps
              Outage.sentry_pageview_state _ _ H1 H2)
    as (st2 & Hrun & Hevents & Hother & _).
  rewrite Hrun. cbn [snd]. rewrite Hevents, Hother by discriminate.
  split; reflexivity.
Defined.

Lemma Outage_group_lookups_return (t : Team) (p : Props) :
  group_lookups_return Outage.deps t p.
Proof.
  intros g _. simpl. unfold Outage.fetchGroupTypeIndex.
  destruct (String.eqb g "organization"); [eauto |].
  destruct (String.eqb g "project"); eauto.
Qed.

(** Of the two groups of the event only the organization has a column: its
    identifier is written under [$group_0]. *)
Lemma organization_written_to_its_column :
  shouldProcessPerson Outage.groups_state = true
  ∧ event_groups (PluginEvent.properties (event Outage.groups_state))
    !! "organization" = Some (JStr "acme")
  ∧ group_type_index Outage.deps Outage.team_private (JStr "department")
    = None
  ∧ ∃ st',
      processGroups Outage.deps Outage.groups_state = (Ok (), st')
      ∧ PluginEvent.properties (event st') !! "$group_0" = Some (JStr "acme")
      ∧ group_upserts (trace st') = [].
Proof.
  assert (H1 : event_groups (PluginEvent.properties (event Outage.groups_state))
               !! "organization" = Some (JStr "acme"))
    by (vm_compute; reflexivity).
  split; [reflexivity |]. split; [exact H1 |]. split; [reflexivity |].
  destruct (processGroups_assigns_group_columns Outage.deps
              Outage.groups_state Outage.team_private eq_refl eq_refl)
    as (st' & Hrun & _ & Hups & Hset & _).
  - vm_compute. discriminate.
  - apply Outage_group_lookups_return.
  - exists st'. split; [exact Hrun |]. split; [| exact Hups].
    apply (Hset "organization" (JStr "acme") 0%Z H1 eq_refl).
    intros g' Hne _. unfold group_type_index. simpl.
    unfold Outage.fetchGroupTypeIndex.
    destruct (String.eqb g' "organization") eqn:Heq.
    + apply String.eqb_eq in Heq. contradiction.
    + destruct (String.eqb g' "project"); discriminate.
Defined.

(** A [$groupidentify] for the organization with the numeric key 42 upserts
    the group under column 0 with the key as a string; one whose key is an
    object with a key named [toString] throws and upserts nothing. *)
Lemma groupidentify_upserts_organization :
  PluginEvent.event (event Outage.groupidentify_state) = "$groupidentify"
  ∧ group_upserts
      (trace (snd (processGroups Outage.deps Outage.groupidentify_state)))
    = [UpsertGroup 4 1 0 "42" (JObj ∅)]
  ∧ fst (processGroups Outage.deps Outage.unprintable_key_state)
    = Throw (TypeError "toString is not a function")
  ∧ group_upserts
      (trace (snd (processGroups Outage.deps Outage.unprintable_key_state)))
    = [].
Proof.
  split; [reflexivity |].
  destruct (groupidentify_upserts_the_group Outage.deps
              Outage.groupidentify_state Outage.team_private
              eq_refl eq_refl eq_refl
              (Outage_group_lookups_return _ _)) as (_ & _ & Hups).
  destruct (Hups eq_refl) as (Hok & _).
  destruct (Hok 0%Z "42" eq_refl eq_refl) as (_ & Hupsert).
  split; [exact Hupsert |].
  destruct (groupidentify_upserts_the_group Outage.deps
              Outage.unprintable_key_state Outage.team_private
              eq_refl eq_refl eq_refl
              (Outage_group_lookups_return _ _)) as (_ & _ & Hups').
  destruct (Hups' eq_refl) as (_ & Hthrow & _).
  destruct (Hthrow 0%Z (TypeError "toString is not a function")
              eq_refl eq_refl) as (Hrun & Hnone).
  rewrite Hrun. split; [reflexivity | exact Hnone].
Defined.


(** An event with groups whose sender asked for no person processing: no
    group type is looked up. *)
Lemma anonymous_event_groups_not_looked_up :
  is_Some (default ∅ (PipelineEvent.properties Outage.anonymous_group_event)
           !! "$groups")
  ∧ shouldProcessPerson
      (snd (run Outage.deps
              (new_EventPipelineRunnerV2 Outage.anonymous_group_event)))
    = false
  ∧ group_calls
      (trace (snd (run Outage.deps
                     (new_EventPipelineRunnerV2
                        Outage.anonymous_group_event))))
    = []
  ∧ length
      (produced_to CLICKHOUSE_JSON_EVENTS_KAFKA_TOPIC
         (trace (snd (run Outage.deps
                        (new_EventPipelineRunnerV2
                           Outage.anonymous_group_event)))))
    = 1.
Proof.
  assert (H1 : shouldProcessPerson
                 (snd (run Outage.deps
                         (new_EventPipelineRunnerV2
                            Outage.anonymous_group_event))) = false)
    by (vm_compute; reflexivity).
  split; [vm_compute; eauto |]. split; [exact H1 |].
  split; [| vm_compute; reflexivity].
  exact (no_group_processing_without_person_processing Outage.deps
           Outage.anonymous_group_event H1).
Defined.

(** The run of a pageview returns and is accounted for. *)
Lemma accepted_pageview_is_accounted_for :
  fst (run Fixture.deps (new_EventPipelineRunnerV2 Fixture.odd_profile_event_2))
  = Ok ()
  ∧ let st' :=
      snd (run Fixture.deps
             (new_EventPipelineRunnerV2 Fixture.odd_profile_event_2)) in
    drop_causes (trace st') = ["invalid_token"]
    ∨ (PipelineEvent.event Fixture.odd_profile_event_2
       = "$$client_ingestion_warning"
       ∧ length (queued_on KAFKA_INGESTION_WARNINGS (trace st')) = 1)
    ∨ (∃ t st_v,
         validatePersonProcessing Fixture.deps
           (with_resolved_team Fixture.deps Fixture.odd_profile_event_2 t)
         = (Ok (), st_v)
         ∧ PluginEvent.event (event st_v) = "$$heatmap"
         ∧ st' = after_heatmaps Fixture.deps
                   (after_normalizeEvent Fixture.deps st_v))
    ∨ DroppedEventFromTransformationsCounterInc ∈ trace st'
    ∨ length
        (produced_to CLICKHOUSE_JSON_EVENTS_KAFKA_TOPIC (trace st')
         ++ produced_to EXCEPTIONS_SYMBOLIFICATION_KAFKA_TOPIC (trace st'))
      = 1.
Proof.
  assert (H1 : fst (run Fixture.deps
                      (new_EventPipelineRunnerV2 Fixture.odd_profile_event_2))
               = Ok ()) by (vm_compute; reflexivity).
  split; [exact H1 |].
  exact (run_accounts_for_every_event_it_accepts Fixture.deps
           Fixture.odd_profile_event_2 H1).
Defined.

(** The error of the unreachable team store is the error of the call the
    trace ends with, the lookup of team 500, and nothing was produced. *)
Lemma unreachable_team_store_error_is_expected :
  fst (run Outage.deps
         (new_EventPipelineRunnerV2 Outage.unreachable_team_event))
  = Throw (OtherError "connection refused")
  ∧ last (trace (snd (_run Outage.deps
                        (new_EventPipelineRunnerV2
                           Outage.unreachable_team_event))))
    = Some (FetchTeam 500)
  ∧ Deps.fetchTeam Outage.deps 500 = Throw (OtherError "connection refused")
  ∧ (let st1 :=
       snd (_run Outage.deps
              (new_EventPipelineRunnerV2 Outage.unreachable_team_event)) in
     (validation_error Outage.deps Outage.unreachable_team_event
        (OtherError "connection refused")
      ∨ thrown_by_uuid Outage.deps Outage.unreachable_team_event
          (OtherError "connection refused")
      ∨ thrown_by_collaborator Outage.deps (OtherError "connection refused")
          st1
      ∨ thrown_by_group_key (OtherError "connection refused") st1
      ∨ thrown_by_hasOwnProperty (OtherError "connection refused") st1)
     ∧ nothing_enriched
         (snd (run Outage.deps
                 (new_EventPipelineRunnerV2 Outage.unreachable_team_event)))).
Proof.
  assert (H1 : fst (run Outage.deps
                      (new_EventPipelineRunnerV2 Outage.unreachable_team_event))
               = Throw (OtherError "connection refused"))
    by (vm_compute; reflexivity).
  split; [exact H1 |]. split; [vm_compute; reflexivity |].
  split; [vm_compute; reflexivity |].
  exact (run_throws_only_expected_errors Outage.deps
           Outage.unreachable_team_event _ H1).
Defined.


(** The record of a pageview sent with the token of the open team carries
    that team's id. *)
Lemma pageview_record_carries_open_team :
  team_resolution Fixture.deps Fixture.odd_profile_event_2
  = Ok (Some Fixture.team_open)
  ∧ PipelineEvent.team_id Fixture.odd_profile_event_2 = None
  ∧ ∃ key value r,
      produced_to CLICKHOUSE_JSON_EVENTS_KAFKA_TOPIC
        (trace (snd (run Fixture.deps
                       (new_EventPipelineRunnerV2
                          Fixture.odd_profile_event_2))))
      = [(key, value)]
      ∧ value = Deps.JSON_stringify Fixture.deps (RawKafkaEvent.to_js r)
      ∧ RawKafkaEvent.team_id r = 2%Z.
Proof.
  assert (H1 : team_resolution Fixture.deps Fixture.odd_profile_event_2
               = Ok (Some Fixture.team_open)) by (vm_compute; reflexivity).
  split; [exact H1 |]. split; [reflexivity |].
  pose proof (enriched_record_carries_the_resolved_team Fixture.deps
                Fixture.odd_profile_event_2 Fixture.team_open H1) as Hteam.
  cbv zeta in Hteam.
  destruct (produced_to CLICKHOUSE_JSON_EVENTS_KAFKA_TOPIC
              (trace (snd (run Fixture.deps
                             (new_EventPipelineRunnerV2
                                Fixture.odd_profile_event_2)))))
    as [| [key value] [| m l]] eqn:Hevents;
    [vm_compute in Hevents; discriminate | |
     vm_compute in Hevents; discriminate].
  destruct (Hteam key value) as (r & _ & Hvalue & Hid & _).
  { apply elem_of_app. left. apply list_elem_of_here. }
  exists key, value, r. split; [reflexivity |]. split; assumption.
Defined.

(** An [$exception] whose properties carry a key named [hasOwnProperty]: the
    team's first ingestion is reported, the routing throws, and no enriched
    record is produced. *)
Lemma shadowed_exception_reported_without_record :
  let st' :=
    snd (run Fixture.deps
           (new_EventPipelineRunnerV2 Fixture.shadowed_exception_event)) in
  (∃ properties,
     ingestion_reports (trace st')
     = [SetTeamIngestedEvent Fixture.team_open properties])
  ∧ produced_to CLICKHOUSE_JSON_EVENTS_KAFKA_TOPIC (trace st')
    ++ produced_to EXCEPTIONS_SYMBOLIFICATION_KAFKA_TOPIC (trace st') = []
  ∧ fst (run Fixture.deps
           (new_EventPipelineRunnerV2 Fixture.shadowed_exception_event))
    = Throw (TypeError "hasOwnProperty is not a function")
  ∧ is_Some (PluginEvent.properties (event st') !! "hasOwnProperty").
Proof.
  intros st'. subst st'.
  destruct (first_ingestion_is_reported_with_the_record Fixture.deps
              Fixture.shadowed_exception_event)
    as [[Hnone _] | (t & properties & Hres & Hreport & Hrecord)].
  - vm_compute in Hnone. discriminate Hnone.
  - assert (t = Fixture.team_open) as ->.
    { vm_compute in Hres. injection Hres as <-. reflexivity. }
    destruct Hrecord as [Hlen | (Hempty & Hrun & _ & Hkey)].
    + vm_compute in Hlen. discriminate Hlen.
    + split; [exists properties; exact Hreport |].
      split; [exact Hempty |]. split; [exact Hrun | exact Hkey].
Defined.
